(** * The SAR lookup backend (server.js): a shallow embedding and its properties

    The server is one Express application with two routes, [GET /health] and
    [POST /api/get-sar-image].  The second one validates the request, checks
    the configuration, queries a catalog, selects the most recent feature that
    carries a preview, asks a vision service for colors and tags, builds a
    prompt, asks a language model for an interpretation and assembles the
    answer.

    The embedding keeps the shape of the source: JSON data are untyped
    JavaScript values, a property read on [undefined] or [null] throws, the
    conversion of an object to a string or a number throws when the object
    has a [toString] property of its own (which, coming from JSON, is not a
    function), the outbound calls are answered by a [world] and recorded in a
    trace, and [try]/[catch] is a combinator of the handler monad. *)

From Stdlib Require Import List String Ascii ZArith QArith Qabs Lia Bool Permutation.
From Stdlib Require Import DecimalString Sorted.
Import ListNotations.
Local Open Scope string_scope.
Set Warnings "-register-all".

(** ** JavaScript values *)

(** A JavaScript number: every finite double is a rational, so comparisons on
    finite numbers are comparisons on [Q]. *)
Inductive number : Type :=
| NaN
| PosInf
| NegInf
| Fin (q : Q).

(** The values that [JSON.parse] (and axios, which falls back to the raw text
    of a body it cannot parse) can produce, plus [undefined].  An object is the
    list of its own properties, as the parser produced them (one entry per
    key). *)
Inductive value : Type :=
| Undefined
| Null
| Bool (b : bool)
| Num (n : number)
| Str (s : string)
| Arr (xs : list value)
| Obj (fields : list (string * value)).

(** The outcome of an expression that may throw.  The handler only logs what
    it catches, so the thrown value is not kept. *)
Inductive exc (A : Type) : Type :=
| Ok (a : A)
| Throw.
Arguments Ok {A} a.
Arguments Throw {A}.

(** The built-ins of the JavaScript runtime that the handler calls and that are
    not part of the repository.  [Array.prototype.sort] is specified by
    ECMAScript only up to the sequence of comparisons: what is fixed is that
    the result is a permutation, that the sort returns when the comparator
    does, and that for a consistent comparator (here: one that is the
    difference of a rank) on elements other than [undefined] the result is
    ordered and stable.  For any other comparator the order is the engine's
    own. *)
Class Runtime : Type := {
  (** [ToNumber] on a string *)
  StringToNumber : string -> number;
  (** [ToString] on a number *)
  NumberToString : number -> string;
  (** [Number.prototype.toFixed(1)] *)
  toFixed1 : number -> string;
  (** [JSON.stringify(v, null, 2)] *)
  JSON_stringify : value -> string;
  (** [Date.parse]: the time value in milliseconds, [None] for [NaN] *)
  Date_parse : string -> option Z;
  (** [Array.prototype.sort] with a comparator whose result is an integer or
      [NaN] ([None]) *)
  Array_sort : (value -> value -> exc (option Z)) -> list value -> exc (list value);
  Array_sort_permutes :
    forall cmp l s, Array_sort cmp l = Ok s -> Permutation l s;
  Array_sort_returns :
    forall cmp l,
      (forall a b, In a l -> In b l -> cmp a b <> Throw) -> Array_sort cmp l <> Throw;
  Array_sort_stable :
    forall cmp (rank : value -> Z) l s,
      ~ In Undefined l ->
      (forall a b, In a l -> In b l -> cmp a b = Ok (Some (rank a - rank b)%Z)) ->
      Array_sort cmp l = Ok s ->
      StronglySorted (fun a b => (rank a <= rank b)%Z) s
      /\ forall r, filter (fun x => (rank x =? r)%Z) s = filter (fun x => (rank x =? r)%Z) l
}.

Class Monad (m : Type -> Type) : Type := {
  ret : forall {A}, A -> m A;
  bind : forall {A B}, m A -> (A -> m B) -> m B
}.

Notation "x <- c ;; k" := (bind c (fun x => k))
  (at level 61, c at next level, right associativity).

#[global] Instance Monad_exc : Monad exc := {
  ret := fun A a => Ok a;
  bind := fun A B c k => match c with Ok a => k a | Throw => Throw end
}.

(** ** Strings

    A string is the byte string of its text in UTF-8, as the source file and
    the HTTP bodies have it.  A JavaScript string is a sequence of UTF-16 code
    units, and JSON can spell a surrogate that has no partner: such a lone
    surrogate takes the three bytes that the UTF-8 scheme gives its code
    (ED, then A0 to BF, then a continuation byte), which no well-formed text
    contains. *)

Definition byte_is (a : ascii) (n : N) : bool := N.eqb (N_of_ascii a) n.

(** The number of UTF-16 code units of the text: one for a character of one,
    two or three bytes, two for a character of four bytes. *)
Fixpoint utf16_length (s : string) : nat :=
  match s with
  | EmptyString => 0
  | String a s1 =>
      if N.ltb (N_of_ascii a) 192 then S (utf16_length s1)
      else match s1 with
           | EmptyString => 1
           | String _ s2 =>
               if N.ltb (N_of_ascii a) 224 then S (utf16_length s2)
               else match s2 with
                    | EmptyString => 1
                    | String _ s3 =>
                        if N.ltb (N_of_ascii a) 240 then S (utf16_length s3)
                        else match s3 with
                             | EmptyString => 1
                             | String _ s4 => S (S (utf16_length s4))
                             end
                    end
           end
  end.

(** The high surrogate of the character that the four bytes encode, in the
    three bytes of a lone surrogate. *)
Definition high_surrogate (a b c d : ascii) : string :=
  let point := (N.land (N_of_ascii a) 7 * 262144 + N.land (N_of_ascii b) 63 * 4096
                + N.land (N_of_ascii c) 63 * 64 + N.land (N_of_ascii d) 63)%N in
  let unit := (55296 + (point - 65536) / 1024)%N in
  String (ascii_of_N 237)
    (String (ascii_of_N (128 + N.land (unit / 64) 63))
       (String (ascii_of_N (128 + N.land unit 63)) "")).

(** The first UTF-16 code unit of a text that is not empty, as a string of
    its own: the first character, or its high surrogate when it takes four
    bytes. *)
Definition first_code_unit (s : string) : string :=
  match s with
  | EmptyString => ""
  | String a _ =>
      if N.ltb (N_of_ascii a) 192 then substring 0 1 s
      else if N.ltb (N_of_ascii a) 224 then substring 0 2 s
      else if N.ltb (N_of_ascii a) 240 then substring 0 3 s
      else match s with
           | String _ (String b (String c (String d _))) => high_surrogate a b c d
           | _ => s
           end
  end.

(** The characters that [encodeURIComponent] leaves as they are: letters,
    digits and [- _ . ! ~ * ' ( )]. *)
Definition unreserved (a : ascii) : bool :=
  let n := N_of_ascii a in
  (N.leb 65 n && N.leb n 90) || (N.leb 97 n && N.leb n 122) || (N.leb 48 n && N.leb n 57)
  || N.eqb n 45 || N.eqb n 95 || N.eqb n 46 || N.eqb n 33 || N.eqb n 126
  || N.eqb n 42 || N.eqb n 39 || N.eqb n 40 || N.eqb n 41.

Definition hex_digit (n : N) : ascii :=
  if N.ltb n 10 then ascii_of_N (48 + n) else ascii_of_N (55 + n).

(** [%XX] for a byte *)
Definition percent_encoded (a : ascii) : string :=
  String "%"%char (String (hex_digit (N_of_ascii a / 16))
                (String (hex_digit (N_of_ascii a mod 16)) "")).

(** The bytes at hand start a lone surrogate. *)
Definition lone_surrogate (a : ascii) (rest : string) : bool :=
  byte_is a 237
  && match rest with
     | String b _ => N.leb 160 (N_of_ascii b)
     | EmptyString => false
     end.

(** [encodeURIComponent] on a string: every byte of the UTF-8 form of a
    character that is not unreserved is escaped; a lone surrogate is a
    [URIError]. *)
Fixpoint encode (s : string) : exc string :=
  match s with
  | EmptyString => Ok ""
  | String a rest =>
      if lone_surrogate a rest then Throw
      else
        tail <- encode rest ;;
        Ok (if unreserved a then String a tail else percent_encoded a ++ tail)
  end.

Section Values.
Context {RT : Runtime}.

Definition nullish (v : value) : bool :=
  match v with
  | Undefined | Null => true
  | _ => false
  end.

Definition is_undefined (v : value) : bool :=
  match v with
  | Undefined => true
  | _ => false
  end.

Definition num_is_zero (n : number) : bool :=
  match n with
  | Fin q => Qeq_bool q 0
  | _ => false
  end.

(** [ToBoolean] *)
Definition truthy (v : value) : bool :=
  match v with
  | Undefined | Null => false
  | Bool b => b
  | Num NaN => false
  | Num n => negb (num_is_zero n)
  | Str s => negb (s =? "")
  | Arr _ | Obj _ => true
  end.

(** [a > b] on numbers; any comparison with [NaN] is false. *)
Definition num_gt (a b : number) : bool :=
  match a, b with
  | NaN, _ | _, NaN => false
  | PosInf, PosInf => false
  | PosInf, _ => true
  | _, PosInf => false
  | NegInf, _ => false
  | Fin _, NegInf => true
  | Fin x, Fin y => negb (Qle_bool x y)
  end.

Fixpoint lookup (k : string) (fields : list (string * value)) : value :=
  match fields with
  | [] => Undefined
  | (k', v) :: rest => if k =? k' then v else lookup k rest
  end.

(** The object has a property of its own under the key. *)
Definition has_own (k : string) (fields : list (string * value)) : bool :=
  existsb (fun kv => k =? fst kv) fields.

Definition num_of_nat (n : nat) : number := Fin (inject_Z (Z.of_nat n)).

(** [v.k] for the property names the handler reads.  None of them is
    inherited from a prototype except [length] of arrays and strings. *)
Definition get (v : value) (k : string) : exc value :=
  match v with
  | Undefined | Null => Throw
  | Bool _ | Num _ => Ok Undefined
  | Str s => Ok (if k =? "length" then Num (num_of_nat (utf16_length s)) else Undefined)
  | Arr xs => Ok (if k =? "length" then Num (num_of_nat (List.length xs)) else Undefined)
  | Obj fields => Ok (lookup k fields)
  end.

(** [v[0]]; on a string, its first code unit. *)
Definition get0 (v : value) : exc value :=
  match v with
  | Undefined | Null => Throw
  | Bool _ | Num _ => Ok Undefined
  | Str s => Ok (match s with EmptyString => Undefined | _ => Str (first_code_unit s) end)
  | Arr xs => Ok (match xs with [] => Undefined | x :: _ => x end)
  | Obj fields => Ok (lookup "0" fields)
  end.

(** [a && k(a)]: the left operand when it is falsy, else the right one. *)
Definition and_then (a : value) (k : value -> exc value) : exc value :=
  if truthy a then k a else Ok a.

(** [a || k()] *)
Definition or_else (a : value) (k : exc value) : exc value :=
  if truthy a then Ok a else k.

(** [Array.prototype.join] on strings *)
Fixpoint join (sep : string) (parts : list string) : string :=
  match parts with
  | [] => ""
  | [p] => p
  | p :: rest => p ++ sep ++ join sep rest
  end.

(** [ToString], as a template literal, [join] and [encodeURIComponent] apply
    it.  An object is converted by its [toString] method: the inherited one
    prints [[object Object]]; a [toString] property of the object's own hides
    it and, being JSON data, is not callable, and since the inherited
    [valueOf] returns the object itself the conversion ends in a [TypeError].
    An array prints as its elements joined by commas, [undefined] and [null]
    elements as the empty string, and throws when an element does. *)
Fixpoint to_string (v : value) : exc string :=
  match v with
  | Undefined => Ok "undefined"
  | Null => Ok "null"
  | Bool true => Ok "true"
  | Bool false => Ok "false"
  | Num n => Ok (NumberToString n)
  | Str s => Ok s
  | Arr xs =>
      parts <- (fix elements (xs : list value) : exc (list string) :=
                  match xs with
                  | [] => Ok []
                  | x :: rest =>
                      part <- (if nullish x then Ok "" else to_string x) ;;
                      parts <- elements rest ;;
                      Ok (part :: parts)
                  end) xs ;;
      Ok (join "," parts)
  | Obj fields => if has_own "toString" fields then Throw else Ok "[object Object]"
  end.

(** The string an array element contributes to [join]. *)
Definition element_string (v : value) : exc string :=
  if nullish v then Ok "" else to_string v.

(** [ToNumber]; an array or object goes through [ToPrimitive], which ends in
    its [toString] (the inherited [valueOf] returns the object itself). *)
Definition to_number (v : value) : exc number :=
  match v with
  | Undefined => Ok NaN
  | Null => Ok (Fin 0)
  | Bool true => Ok (Fin 1)
  | Bool false => Ok (Fin 0)
  | Num n => Ok n
  | Str s => Ok (StringToNumber s)
  | Arr _ | Obj _ => s <- to_string v ;; Ok (StringToNumber s)
  end.

(** [v > n] with a number on the right: the left operand is converted. *)
Definition js_gt (v : value) (n : number) : exc bool :=
  x <- to_number v ;;
  Ok (num_gt x n).

(** [v === 0] *)
Definition strict_eq_zero (v : value) : bool :=
  match v with
  | Num n => num_is_zero n
  | _ => false
  end.

(** [TimeClip]: a finite number within 8.64e15 ms of the epoch, truncated. *)
Definition time_clip (n : number) : option Z :=
  match n with
  | Fin q =>
      if Qle_bool (Qabs q) (inject_Z 8640000000000000)
      then Some (Z.quot (Qnum q) (Z.pos (Qden q)))
      else None
  | _ => None
  end.

(** The time value of [new Date(v)]; [None] is an invalid date, whose time
    value is [NaN].  The argument is converted by [ToPrimitive] first. *)
Definition Date_new (v : value) : exc (option Z) :=
  match v with
  | Str s => Ok (Date_parse s)
  | Arr _ | Obj _ => s <- to_string v ;; Ok (Date_parse s)
  | _ => x <- to_number v ;; Ok (time_clip x)
  end.

(** [encodeURIComponent(v)] *)
Definition encodeURIComponent (v : value) : exc string :=
  s <- to_string v ;;
  encode s.

(** Calling an array method ([filter], [map]) on a value: a [TypeError] unless
    the value is an array. *)
Definition as_array (v : value) : exc (list value) :=
  match v with
  | Arr xs => Ok xs
  | _ => Throw
  end.

Fixpoint filterM (p : value -> exc bool) (xs : list value) : exc (list value) :=
  match xs with
  | [] => Ok []
  | x :: rest =>
      b <- p x ;;
      kept <- filterM p rest ;;
      Ok (if (b : bool) then x :: kept else kept)
  end.

Fixpoint mapM {A : Type} (f : value -> exc A) (xs : list value) : exc (list A) :=
  match xs with
  | [] => Ok []
  | x :: rest =>
      y <- f x ;;
      ys <- mapM f rest ;;
      Ok (y :: ys)
  end.

End Values.

(** The line feed, as the template literal and the bodies have it. *)
Definition newline : string := String (ascii_of_nat 10) "".

(** ** [String.prototype.trim]

    [trim] removes the white space and line terminators of ECMAScript; those
    outside ASCII take two or three bytes. *)

(** TAB, LF, VT, FF, CR and SPACE *)
Definition ws1 (a : ascii) : bool :=
  let n := N_of_ascii a in
  (N.leb 9 n && N.leb n 13) || N.eqb n 32.

(** U+00A0 *)
Definition ws2 (a b : ascii) : bool := byte_is a 194 && byte_is b 160.

(** U+1680, U+2000 to U+200A, U+2028, U+2029, U+202F, U+205F, U+3000, U+FEFF *)
Definition ws3 (a b c : ascii) : bool :=
  let z := N_of_ascii c in
  (byte_is a 225 && byte_is b 154 && byte_is c 128)
  || (byte_is a 226 && byte_is b 128
      && ((N.leb 128 z && N.leb z 138) || N.eqb z 168 || N.eqb z 169 || N.eqb z 175))
  || (byte_is a 226 && byte_is b 129 && byte_is c 159)
  || (byte_is a 227 && byte_is b 128 && byte_is c 128)
  || (byte_is a 239 && byte_is b 187 && byte_is c 191).

Fixpoint trimStart (s : string) : string :=
  match s with
  | String a s1 =>
      if ws1 a then trimStart s1
      else match s1 with
           | String b s2 =>
               if ws2 a b then trimStart s2
               else match s2 with
                    | String c s3 => if ws3 a b c then trimStart s3 else s
                    | EmptyString => s
                    end
           | EmptyString => s
           end
  | EmptyString => s
  end.

(** The same scan on the reversed string: the head is the last byte. *)
Fixpoint trimStart_rev (r : string) : string :=
  match r with
  | String c r1 =>
      if ws1 c then trimStart_rev r1
      else match r1 with
           | String b r2 =>
               if ws2 b c then trimStart_rev r2
               else match r2 with
                    | String a r3 => if ws3 a b c then trimStart_rev r3 else r
                    | EmptyString => r
                    end
           | EmptyString => r
           end
  | EmptyString => r
  end.

Fixpoint rev_string (s : string) : string :=
  match s with
  | EmptyString => EmptyString
  | String a s1 => rev_string s1 ++ String a EmptyString
  end.

Definition trimEnd (s : string) : string :=
  rev_string (trimStart_rev (rev_string s)).

Definition trim (s : string) : string := trimEnd (trimStart s).

(** The text begins with a white-space character. *)
Definition starts_ws (s : string) : bool :=
  match s with
  | String a s1 =>
      ws1 a
      || match s1 with
         | String b s2 =>
             ws2 a b
             || match s2 with
                | String c _ => ws3 a b c
                | EmptyString => false
                end
         | EmptyString => false
         end
  | EmptyString => false
  end.

(** The reversed text begins with a (reversed) white-space character. *)
Definition starts_ws_rev (r : string) : bool :=
  match r with
  | String c r1 =>
      ws1 c
      || match r1 with
         | String b r2 =>
             ws2 b c
             || match r2 with
                | String a _ => ws3 a b c
                | EmptyString => false
                end
         | EmptyString => false
         end
  | EmptyString => false
  end.

(** The text ends with a white-space character. *)
Definition ends_ws (s : string) : bool := starts_ws_rev (rev_string s).

(** A byte below 128 that is not white space. *)
Definition plain (c : ascii) : bool :=
  N.ltb (N_of_ascii c) 128 && negb (ws1 c).

(** [sub] occurs in [s]. *)
Definition contains (s sub : string) : Prop :=
  exists pre post, s = pre ++ sub ++ post.

(** ** The handler monad: outbound calls, their trace, exceptions *)

(** The outbound HTTP calls.  A call is identified by the values the source
    interpolates into its URL, headers and body; the URL itself is built (and
    can fail to be built) before the call is made. *)
Inductive call : Type :=
| GetCatalog (longitude latitude : value)
| GetColors (imageUrl : value) (key secret : string)
| GetTags (imageUrl : value) (key secret : string)
| PostLLM (prompt : string) (bearer : option string).

(** What the remote services answer: the [data] of the axios response, or a
    rejected promise (HTTP error status, timeout, network failure). *)
Definition world : Type := call -> exc value.

(** A computation reads the world, appends to the trace of calls made so far,
    and returns or throws. *)
Definition M (A : Type) : Type := world -> list call -> exc A * list call.

#[global] Instance Monad_M : Monad M := {
  ret := fun A a => fun _ tr => (Ok a, tr);
  bind := fun A B c k => fun w tr =>
    match c w tr with
    | (Ok a, tr') => k a w tr'
    | (Throw, tr') => (Throw, tr')
    end
}.

Definition lift {A : Type} (e : exc A) : M A := fun _ tr => (e, tr).

(** [await axios.get(...)] and [await axios.post(...)] *)
Definition axios (c : call) : M value := fun w tr => (w c, (tr ++ [c])%list).

(** [try { body } catch (err) { handler }] *)
Definition try_catch {A : Type} (body handler : M A) : M A := fun w tr =>
  match body w tr with
  | (Ok a, tr') => (Ok a, tr')
  | (Throw, tr') => handler w tr'
  end.

Definition run {A : Type} (m : M A) (w : world) : exc A * list call := m w [].

(** ** Configuration and responses *)

(** [process.env]: a variable is a string or is unset. *)
Record Env : Type := {
  IMAGGA_API_KEY : option string;
  IMAGGA_API_SECRET : option string;
  OPEN_ROUTER_API : option string
}.

(** [!x] on an environment variable: unset or empty. *)
Definition env_missing (x : option string) : bool :=
  match x with
  | None => true
  | Some s => s =? ""
  end.

Definition env_string (x : option string) : string :=
  match x with
  | None => "undefined"
  | Some s => s
  end.

(** What [res.status(s).json(body)] sends; [res.json] sends status 200.  The
    body is the object handed to [json], before its serialization. *)
Record response : Type := { status : Z; body : value }.

Definition json (b : value) : response := {| status := 200; body := b |}.
Definition status_json (s : Z) (b : value) : response := {| status := s; body := b |}.
Definition error_body (msg : string) : value := Obj [("error", Str msg)].

(** ** GET /health *)

(** The handler reads the clock once: [now] is what [Date.now()] returns. *)
Definition health (now : Z) : response :=
  json (Obj [("status", Str "ok"); ("timestamp", Num (Fin (inject_Z now)))]).

(** Successive calls, each with the clock reading at its time. *)
Definition health_calls (clock : list Z) : list response := map health clock.

Definition timestamp_of (r : response) : value :=
  match get (body r) "timestamp" with
  | Ok v => v
  | Throw => Undefined
  end.

(** ** POST /api/get-sar-image *)

(** The fixed text of the prompt template, between its interpolations. *)
Definition prompt_intro : string := "
You are a NASA SAR (Synthetic Aperture Radar) interpretation specialist 🛰️.
A vision API has returned detected colors and approximate percentages for a Sentinel-1 preview image.

Detected color percentages:
".

Definition prompt_tags_label : string := "

Also detected visual tags: ".

Definition prompt_chart : string := ".

SAR Color Interpretation Chart:
- Bright White / Light Gray => strong backscatter (urban structures, metal, ships)
- Medium Gray => rocky terrain or dry soil
- Black / Dark Blue => calm water or radar shadow
- Green => vegetation or forest
- Yellow / Orange => mixed terrain or transitional vegetation
- Red / Magenta => man-made structures or urban materials
- Cyan / Blue-Green => wetlands or moist areas

Using these color percentages and the tags, do the following:
1) For each detected color, give a short interpretation (one line) about what that color likely represents in SAR terms.
2) Provide a 4-6 sentence summary describing the most likely landscape in plain, simple language.
3) Mention the capture date/time, flightDirection, and coordinates (from metadata) explicitly.
4) Note any uncertainties or edge-cases (for example, if color mapping is ambiguous).
5) Use 0-2 relevant emojis, keep output concise.

Metadata:
".

Definition prompt_end : string := "
".

Section Handler.
Context {RT : Runtime}.

(** The predicate of [features.filter]:
    [f.properties && f.properties.browse && f.properties.browse.length > 0]. *)
Definition has_preview (f : value) : exc bool :=
  properties <- get f "properties" ;;
  if truthy properties then
    browse <- get properties "browse" ;;
    if truthy browse then
      len <- get browse "length" ;;
      js_gt len (Fin 0)
    else Ok false
  else Ok false.

(** The comparator of [sort]:
    [new Date(b.properties.startTime) - new Date(a.properties.startTime)].
    Time values are integers, so the sign of the difference of two valid dates
    is the sign of the integer difference; [None] is [NaN]. *)
Definition compareFn (a b : value) : exc (option Z) :=
  pb <- get b "properties" ;;
  sb <- get pb "startTime" ;;
  db <- Date_new sb ;;
  pa <- get a "properties" ;;
  sa <- get pa "startTime" ;;
  da <- Date_new sa ;;
  Ok (match db, da with
      | Some tb, Some ta => Some (tb - ta)%Z
      | _, _ => None
      end).

(** [features.filter(...).sort(...)] *)
Definition sortedFeatures (features : value) : exc (list value) :=
  fs <- as_array features ;;
  kept <- filterM has_preview fs ;;
  Array_sort compareFn kept.

(** [imageColors.slice(0,5)] inside the logging call: a [TypeError] unless the
    value has a [slice] method. *)
Definition slice_check (v : value) : exc unit :=
  match v with
  | Arr _ | Str _ => Ok tt
  | _ => Throw
  end.

(** The URLs of the two vision calls. *)
Definition imaggaColorsUrl (imageUrl : value) : exc string :=
  encoded <- encodeURIComponent imageUrl ;;
  Ok ("https://api.imagga.com/v2/colors?image_url=" ++ encoded).

Definition imaggaApiUrl (imageUrl : value) : exc string :=
  encoded <- encodeURIComponent imageUrl ;;
  Ok ("https://api.imagga.com/v2/tags?image_url=" ++ encoded).

(** The body of the first inner [try]: the URL, the colors call and the
    extraction of [data.result.colors.image_colors]. *)
Definition imageColors_try (imageUrl : value) (key secret : string) : M value :=
  _ <- lift (imaggaColorsUrl imageUrl) ;;
  data <- axios (GetColors imageUrl key secret) ;;
  found <- lift (and_then data (fun d =>
             result <- get d "result" ;;
             and_then result (fun r =>
               colors <- get r "colors" ;;
               and_then colors (fun c => get c "image_colors")))) ;;
  let imageColors := if truthy found then found else Arr [] in
  _ <- lift (slice_check imageColors) ;;
  ret imageColors.

Definition imageColors (imageUrl : value) (key secret : string) : M value :=
  try_catch (imageColors_try imageUrl key secret) (ret (Arr [])).

(** [t => t.confidence > 15] *)
Definition confident (t : value) : exc bool :=
  confidence <- get t "confidence" ;;
  js_gt confidence (Fin (inject_Z 15)).

(** [t => t.tag.en] *)
Definition tag_en (t : value) : exc value :=
  tag <- get t "tag" ;;
  get tag "en".

(** [tags.filter(t => t.confidence > 15).slice(0,5).map(t => t.tag.en)] *)
Definition retained_tags (tags : value) : exc (list value) :=
  ts <- as_array tags ;;
  kept <- filterM confident ts ;;
  mapM tag_en (firstn 5 kept).

(** [data && data.result && data.result.tags ? ... : []] *)
Definition imageTags_of (data : value) : exc (list value) :=
  found <- and_then data (fun d =>
             result <- get d "result" ;;
             and_then result (fun r => get r "tags")) ;;
  if truthy found then retained_tags found else Ok [].

Definition imageTags (imageUrl : value) (key secret : string) : M (list value) :=
  try_catch
    (_ <- lift (imaggaApiUrl imageUrl) ;;
     data <- axios (GetTags imageUrl key secret) ;;
     lift (imageTags_of data))
    (ret []).

Definition metadataForAI (properties latitude longitude : value) : exc value :=
  sceneName <- get properties "sceneName" ;;
  platform <- get properties "platform" ;;
  startTime <- get properties "startTime" ;;
  flightDirection <- get properties "flightDirection" ;;
  polarization <- get properties "polarization" ;;
  beamModeType <- get properties "beamModeType" ;;
  orbit <- get properties "orbit" ;;
  Ok (Obj [("sceneName", sceneName);
           ("platform", platform);
           ("captureDate", startTime);
           ("flightDirection", flightDirection);
           ("polarization", polarization);
           ("beamMode", beamModeType);
           ("orbit", orbit);
           ("coordinates", Obj [("latitude", latitude); ("longitude", longitude)])]).

(** [(c.percent || 0).toFixed(1)]: only a number has [toFixed]. *)
Definition percent_text (c : value) : exc string :=
  percent <- get c "percent" ;;
  match (if truthy percent then percent else Num (Fin 0)) with
  | Num n => Ok (toFixed1 n)
  | _ => Throw
  end.

(** The callback of [imageColors.map]: a template literal, which converts the
    name to a string. *)
Definition color_line (c : value) : exc string :=
  color_name <- get c "color_name" ;;
  name <- or_else color_name (
            closest <- get c "closest_palette_color" ;;
            or_else closest (
              html_code <- get c "html_code" ;;
              or_else html_code (Ok (Str "unknown")))) ;;
  label <- to_string name ;;
  pct <- percent_text c ;;
  Ok (label ++ ": " ++ pct ++ "%").

Definition colorText (imageColors : value) : exc string :=
  len <- get imageColors "length" ;;
  if truthy len then
    cs <- as_array imageColors ;;
    lines <- mapM color_line cs ;;
    Ok (join ", " lines)
  else Ok "No color data available".

(** [imageTags.length ? imageTags.join(', ') : 'None'] *)
Definition tagsText (imageTags : list value) : exc string :=
  match imageTags with
  | [] => Ok "None"
  | _ =>
      parts <- mapM element_string imageTags ;;
      Ok (join ", " parts)
  end.

(** The template literal, before [trim]. *)
Definition prompt_template (colorText tagsText metadata : string) : string :=
  prompt_intro ++ colorText ++ prompt_tags_label ++ tagsText ++ prompt_chart
  ++ metadata ++ prompt_end.

(** The prompt as a function of the colors, the tags and the metadata. *)
Definition prompt (imageColors : value) (imageTags : list value)
    (metadata : value) : exc string :=
  text <- colorText imageColors ;;
  tags <- tagsText imageTags ;;
  Ok (trim (prompt_template text tags (JSON_stringify metadata))).

Definition service_error : string :=
  "AI interpretation unavailable due to service error.".

(** [data && data.choices && data.choices[0]
     && (data.choices[0].message?.content || data.choices[0].text) || ''] *)
Definition explanation_of (data : value) : exc value :=
  found <- and_then data (fun d =>
             choices <- get d "choices" ;;
             and_then choices (fun cs =>
               first <- get0 cs ;;
               and_then first (fun choice =>
                 message <- get choice "message" ;;
                 content <- (if nullish message then Ok Undefined
                             else get message "content") ;;
                 or_else content (get choice "text")))) ;;
  or_else found (Ok (Str "")).

Definition explanation (prompt : string) (bearer : option string) : M value :=
  try_catch
    (data <- axios (PostLLM prompt bearer) ;;
     text <- lift (explanation_of data) ;;
     _ <- lift (get text "length") ;;
     ret text)
    (ret (Str service_error)).

(** The text of the log line that follows the selection. *)
Definition found_log (imageUrl : value) : exc string :=
  url <- to_string imageUrl ;;
  Ok ("[LOG] Found latest image URL: " ++ url).

(** The handler from the selected feature on (lines 58 to 178). *)
Definition interpret (env : Env) (key secret : string)
    (latitude longitude latestFeature : value) : M response :=
  properties <- lift (get latestFeature "properties") ;;
  browse <- lift (get properties "browse") ;;
  imageUrl <- lift (get0 browse) ;;
  _ <- lift (found_log imageUrl) ;;
  colors <- imageColors imageUrl key secret ;;
  tags <- imageTags imageUrl key secret ;;
  metadata <- lift (metadataForAI properties latitude longitude) ;;
  text <- lift (prompt colors tags metadata) ;;
  answer <- explanation text (OPEN_ROUTER_API env) ;;
  sceneName <- lift (get properties "sceneName") ;;
  ret (json (Obj [("imageUrl", imageUrl);
                  ("explanation", answer);
                  ("sceneName", sceneName);
                  ("imageTags", Arr tags);
                  ("imageColors", colors);
                  ("metadata", metadata)])).

(** The body of the outer [try] (lines 43 to 178). *)
Definition lookup_image (env : Env) (key secret : string)
    (latitude longitude : value) : M response :=
  data <- axios (GetCatalog longitude latitude) ;;
  features <- lift (get data "features") ;;
  if negb (truthy features) then
    ret (status_json 404 (error_body "No SAR data found for this location."))
  else
    len <- lift (get features "length") ;;
    if strict_eq_zero len then
      ret (status_json 404 (error_body "No SAR data found for this location."))
    else
      sorted <- lift (sortedFeatures features) ;;
      match sorted with
      | [] =>
          ret (status_json 404
                 (error_body "SAR data found, but no preview images are available."))
      | latestFeature :: _ =>
          interpret env key secret latitude longitude latestFeature
      end.

(** The text of the first log line, written before the validation. *)
Definition received_log (latitude longitude : value) : exc string :=
  lat <- to_string latitude ;;
  lon <- to_string longitude ;;
  Ok ("[LOG] Received coordinates: Lat=" ++ lat ++ ", Lon=" ++ lon).

(** The URL of the catalog query. *)
Definition asfApiUrl (latitude longitude : value) : exc string :=
  lon <- to_string longitude ;;
  lat <- to_string latitude ;;
  Ok ("https://api.daac.asf.alaska.edu/services/search/param?intersectsWith=POINT("
      ++ lon ++ "+" ++ lat ++ ")&dataset=SENTINEL-1&maxResults=250&output=geojson").

(** The route handler, on what [express.json()] leaves in [req.body].
    [Throw] is a rejection of the handler's promise before any response is
    sent: the destructuring of a body that is [undefined] or [null], or the
    first log line on a coordinate that cannot be converted to a string. *)
Definition handler (env : Env) (req_body : value) : M response :=
  latitude <- lift (get req_body "latitude") ;;
  longitude <- lift (get req_body "longitude") ;;
  _ <- lift (received_log latitude longitude) ;;
  if is_undefined latitude || is_undefined longitude then
    ret (status_json 400 (error_body "Latitude and Longitude are required."))
  else if env_missing (IMAGGA_API_KEY env) || env_missing (IMAGGA_API_SECRET env) then
    ret (status_json 500
           (error_body "Server configuration error: Imagga credentials missing."))
  else
    _ <- lift (asfApiUrl latitude longitude) ;;
    try_catch
      (lookup_image env (env_string (IMAGGA_API_KEY env))
         (env_string (IMAGGA_API_SECRET env)) latitude longitude)
      (ret (status_json 500 (error_body "Failed to process SAR data."))).

End Handler.

(** ** Notions used to state the properties *)

Section Notions.
Context {RT : Runtime}.

(** [v?.k]: the property, [undefined] when [v] is [undefined] or [null]. *)
Definition field (v : value) (k : string) : value :=
  match get v k with
  | Ok x => x
  | Throw => Undefined
  end.

(** [v?.[0]] *)
Definition field0 (v : value) : value :=
  match get0 v with
  | Ok x => x
  | Throw => Undefined
  end.

Definition browse_of (f : value) : value := field (field f "properties") "browse".

(** The feature carries a list of previews with at least one element. *)
Definition has_browse_list (f : value) : bool :=
  match browse_of f with
  | Arr (_ :: _) => true
  | _ => false
  end.

(** A catalog feature as the data model has it: an object whose [browse], when
    present, is a list. *)
Definition feature_typed (f : value) : bool :=
  negb (nullish f)
  && match browse_of f with
     | Undefined | Null | Arr _ => true
     | _ => false
     end.

(** The value can be converted to a string: it is not an object with a
    [toString] property of its own, nor an array that holds one. *)
Definition printable (v : value) : bool :=
  match to_string v with
  | Ok _ => true
  | Throw => false
  end.

(** The text of a printable value. *)
Definition text_of (v : value) : string :=
  match to_string v with
  | Ok s => s
  | Throw => ""
  end.

(** The value can be made part of a URL: it is printable and its text has no
    lone surrogate. *)
Definition encodable (v : value) : bool :=
  match encodeURIComponent v with
  | Ok _ => true
  | Throw => false
  end.

Definition start_time (f : value) : value := field (field f "properties") "startTime".

(** The capture time of a feature, in milliseconds, when its start time is a
    valid date. *)
Definition capture_time (f : value) : option Z :=
  match Date_new (start_time f) with
  | Ok t => t
  | Throw => None
  end.

(** [a] was captured strictly before [b] / not after [b]. *)
Definition earlier (a b : value) : Prop :=
  exists ta tb, capture_time a = Some ta /\ capture_time b = Some tb /\ (ta < tb)%Z.

Definition not_later (a b : value) : Prop :=
  exists ta tb, capture_time a = Some ta /\ capture_time b = Some tb /\ (ta <= tb)%Z.

(** A tag as the data model has it: an object with a [tag] object and a
    confidence that can be converted to a number, as a number can. *)
Definition tag_typed (t : value) : bool :=
  negb (nullish t)
  && negb (nullish (field t "tag"))
  && printable (field t "confidence").

(** The comparison [t.confidence > 15] holds. *)
Definition over_15 (t : value) : bool :=
  match js_gt (field t "confidence") (Fin (inject_Z 15)) with
  | Ok b => b
  | Throw => false
  end.

Definition english_label (t : value) : value := field (field t "tag") "en".

(** Some level of [data.result.colors.image_colors] is absent (or falsy). *)
Definition colors_nesting_absent (data : value) : bool :=
  negb (truthy data)
  || negb (truthy (field data "result"))
  || negb (truthy (field (field data "result") "colors"))
  || negb (truthy (field (field (field data "result") "colors") "image_colors")).

Definition first_choice (data : value) : value := field0 (field data "choices").

Definition message_content (choice : value) : value :=
  field (field choice "message") "content".

Definition legacy_text (choice : value) : value := field choice "text".

(** The answers of the route. *)
Definition validation_error : response :=
  status_json 400 (error_body "Latitude and Longitude are required.").

Definition config_error : response :=
  status_json 500 (error_body "Server configuration error: Imagga credentials missing.").

Definition no_data : response :=
  status_json 404 (error_body "No SAR data found for this location.").

Definition no_previews : response :=
  status_json 404 (error_body "SAR data found, but no preview images are available.").

Definition processing_error : response :=
  status_json 500 (error_body "Failed to process SAR data.").

Definition success (imageUrl explanation sceneName : value) (imageTags : list value)
    (imageColors metadata : value) : response :=
  json (Obj [("imageUrl", imageUrl);
             ("explanation", explanation);
             ("sceneName", sceneName);
             ("imageTags", Arr imageTags);
             ("imageColors", imageColors);
             ("metadata", metadata)]).

(** The metadata bundle of a feature's properties. *)
Definition metadata_of (properties latitude longitude : value) : value :=
  Obj [("sceneName", field properties "sceneName");
       ("platform", field properties "platform");
       ("captureDate", field properties "startTime");
       ("flightDirection", field properties "flightDirection");
       ("polarization", field properties "polarization");
       ("beamMode", field properties "beamModeType");
       ("orbit", field properties "orbit");
       ("coordinates", Obj [("latitude", latitude); ("longitude", longitude)])].

(** The feature has a [properties] value that can be read from. *)
Definition propertied (f : value) : Prop :=
  exists p, get f "properties" = Ok p /\ nullish p = false.

(** [f] is the latest of [l], and the first of the latest ones: everything
    before it in [l] was captured strictly earlier, nothing after it was
    captured later. *)
Definition latest_of (l : list value) (f : value) : Prop :=
  exists before after,
    l = (before ++ f :: after)%list
    /\ (forall g, In g before -> earlier g f)
    /\ (forall g, In g after -> not_later g f).

(** The feature was captured at time [t]. *)
Definition captured_at (t : Z) (f : value) : bool :=
  match capture_time f with
  | Some t' => Z.eqb t' t
  | None => false
  end.

(** The rank by which the comparator orders features with valid times: the
    later the capture, the lower the rank. *)
Definition recency (f : value) : Z :=
  match capture_time f with
  | Some t => (- t)%Z
  | None => 0%Z
  end.

(** [s] is [l] in the order that a stable sort returns for the comparator of
    the handler on valid dates: a permutation of [l], latest first, features
    of equal time in the order they have in [l]. *)
Definition sorted_latest_first (l s : list value) : Prop :=
  Permutation l s
  /\ StronglySorted (fun a b => not_later b a) s
  /\ forall t, filter (captured_at t) s = filter (captured_at t) l.

(** What the three absorbing stages leave behind: the stage run on its own.
    None of them throws, so the second branch is never taken. *)
Definition colors_of (w : world) (imageUrl : value) (key secret : string) : value :=
  match fst (imageColors imageUrl key secret w []) with
  | Ok cs => cs
  | Throw => Arr []
  end.

Definition tags_of (w : world) (imageUrl : value) (key secret : string) : list value :=
  match fst (imageTags imageUrl key secret w []) with
  | Ok ts => ts
  | Throw => []
  end.

Definition answer_of (w : world) (prompt : string) (bearer : option string) : value :=
  match fst (explanation prompt bearer w []) with
  | Ok text => text
  | Throw => Str service_error
  end.

(** The request carries both coordinates. *)
Definition has_coordinates (req_body : value) : Prop :=
  field req_body "latitude" <> Undefined /\ field req_body "longitude" <> Undefined.

(** Both coordinates can be converted to a string, as the first log line and
    the URL of the catalog query need them. *)
Definition printable_coordinates (req_body : value) : Prop :=
  printable (field req_body "latitude") = true
  /\ printable (field req_body "longitude") = true.

(** Both vision credentials are set. *)
Definition configured (env : Env) : Prop :=
  env_missing (IMAGGA_API_KEY env) = false
  /\ env_missing (IMAGGA_API_SECRET env) = false.

(** The catalog call of a request. *)
Definition catalog_call (req_body : value) : call :=
  GetCatalog (field req_body "longitude") (field req_body "latitude").

(** The prompts of the language-model calls of a trace. *)
Definition prompts_sent (tr : list call) : list string :=
  flat_map (fun c => match c with PostLLM p _ => [p] | _ => [] end) tr.

(** The calls of the two vision stages: both are made when the image URL can
    be encoded, none when it cannot. *)
Definition vision_calls (imageUrl : value) (key secret : string) : list call :=
  if encodable imageUrl
  then [GetColors imageUrl key secret; GetTags imageUrl key secret]
  else [].

(** The answers of the route and the outbound calls made for each. *)
Inductive handled (env : Env) (req_body : value) (w : world)
    : response -> list call -> Prop :=
| handled_invalid :
    field req_body "latitude" = Undefined \/ field req_body "longitude" = Undefined ->
    handled env req_body w validation_error []
| handled_unconfigured :
    has_coordinates req_body ->
    env_missing (IMAGGA_API_KEY env) = true \/ env_missing (IMAGGA_API_SECRET env) = true ->
    handled env req_body w config_error []
| handled_no_data :
    has_coordinates req_body -> configured env ->
    handled env req_body w no_data [catalog_call req_body]
| handled_no_previews :
    has_coordinates req_body -> configured env ->
    handled env req_body w no_previews [catalog_call req_body]
| handled_catalog_failed :
    has_coordinates req_body -> configured env ->
    handled env req_body w processing_error [catalog_call req_body]
| handled_rendering_failed (imageUrl : value) :
    has_coordinates req_body -> configured env ->
    printable imageUrl = true ->
    handled env req_body w processing_error
      (catalog_call req_body
       :: vision_calls imageUrl (env_string (IMAGGA_API_KEY env))
            (env_string (IMAGGA_API_SECRET env)))
| handled_success (imageUrl properties : value) (p : string) :
    has_coordinates req_body -> configured env ->
    printable imageUrl = true ->
    let key := env_string (IMAGGA_API_KEY env) in
    let secret := env_string (IMAGGA_API_SECRET env) in
    let cs := colors_of w imageUrl key secret in
    let tags := tags_of w imageUrl key secret in
    let md := metadata_of properties (field req_body "latitude")
                (field req_body "longitude") in
    prompt cs tags md = Ok p ->
    handled env req_body w
      (success imageUrl (answer_of w p (OPEN_ROUTER_API env))
         (field properties "sceneName") tags cs md)
      (catalog_call req_body
       :: vision_calls imageUrl key secret ++ [PostLLM p (OPEN_ROUTER_API env)])%list.

(** Some level of [data.result.tags] is absent (or falsy). *)
Definition tags_nesting_absent (data : value) : bool :=
  negb (truthy data)
  || negb (truthy (field data "result"))
  || negb (truthy (field (field data "result") "tags")).

(** The value at [data.result.colors.image_colors]. *)
Definition image_colors_of (data : value) : value :=
  field (field (field data "result") "colors") "image_colors".

(** The name a color entry is rendered with. *)
Definition color_label (c : value) : value :=
  if truthy (field c "color_name") then field c "color_name"
  else if truthy (field c "closest_palette_color") then field c "closest_palette_color"
  else if truthy (field c "html_code") then field c "html_code"
  else Str "unknown".

(** A color entry that the rendering accepts: not [undefined] or [null], with
    a name that can be converted to a string and a [percent] that is falsy or
    a number. *)
Definition renderable (c : value) : bool :=
  negb (nullish c)
  && printable (color_label c)
  && (negb (truthy (field c "percent"))
      || match field c "percent" with
         | Num _ => true
         | _ => false
         end).

(** The percentage a color entry is rendered with: zero when it has none. *)
Definition color_percent (c : value) : number :=
  match field c "percent" with
  | Num n => if truthy (Num n) then n else Fin 0
  | _ => Fin 0
  end.

Definition color_line_text (c : value) : string :=
  text_of (color_label c) ++ ": " ++ toFixed1 (color_percent c) ++ "%".

(** The elements of an array value. *)
Definition elements (v : value) : list value :=
  match v with
  | Arr xs => xs
  | _ => []
  end.

End Notions.

(** The timestamp of a health answer, in milliseconds. *)
Definition timestamp_ms (r : response) : option Z :=
  match timestamp_of r with
  | Num (Fin q) => Some (Qnum q)
  | _ => None
  end.

Fixpoint strictly_increasing (ts : list (option Z)) : Prop :=
  match ts with
  | Some a :: ((Some b :: _) as rest) => (a < b)%Z /\ strictly_increasing rest
  | [_] | [] => True
  | _ => False
  end.

(** ** A sample runtime and sample data

    The examples run the handler on concrete data.  The sample runtime agrees
    with JavaScript on what the examples use: decimal integers, [toFixed(1)]
    below 1e21, ISO 8601 timestamps in UTC and the pretty-printing of JSON data
    without control characters.  Its sort is the stable insertion sort. *)

Module Sample.

Definition quote_char : string := String (ascii_of_nat 34) "".

Definition decimal (z : Z) : string := NilZero.string_of_int (Z.to_int z).

Definition string_to_number (s : string) : number :=
  if s =? "" then Fin 0
  else match NilZero.int_of_string s with
       | Some i => Fin (inject_Z (Z.of_int i))
       | None => NaN
       end.

(** The digits of [round(|q| * 10)], with the point before the last one. *)
Definition fixed1 (q : Q) : string :=
  let den := Z.pos (Qden q) in
  let tenths := ((2 * 10 * Z.abs (Qnum q) + den) / (2 * den))%Z in
  (if (Qnum q <? 0)%Z then "-" else "")
  ++ decimal (tenths / 10) ++ "." ++ decimal (tenths mod 10).

Definition to_fixed1 (n : number) : string :=
  match n with
  | NaN => "NaN"
  | PosInf => "Infinity"
  | NegInf => "-Infinity"
  | Fin q => fixed1 q
  end.

Definition number_to_string (n : number) : string :=
  match n with
  | Fin q => if (Z.pos (Qden q) =? 1)%Z then decimal (Qnum q) else fixed1 q
  | _ => to_fixed1 n
  end.

(** Days from 1970-01-01 to the given civil date. *)
Definition days_from_civil (y m d : Z) : Z :=
  let y' := if (m <=? 2)%Z then (y - 1)%Z else y in
  let era := (y' / 400)%Z in
  let yoe := (y' - era * 400)%Z in
  let mp := if (2 <? m)%Z then (m - 3)%Z else (m + 9)%Z in
  let doy := ((153 * mp + 2) / 5 + d - 1)%Z in
  let doe := (yoe * 365 + yoe / 4 - yoe / 100 + doy)%Z in
  (era * 146097 + doe - 719468)%Z.

Definition digits_at (s : string) (start len : nat) : option Z :=
  match NilZero.uint_of_string (substring start len s) with
  | Some u => Some (Z.of_uint u)
  | None => None
  end.

(** [YYYY-MM-DDTHH:MM:SSZ] *)
Definition date_parse (s : string) : option Z :=
  if negb (Nat.eqb (String.length s) 20) then None
  else if negb ((substring 4 1 s =? "-") && (substring 7 1 s =? "-")
                && (substring 10 1 s =? "T") && (substring 13 1 s =? ":")
                && (substring 16 1 s =? ":") && (substring 19 1 s =? "Z"))
  then None
  else
    match digits_at s 0 4, digits_at s 5 2, digits_at s 8 2,
          digits_at s 11 2, digits_at s 14 2, digits_at s 17 2 with
    | Some y, Some m, Some d, Some hh, Some mm, Some ss =>
        Some ((((days_from_civil y m d * 24 + hh) * 60 + mm) * 60 + ss) * 1000)%Z
    | _, _, _, _, _, _ => None
    end.

Definition quote (s : string) : string := quote_char ++ s ++ quote_char.

(** [JSON.stringify(v, null, 2)] at the given indentation; [None] is
    [undefined], which is dropped from objects and printed as [null] in
    arrays. *)
Fixpoint stringify (indent : string) (v : value) : option string :=
  let inner := indent ++ "  " in
  match v with
  | Undefined => None
  | Null => Some "null"
  | Bool true => Some "true"
  | Bool false => Some "false"
  | Num (Fin q) => Some (number_to_string (Fin q))
  | Num _ => Some "null"
  | Str s => Some (quote s)
  | Arr [] => Some "[]"
  | Arr xs =>
      Some ("[" ++ newline
            ++ join ("," ++ newline)
                 (map (fun x => inner ++ match stringify inner x with
                                         | Some t => t
                                         | None => "null"
                                         end) xs)
            ++ newline ++ indent ++ "]")
  | Obj fields =>
      match flat_map (fun kv => match stringify inner (snd kv) with
                                | Some t => [inner ++ quote (fst kv) ++ ": " ++ t]
                                | None => []
                                end) fields with
      | [] => Some "{}"
      | props =>
          Some ("{" ++ newline ++ join ("," ++ newline) props
                ++ newline ++ indent ++ "}")
      end
  end.

Definition json_stringify (v : value) : string :=
  match stringify "" v with
  | Some t => t
  | None => "undefined"
  end.

(** A comparator result greater than zero puts [b] before [a]; [NaN] counts
    as zero. *)
Definition is_positive (c : option Z) : bool :=
  match c with
  | Some d => (0 <? d)%Z
  | None => false
  end.

Fixpoint insertM (cmp : value -> value -> exc (option Z)) (a : value)
    (sorted : list value) : exc (list value) :=
  match sorted with
  | [] => Ok [a]
  | b :: rest =>
      c <- cmp a b ;;
      if is_positive c then
        rest' <- insertM cmp a rest ;;
        Ok (b :: rest')
      else Ok (a :: sorted)
  end.

Fixpoint sortM (cmp : value -> value -> exc (option Z)) (xs : list value)
    : exc (list value) :=
  match xs with
  | [] => Ok []
  | a :: rest =>
      sorted <- sortM cmp rest ;;
      insertM cmp a sorted
  end.

Lemma insertM_permutes (cmp : value -> value -> exc (option Z)) (a : value)
    (l r : list value) :
  insertM cmp a l = Ok r -> Permutation (a :: l) r.
Proof.
  revert r. induction l as [|b l IH]; simpl; intros r H.
  - inversion H. apply Permutation_refl.
  - destruct (cmp a b) as [c|]; simpl in H; [|discriminate].
    destruct (is_positive c).
    + destruct (insertM cmp a l) as [r'|]; simpl in H; [|discriminate].
      inversion H; subst r.
      apply perm_trans with (b :: a :: l); [apply perm_swap |].
      apply perm_skip. now apply IH.
    + inversion H. apply Permutation_refl.
Qed.

Lemma sortM_permutes (cmp : value -> value -> exc (option Z)) (l s : list value) :
  sortM cmp l = Ok s -> Permutation l s.
Proof.
  revert s. induction l as [|a l IH]; simpl; intros s H.
  - inversion H. constructor.
  - destruct (sortM cmp l) as [s0|]; simpl in H; [|discriminate].
    apply perm_trans with (a :: s0); [apply perm_skip; now apply IH |].
    now apply insertM_permutes with cmp.
Qed.

Lemma insertM_returns (cmp : value -> value -> exc (option Z)) (a : value)
    (l : list value) :
  (forall b, In b l -> cmp a b <> Throw) -> insertM cmp a l <> Throw.
Proof.
  induction l as [|b l IH]; simpl; intros H; [discriminate |].
  destruct (cmp a b) as [c|] eqn:E; [|now destruct (H b (or_introl eq_refl))].
  simpl. destruct (is_positive c); [|discriminate].
  destruct (insertM cmp a l) as [r|]; simpl; [discriminate |].
  exfalso. apply IH; [|reflexivity]. intros x Hx. apply H. now right.
Qed.

Lemma sortM_returns (cmp : value -> value -> exc (option Z)) (l : list value) :
  (forall a b, In a l -> In b l -> cmp a b <> Throw) -> sortM cmp l <> Throw.
Proof.
  induction l as [|a l IH]; simpl; intros H; [discriminate |].
  destruct (sortM cmp l) as [s0|] eqn:E; simpl.
  - apply insertM_returns. intros b Hb. apply H; [now left | right].
    apply Permutation_in with s0; [apply Permutation_sym; now apply sortM_permutes with cmp |].
    assumption.
  - exfalso. apply IH; [|reflexivity]. intros x y Hx Hy. apply H; now right.
Qed.

(** Insertion keeps the list ordered by rank, and keeps the elements of each
    rank in their order. *)
Lemma insertM_stable (cmp : value -> value -> exc (option Z)) (rank : value -> Z)
    (a : value) (l r : list value) :
  (forall b, In b l -> cmp a b = Ok (Some (rank a - rank b)%Z)) ->
  StronglySorted (fun x y => (rank x <= rank y)%Z) l ->
  insertM cmp a l = Ok r ->
  StronglySorted (fun x y => (rank x <= rank y)%Z) r
  /\ forall t, filter (fun x => (rank x =? t)%Z) r
               = filter (fun x => (rank x =? t)%Z) (a :: l).
Proof.
  revert r. induction l as [|b l IH]; intros r Hcmp Hsorted Hr; simpl in Hr.
  - inversion Hr; subst r. split; [|reflexivity]. constructor; constructor.
  - rewrite (Hcmp b (or_introl eq_refl)) in Hr. simpl in Hr.
    inversion Hsorted as [|? ? Sl Hb]; subst.
    destruct (0 <? rank a - rank b)%Z eqn:Hpos.
    + apply Z.ltb_lt in Hpos.
      destruct (insertM cmp a l) as [r'|] eqn:Hins; simpl in Hr; [|discriminate].
      inversion Hr; subst r. clear Hr.
      destruct (IH r' (fun x Hx => Hcmp x (or_intror Hx)) Sl eq_refl) as [Sr' Fr'].
      split.
      * constructor; [exact Sr' |].
        apply Forall_forall. intros x Hx.
        apply Permutation_in with (l' := a :: l) in Hx;
          [|apply Permutation_sym; now apply insertM_permutes with cmp].
        destruct Hx as [<- | Hx]; [lia |].
        rewrite Forall_forall in Hb. now apply Hb.
      * intros t. simpl. rewrite Fr'. simpl.
        destruct (Z.eqb_spec (rank b) t), (Z.eqb_spec (rank a) t); try reflexivity. lia.
    + apply Z.ltb_ge in Hpos. inversion Hr; subst r. split; [|reflexivity].
      constructor; [exact Hsorted |].
      constructor; [lia |].
      rewrite Forall_forall in Hb |- *. intros x Hx. specialize (Hb x Hx). lia.
Qed.

Lemma sortM_stable (cmp : value -> value -> exc (option Z)) (rank : value -> Z)
    (l s : list value) :
  (forall a b, In a l -> In b l -> cmp a b = Ok (Some (rank a - rank b)%Z)) ->
  sortM cmp l = Ok s ->
  StronglySorted (fun x y => (rank x <= rank y)%Z) s
  /\ forall t, filter (fun x => (rank x =? t)%Z) s = filter (fun x => (rank x =? t)%Z) l.
Proof.
  revert s. induction l as [|a l IH]; intros s Hcmp Hs; simpl in Hs.
  - inversion Hs; subst s. split; [constructor | reflexivity].
  - destruct (sortM cmp l) as [s0|] eqn:Hs0; simpl in Hs; [|discriminate].
    destruct (IH s0 (fun x y Hx Hy => Hcmp x y (or_intror Hx) (or_intror Hy)) eq_refl)
      as [S0 F0].
    destruct (insertM_stable cmp rank a s0 s) as [Ss Fs]; try assumption.
    + intros b Hb. apply Hcmp; [now left | right].
      apply Permutation_in with s0; [|assumption].
      apply Permutation_sym. now apply sortM_permutes with cmp.
    + split; [exact Ss |]. intros t. rewrite Fs. simpl. now rewrite F0.
Qed.

#[global] Instance runtime : Runtime := {
  StringToNumber := string_to_number;
  NumberToString := number_to_string;
  toFixed1 := to_fixed1;
  JSON_stringify := json_stringify;
  Date_parse := date_parse;
  Array_sort := sortM;
  Array_sort_permutes := sortM_permutes;
  Array_sort_returns := sortM_returns;
  Array_sort_stable := fun cmp rank l s _ => sortM_stable cmp rank l s
}.

Definition num (z : Z) : value := Num (Fin (inject_Z z)).

Definition env : Env := {|
  IMAGGA_API_KEY := Some "key";
  IMAGGA_API_SECRET := Some "secret";
  OPEN_ROUTER_API := Some "token"
|}.


(** Only the key of the language-model provider is unset. *)
Definition env_no_llm : Env := {|
  IMAGGA_API_KEY := Some "key";
  IMAGGA_API_SECRET := Some "secret";
  OPEN_ROUTER_API := None
|}.

Definition request : value := Obj [("latitude", num 61); ("longitude", num (-149))].

Definition feature (scene start : string) (browse : value) : value :=
  Obj [("type", Str "Feature");
       ("properties",
        Obj [("sceneName", Str scene);
             ("platform", Str "Sentinel-1A");
             ("startTime", Str start);
             ("flightDirection", Str "ASCENDING");
             ("polarization", Str "VV+VH");
             ("beamModeType", Str "IW");
             ("orbit", num 52000);
             ("browse", browse)])].

Definition scene_a : value :=
  feature "S1A_A" "2024-01-05T03:10:00Z" (Arr [Str "https://img/a.jpg"]).
Definition scene_b : value :=
  feature "S1A_B" "2024-03-09T03:10:00Z" (Arr [Str "https://img/b.jpg"; Str "https://img/b2.jpg"]).
Definition scene_c : value :=
  feature "S1A_C" "2024-03-09T03:10:00Z" (Arr [Str "https://img/c.jpg"]).
Definition scene_d : value :=
  feature "S1A_D" "2024-06-01T00:00:00Z" (Arr []).
Definition scene_e : value :=
  Obj [("type", Str "Feature")].

Definition features : list value := [scene_a; scene_d; scene_b; scene_e; scene_c].

Definition catalog_data : value :=
  Obj [("type", Str "FeatureCollection"); ("features", Arr features)].

Definition tag (label : string) (confidence : Z) : value :=
  Obj [("confidence", num confidence); ("tag", Obj [("en", Str label)])].

Definition tags : list value :=
  [tag "water" 10; tag "ice" 16; tag "coast" 50; tag "city" 20;
   tag "port" 99; tag "snow" 15; tag "river" 30; tag "road" 40].

Definition tags_data : value := Obj [("result", Obj [("tags", Arr tags)])].

Definition color (name : string) (tenths : Z) : value :=
  Obj [("color_name", Str name); ("percent", Num (Fin (tenths # 10)))].

Definition colors_data : value :=
  Obj [("result",
        Obj [("colors",
              Obj [("image_colors", Arr [color "black" 623; color "grey" 377])])])].

Definition llm_data : value :=
  Obj [("choices",
        Arr [Obj [("message", Obj [("role", Str "assistant");
                                   ("content", Str "Mostly calm water.")])]])].

(** A text that is one lone surrogate (U+D800). *)
Definition lone_surrogate_text : string :=
  String (ascii_of_N 237) (String (ascii_of_N 160) (String (ascii_of_N 128) "")).

(** The image of the latest scene with a preview. *)
Definition image_url : value := Str "https://img/b.jpg".

(** The prompt built for the sample request in a given world. *)
Definition prompt_text (w : world) : string :=
  match prompt (colors_of w image_url "key" "secret")
          (tags_of w image_url "key" "secret")
          (metadata_of (field scene_b "properties")
             (field request "latitude") (field request "longitude")) with
  | Ok p => p
  | Throw => ""
  end.

(** Every service answers. *)
Definition world_ok : world := fun c =>
  match c with
  | GetCatalog _ _ => Ok catalog_data
  | GetColors _ _ _ => Ok colors_data
  | GetTags _ _ _ => Ok tags_data
  | PostLLM _ _ => Ok llm_data
  end.

(** The colors call fails. *)
Definition world_no_colors : world := fun c =>
  match c with
  | GetColors _ _ _ => Throw
  | _ => world_ok c
  end.

(** The call to the language model fails. *)
Definition world_no_llm : world := fun c =>
  match c with
  | PostLLM _ _ => Throw
  | _ => world_ok c
  end.

(** The catalog cannot be reached. *)
Definition world_catalog_down : world := fun c =>
  match c with
  | GetCatalog _ _ => Throw
  | _ => world_ok c
  end.

(** The tags call fails. *)
Definition world_no_tags : world := fun c =>
  match c with
  | GetTags _ _ _ => Throw
  | _ => world_ok c
  end.

(** The colors service answers with a percentage that is a string. *)
Definition bad_colors_data : value :=
  Obj [("result",
        Obj [("colors",
              Obj [("image_colors",
                    Arr [color "black" 623;
                         Obj [("color_name", Str "grey"); ("percent", Str "37.7")]])])])].

Definition world_bad_color : world := fun c =>
  match c with
  | GetColors _ _ _ => Ok bad_colors_data
  | _ => world_ok c
  end.

(** The catalog has one scene, with the given previews. *)
Definition world_browse (browse : value) : world := fun c =>
  match c with
  | GetCatalog _ _ =>
      Ok (Obj [("features", Arr [feature "S1A_A" "2024-01-05T03:10:00Z" browse])])
  | _ => world_ok c
  end.

(** The catalog has nothing for the location. *)
Definition world_empty : world := fun c =>
  match c with
  | GetCatalog _ _ => Ok (Obj [("features", Arr [])])
  | _ => world_ok c
  end.

(** The catalog has features, none with a preview. *)
Definition world_no_previews : world := fun c =>
  match c with
  | GetCatalog _ _ => Ok (Obj [("features", Arr [scene_d; scene_e])])
  | _ => world_ok c
  end.

End Sample.

(** * Properties *)

(** ** Strings *)

Lemma string_app_assoc (a b c : string) : (a ++ b) ++ c = a ++ (b ++ c).
Proof. induction a as [|x a IH]; simpl; [reflexivity | now rewrite IH]. Qed.

Lemma string_app_nil_r (a : string) : a ++ "" = a.
Proof. induction a as [|x a IH]; simpl; [reflexivity | now rewrite IH]. Qed.

Lemma rev_string_app (a b : string) :
  rev_string (a ++ b) = rev_string b ++ rev_string a.
Proof.
  induction a as [|x a IH]; simpl.
  - now rewrite string_app_nil_r.
  - now rewrite IH, string_app_assoc.
Qed.

Lemma rev_string_involutive (a : string) : rev_string (rev_string a) = a.
Proof.
  induction a as [|x a IH]; simpl; [reflexivity |].
  now rewrite rev_string_app, IH.
Qed.

(** Induction on strings that may step over up to three bytes. *)
Lemma string_ind3 (P : string -> Prop) :
  (forall s,
     (forall a s1, s = String a s1 -> P s1) ->
     (forall a b s2, s = String a (String b s2) -> P s2) ->
     (forall a b c s3, s = String a (String b (String c s3)) -> P s3) ->
     P s) ->
  forall s, P s.
Proof.
  intros step.
  assert (H : forall n s, (String.length s <= n)%nat -> P s).
  { induction n as [|n IH]; intros s Hn; apply step; intros; subst; simpl in Hn;
      try lia; apply IH; lia. }
  intros s. apply (H (String.length s)). lia.
Qed.

Lemma trimStart_clean (s : string) : starts_ws (trimStart s) = false.
Proof.
  induction s as [s IH1 IH2 IH3] using string_ind3.
  destruct s as [|a s1]; [reflexivity |].
  simpl. destruct (ws1 a) eqn:E1; [now apply (IH1 a s1) |].
  destruct s1 as [|b s2]; [simpl; now rewrite E1 |].
  destruct (ws2 a b) eqn:E2; [now apply (IH2 a b s2) |].
  destruct s2 as [|c s3]; [simpl; now rewrite E1, E2 |].
  destruct (ws3 a b c) eqn:E3; [now apply (IH3 a b c s3) |].
  simpl. now rewrite E1, E2, E3.
Qed.

Lemma trimStart_rev_clean (r : string) : starts_ws_rev (trimStart_rev r) = false.
Proof.
  induction r as [r IH1 IH2 IH3] using string_ind3.
  destruct r as [|c r1]; [reflexivity |].
  simpl. destruct (ws1 c) eqn:E1; [now apply (IH1 c r1) |].
  destruct r1 as [|b r2]; [simpl; now rewrite E1 |].
  destruct (ws2 b c) eqn:E2; [now apply (IH2 c b r2) |].
  destruct r2 as [|a r3]; [simpl; now rewrite E1, E2 |].
  destruct (ws3 a b c) eqn:E3; [now apply (IH3 c b a r3) |].
  simpl. now rewrite E1, E2, E3.
Qed.

(** The scan only removes bytes from the head. *)
Lemma trimStart_rev_suffix (r : string) : exists x, r = x ++ trimStart_rev r.
Proof.
  induction r as [r IH1 IH2 IH3] using string_ind3.
  destruct r as [|c r1]; [now exists "" |].
  simpl. destruct (ws1 c) eqn:E1.
  { destruct (IH1 c r1 eq_refl) as [x Hx]. exists (String c x). simpl. now rewrite <- Hx. }
  destruct r1 as [|b r2]; [now exists "" |].
  destruct (ws2 b c) eqn:E2.
  { destruct (IH2 c b r2 eq_refl) as [x Hx]. exists (String c (String b x)).
    simpl. now rewrite <- Hx. }
  destruct r2 as [|a r3]; [now exists "" |].
  destruct (ws3 a b c) eqn:E3.
  { destruct (IH3 c b a r3 eq_refl) as [x Hx]. exists (String c (String b (String a x))).
    simpl. now rewrite <- Hx. }
  now exists "".
Qed.

Lemma trimEnd_prefix (s : string) : exists y, s = trimEnd s ++ y.
Proof.
  unfold trimEnd. destruct (trimStart_rev_suffix (rev_string s)) as [x Hx].
  exists (rev_string x).
  rewrite <- rev_string_app, <- Hx. now rewrite rev_string_involutive.
Qed.

Lemma starts_ws_prefix (p q : string) :
  starts_ws (p ++ q) = false -> starts_ws p = false.
Proof.
  destruct p as [|a [|b [|c p]]]; simpl; try reflexivity; intros H.
  - apply orb_false_iff in H. destruct H as [H _]. now rewrite H.
  - apply orb_false_iff in H. destruct H as [H1 H].
    rewrite H1. simpl. destruct q; simpl in *.
    + rewrite orb_false_r in H. now rewrite H.
    + apply orb_false_iff in H. destruct H as [H _]. now rewrite H.
  - exact H.
Qed.

Lemma trim_no_leading_ws (s : string) : starts_ws (trim s) = false.
Proof.
  unfold trim. destruct (trimEnd_prefix (trimStart s)) as [y Hy].
  apply (starts_ws_prefix _ y). rewrite <- Hy. apply trimStart_clean.
Qed.

Lemma trim_no_trailing_ws (s : string) : ends_ws (trim s) = false.
Proof.
  unfold ends_ws, trim, trimEnd. rewrite rev_string_involutive.
  apply trimStart_rev_clean.
Qed.

Lemma plain_ws1 c : plain c = true -> ws1 c = false.
Proof. unfold plain. intros H. apply andb_true_iff in H. now destruct (ws1 c), H. Qed.

Lemma plain_byte_is c n : plain c = true -> (128 <= n)%N -> byte_is c n = false.
Proof.
  unfold plain, byte_is. intros H Hn. apply andb_true_iff in H. destruct H as [H _].
  apply N.ltb_lt in H. apply N.eqb_neq. lia.
Qed.

Lemma plain_ws2_l c x : plain c = true -> ws2 c x = false.
Proof. intros H. unfold ws2. now rewrite (plain_byte_is c 194 H) by lia. Qed.

Lemma plain_ws2_r c x : plain c = true -> ws2 x c = false.
Proof.
  intros H. unfold ws2. rewrite (plain_byte_is c 160 H) by lia. apply andb_false_r.
Qed.

Lemma plain_ws3_1 c x y : plain c = true -> ws3 c x y = false.
Proof.
  intros H. unfold ws3.
  rewrite (plain_byte_is c 225 H), (plain_byte_is c 226 H), (plain_byte_is c 227 H),
    (plain_byte_is c 239 H) by lia.
  reflexivity.
Qed.

Lemma plain_ws3_2 c x y : plain c = true -> ws3 x c y = false.
Proof.
  intros H. unfold ws3.
  rewrite (plain_byte_is c 154 H), (plain_byte_is c 128 H), (plain_byte_is c 129 H),
    (plain_byte_is c 187 H) by lia.
  now rewrite !andb_false_r.
Qed.

Lemma plain_ws3_3 c x y : plain c = true -> ws3 x y c = false.
Proof.
  intros H. unfold ws3.
  rewrite (plain_byte_is c 128 H), (plain_byte_is c 159 H), (plain_byte_is c 191 H) by lia.
  pose proof H as H'. unfold plain in H'. apply andb_true_iff in H'. destruct H' as [H' _].
  apply N.ltb_lt in H'.
  replace (N.leb 128 (N_of_ascii c)) with false by (symmetry; apply N.leb_gt; lia).
  replace (N.eqb (N_of_ascii c) 168) with false by (symmetry; apply N.eqb_neq; lia).
  replace (N.eqb (N_of_ascii c) 169) with false by (symmetry; apply N.eqb_neq; lia).
  replace (N.eqb (N_of_ascii c) 175) with false by (symmetry; apply N.eqb_neq; lia).
  simpl. now rewrite !andb_false_r.
Qed.

(** The scan from the end never goes past a plain byte. *)
Lemma trimStart_rev_keeps (c : ascii) (r2 : string) :
  plain c = true ->
  forall r1, exists r1', trimStart_rev (r1 ++ String c r2) = r1' ++ String c r2.
Proof.
  intros Hc r1.
  induction r1 as [r1 IH1 IH2 IH3] using string_ind3.
  destruct r1 as [|x r1].
  { exists "". simpl. rewrite (plain_ws1 c Hc).
    destruct r2 as [|b r2]; [reflexivity |].
    rewrite (plain_ws2_r c b Hc).
    destruct r2 as [|a r2]; [reflexivity |].
    now rewrite (plain_ws3_3 c a b Hc). }
  simpl. destruct (ws1 x) eqn:E1; [now apply (IH1 x r1) |].
  destruct r1 as [|y r1].
  { exists (String x ""). simpl. rewrite (plain_ws2_l c x Hc).
    destruct r2 as [|a r2]; [reflexivity |].
    now rewrite (plain_ws3_2 c a x Hc). }
  simpl. destruct (ws2 y x) eqn:E2; [now apply (IH2 x y r1) |].
  destruct r1 as [|z r1].
  { exists (String x (String y "")). simpl. now rewrite (plain_ws3_1 c y x Hc). }
  simpl. destruct (ws3 z y x) eqn:E3; [now apply (IH3 x y z r1) |].
  now exists (String x (String y (String z r1))).
Qed.

Lemma trimEnd_keeps (p q : string) (c : ascii) :
  plain c = true -> exists q', trimEnd (p ++ String c q) = p ++ String c q'.
Proof.
  intros Hc. unfold trimEnd.
  replace (rev_string (p ++ String c q))
    with (rev_string q ++ String c (rev_string p)).
  2:{ rewrite rev_string_app. simpl. now rewrite string_app_assoc. }
  destruct (trimStart_rev_keeps c (rev_string p) Hc (rev_string q)) as [r' Hr].
  rewrite Hr. exists (rev_string r').
  rewrite rev_string_app. simpl.
  now rewrite rev_string_involutive, string_app_assoc.
Qed.

Lemma contains_intro (pre sub post : string) : contains (pre ++ sub ++ post) sub.
Proof. now exists pre, post. Qed.

(** ** Values *)

Lemma truthy_not_nullish (v : value) : truthy v = true -> nullish v = false.
Proof. destruct v; simpl; congruence. Qed.

Lemma get_field (v : value) (k : string) :
  nullish v = false -> get v k = Ok (field v k).
Proof. unfold field. destruct v; simpl; congruence. Qed.

Lemma get0_field0 (v : value) : nullish v = false -> get0 v = Ok (field0 v).
Proof. unfold field0. destruct v; simpl; congruence. Qed.

Lemma get_Ok_field (v x : value) (k : string) : get v k = Ok x -> field v k = x.
Proof. unfold field. intros ->. reflexivity. Qed.

Lemma get_Ok_not_nullish (v x : value) (k : string) : get v k = Ok x -> nullish v = false.
Proof. destruct v; simpl; congruence. Qed.

Lemma field_falsy (v : value) (k : string) :
  truthy v = false -> truthy (field v k) = false.
Proof.
  unfold field. destruct v as [| |b|n|s|xs|fs]; simpl; try reflexivity; try discriminate.
  intros H. destruct (k =? "length"); [|reflexivity].
  apply negb_false_iff, String.eqb_eq in H. now subst.
Qed.

(** ** Monadic filter and map *)

Lemma filterM_pure (p : value -> exc bool) (q : value -> bool) (xs : list value) :
  (forall x, In x xs -> p x = Ok (q x)) -> filterM p xs = Ok (filter q xs).
Proof.
  induction xs as [|x xs IH]; intros H; simpl; [reflexivity |].
  rewrite (H x) by now left. simpl.
  rewrite IH by (intros y Hy; apply H; now right).
  simpl. now destruct (q x).
Qed.

Lemma filterM_In (p : value -> exc bool) (xs kept : list value) :
  filterM p xs = Ok kept -> forall x, In x kept -> In x xs /\ p x = Ok true.
Proof.
  revert kept. induction xs as [|x xs IH]; simpl; intros kept H y Hy.
  - inversion H; subst. destruct Hy.
  - destruct (p x) as [b|] eqn:Ep; simpl in H; [|discriminate].
    destruct (filterM p xs) as [kept'|] eqn:Ek; simpl in H; [|discriminate].
    inversion H; subst; clear H.
    destruct b.
    + destruct Hy as [<- | Hy]; [now split; [left |] |].
      destruct (IH kept' eq_refl y Hy). split; [now right | assumption].
    + destruct (IH kept' eq_refl y Hy). split; [now right | assumption].
Qed.

Lemma filterM_total (p : value -> exc bool) (xs : list value) :
  (forall x, In x xs -> exists b, p x = Ok b) -> exists kept, filterM p xs = Ok kept.
Proof.
  induction xs as [|x xs IH]; intros H; simpl; [now eexists |].
  destruct (H x) as [b Hb]; [now left |]. rewrite Hb. simpl.
  destruct IH as [kept Hk]; [intros y Hy; apply H; now right |].
  rewrite Hk. simpl. now eexists.
Qed.

Lemma mapM_pure {A : Type} (f : value -> exc A) (g : value -> A) (xs : list value) :
  (forall x, In x xs -> f x = Ok (g x)) -> mapM f xs = Ok (map g xs).
Proof.
  induction xs as [|x xs IH]; intros H; simpl; [reflexivity |].
  rewrite (H x) by now left. simpl.
  rewrite IH by (intros y Hy; apply H; now right).
  reflexivity.
Qed.

Lemma In_firstn {A : Type} (n : nat) (l : list A) (x : A) :
  In x (firstn n l) -> In x l.
Proof.
  intros H. rewrite <- (firstn_skipn n l). apply in_or_app. now left.
Qed.

(** ** Selection of the latest feature *)

Section Selection.
Context {RT : Runtime}.

(** *** Conversions that cannot throw *)

Lemma to_number_printable (v : value) : printable v = true -> to_number v <> Throw.
Proof.
  unfold printable. destruct v as [| |[|]|n|s|xs|fs]; try discriminate;
    unfold to_number; destruct (to_string _); discriminate.
Qed.

Lemma Date_new_printable (v : value) : printable v = true -> Date_new v <> Throw.
Proof.
  unfold printable. destruct v as [| |[|]|n|s|xs|fs]; try discriminate;
    unfold Date_new; destruct (to_string _); discriminate.
Qed.

Lemma js_gt_length (xs : list value) :
  js_gt (Num (num_of_nat (List.length xs))) (Fin 0)
  = Ok (match xs with [] => false | _ :: _ => true end).
Proof. destruct xs; reflexivity. Qed.

Lemma has_preview_true (f : value) :
  has_preview f = Ok true ->
  exists p b,
    get f "properties" = Ok p /\ truthy p = true
    /\ get p "browse" = Ok b /\ truthy b = true
    /\ js_gt (field b "length") (Fin 0) = Ok true.
Proof.
  unfold has_preview. simpl.
  destruct (get f "properties") as [p|] eqn:Ep; [|discriminate].
  destruct (truthy p) eqn:Tp; [|discriminate].
  destruct (get p "browse") as [b|] eqn:Eb; [|discriminate].
  destruct (truthy b) eqn:Tb; [|discriminate].
  rewrite (get_field b "length") by now apply truthy_not_nullish.
  intros H. now exists p, b.
Qed.

Lemma js_gt_printable (v : value) (n : number) :
  printable v = true -> exists b, js_gt v n = Ok b.
Proof.
  intros H. unfold js_gt. cbn [bind Monad_exc].
  destruct (to_number v) as [x|] eqn:E; [now eexists |].
  now destruct (to_number_printable v H).
Qed.

(** The filter does not throw on a feature that is an object and whose
    [browse.length] can be converted. *)
Lemma has_preview_total (f : value) :
  nullish f = false -> printable (field (browse_of f) "length") = true ->
  exists b, has_preview f = Ok b.
Proof.
  intros Hf Hl. unfold has_preview, browse_of in *. simpl.
  rewrite (get_field f "properties" Hf).
  destruct (truthy (field f "properties")) eqn:Tp; [|now eexists].
  rewrite (get_field _ "browse") by now apply truthy_not_nullish.
  destruct (truthy (field (field f "properties") "browse")) eqn:Tb; [|now eexists].
  rewrite (get_field _ "length") by now apply truthy_not_nullish.
  now apply js_gt_printable.
Qed.

(** On a well-typed feature the filter keeps exactly the features with a
    non-empty browse list. *)
Lemma has_preview_typed (f : value) :
  feature_typed f = true -> has_preview f = Ok (has_browse_list f).
Proof.
  unfold feature_typed, has_browse_list, browse_of. intros H.
  apply andb_true_iff in H. destruct H as [Hf Hb]. apply negb_true_iff in Hf.
  unfold has_preview. simpl. rewrite (get_field f "properties" Hf).
  destruct (truthy (field f "properties")) eqn:Tp.
  - rewrite (get_field _ "browse") by now apply truthy_not_nullish.
    destruct (field (field f "properties") "browse") as [| |b|n|s|xs|fs];
      try discriminate; try reflexivity.
    simpl. now destruct xs.
  - pose proof (field_falsy _ "browse" Tp) as Hfalsy.
    destruct (field (field f "properties") "browse"); try reflexivity; discriminate.
Qed.

Lemma has_preview_propertied (f : value) : has_preview f = Ok true -> propertied f.
Proof.
  intros H. destruct (has_preview_true f H) as (p & b & Hp & Tp & _).
  exists p. split; [assumption | now apply truthy_not_nullish].
Qed.

Lemma propertied_field (f : value) :
  propertied f ->
  get f "properties" = Ok (field f "properties")
  /\ nullish (field f "properties") = false.
Proof.
  intros (p & Hp & Np). rewrite (get_Ok_field _ _ _ Hp). now split.
Qed.

Lemma capture_time_Date_new (f : value) (t : Z) :
  capture_time f = Some t -> Date_new (start_time f) = Ok (Some t).
Proof.
  unfold capture_time. destruct (Date_new (start_time f)) as [d|]; [|discriminate].
  now intros ->.
Qed.

Lemma valid_time_dated (f : value) :
  capture_time f <> None -> Date_new (start_time f) <> Throw.
Proof.
  unfold capture_time. destruct (Date_new (start_time f)); [discriminate | congruence].
Qed.

(** The comparator on two features whose start times can be converted. *)
Lemma compareFn_dated (a b : value) :
  propertied a -> propertied b ->
  Date_new (start_time a) <> Throw -> Date_new (start_time b) <> Throw ->
  compareFn a b
  = Ok (match capture_time b, capture_time a with
        | Some tb, Some ta => Some (tb - ta)%Z
        | _, _ => None
        end).
Proof.
  intros Ha Hb Da Db. apply propertied_field in Ha, Hb.
  destruct Ha as [Ha Na], Hb as [Hb Nb].
  unfold compareFn, capture_time, start_time in *. simpl.
  rewrite Hb. rewrite (get_field _ "startTime" Nb).
  destruct (Date_new (field (field b "properties") "startTime")) as [db|];
    [|now destruct Db].
  rewrite Ha. rewrite (get_field _ "startTime" Na).
  destruct (Date_new (field (field a "properties") "startTime")) as [da|];
    [|now destruct Da].
  reflexivity.
Qed.

(** *** The sort *)

(** The sort returns, with a permutation, when the start times of the
    features can be converted. *)
Lemma sort_returns (l : list value) :
  Forall propertied l ->
  Forall (fun f => Date_new (start_time f) <> Throw) l ->
  exists s, Array_sort compareFn l = Ok s /\ Permutation l s.
Proof.
  intros Hp Hd. rewrite Forall_forall in Hp, Hd.
  destruct (Array_sort compareFn l) as [s|] eqn:Hs.
  - exists s. split; [reflexivity |]. now apply Array_sort_permutes with compareFn.
  - exfalso. apply (Array_sort_returns compareFn l); [|exact Hs].
    intros a b Ha Hb. rewrite (compareFn_dated a b); auto. discriminate.
Qed.

(** On valid dates the sort returns the stable order, latest first. *)
Lemma sort_sorted_latest_first (l s : list value) :
  Forall propertied l ->
  Forall (fun f => capture_time f <> None) l ->
  Array_sort compareFn l = Ok s ->
  sorted_latest_first l s.
Proof.
  intros Hp Hv Hs. rewrite Forall_forall in Hp, Hv.
  pose proof (Array_sort_permutes compareFn l s Hs) as P.
  assert (Hcmp : forall a b, In a l -> In b l ->
            compareFn a b = Ok (Some (recency a - recency b)%Z)).
  { intros a b Ha Hb.
    rewrite (compareFn_dated a b); auto using valid_time_dated.
    unfold recency.
    destruct (capture_time a) as [ta|] eqn:Ta; [|now destruct (Hv a Ha)].
    destruct (capture_time b) as [tb|] eqn:Tb; [|now destruct (Hv b Hb)].
    do 2 f_equal. lia. }
  assert (Hdef : ~ In Undefined l).
  { intros Hu. destruct (Hp Undefined Hu) as (p & Hget & _). discriminate Hget. }
  destruct (Array_sort_stable compareFn recency l s Hdef Hcmp Hs) as [S F].
  assert (Hvs : forall x, In x s -> capture_time x <> None).
  { intros x Hx. apply Hv. apply Permutation_in with s; [now apply Permutation_sym | exact Hx]. }
  split; [exact P |]. split.
  - clear F Hs P Hcmp. induction S as [|a s S IH Hall]; constructor.
    + apply IH. intros x Hx. apply Hvs. now right.
    + rewrite Forall_forall in Hall |- *. intros x Hx. specialize (Hall x Hx).
      unfold recency in Hall.
      destruct (capture_time a) as [ta|] eqn:Ta; [|now destruct (Hvs a (or_introl eq_refl))].
      destruct (capture_time x) as [tx|] eqn:Tx; [|now destruct (Hvs x (or_intror Hx))].
      exists tx, ta. repeat split; try assumption. lia.
  - intros t.
    assert (Hfilter : forall k, (forall x, In x k -> capture_time x <> None) ->
              filter (captured_at t) k = filter (fun x => (recency x =? - t)%Z) k).
    { intros k Hk. apply filter_ext_in. intros x Hx. unfold captured_at, recency.
      destruct (capture_time x) as [tx|] eqn:Tx; [|now destruct (Hk x Hx)].
      destruct (Z.eqb_spec tx t), (Z.eqb_spec (- tx) (- t)); try reflexivity; lia. }
    rewrite (Hfilter s Hvs), (Hfilter l Hv). apply F.
Qed.

Lemma filter_head_split {A : Type} (p : A -> bool) (l : list A) (x : A) (more : list A) :
  filter p l = x :: more ->
  exists before after,
    l = (before ++ x :: after)%list /\ Forall (fun y => p y = false) before.
Proof.
  induction l as [|y l IH]; simpl; [discriminate |].
  destruct (p y) eqn:Py.
  - intros H. inversion H; subst. now exists [], l.
  - intros H. destruct (IH H) as (before & after & -> & Hb).
    exists (y :: before), after. split; [reflexivity | now constructor].
Qed.

(** Whatever stable sort produced it, the head of the sorted list is the
    latest feature, and the first one in the original order among those with
    the latest time. *)
Lemma sorted_latest_first_head (l : list value) (f : value) (others : list value) :
  Forall (fun g => capture_time g <> None) l ->
  sorted_latest_first l (f :: others) ->
  latest_of l f.
Proof.
  intros Hv (P & S & F). rewrite Forall_forall in Hv.
  assert (Hf : In f l).
  { apply Permutation_in with (f :: others); [now apply Permutation_sym | now left]. }
  destruct (capture_time f) as [t|] eqn:Tf; [|now destruct (Hv f Hf)].
  assert (Hmax : forall g, In g l -> not_later g f).
  { intros g Hg. apply (Permutation_in g P) in Hg. destruct Hg as [<- | Hg].
    - exists t, t. repeat split; try assumption. lia.
    - inversion S as [|? ? _ Hall]; subst. rewrite Forall_forall in Hall. now apply Hall. }
  specialize (F t). simpl in F. unfold captured_at at 1 in F. rewrite Tf, Z.eqb_refl in F.
  symmetry in F. destruct (filter_head_split _ _ _ _ F) as (before & after & Hl & Hb).
  exists before, after. split; [exact Hl |]. split.
  - intros g Hg. rewrite Forall_forall in Hb. specialize (Hb g Hg).
    assert (Hgl : In g l) by (rewrite Hl; apply in_or_app; now left).
    destruct (Hmax g Hgl) as (tg & t' & Tg & Tf' & Hle).
    rewrite Tf in Tf'. inversion Tf'; subst t'.
    exists tg, t. repeat split; try assumption.
    unfold captured_at in Hb. rewrite Tg in Hb. apply Z.eqb_neq in Hb. lia.
  - intros g Hg. apply Hmax. rewrite Hl. apply in_or_app. right. now right.
Qed.

(** The head of the list the handler sorts is the latest feature, and the
    first one in the original order among those with the latest time. *)
Lemma sort_head (l s : list value) :
  Forall propertied l ->
  Forall (fun f => capture_time f <> None) l ->
  Array_sort compareFn l = Ok s ->
  match s with
  | [] => l = []
  | f :: _ => latest_of l f
  end.
Proof.
  intros Hp Hv Hs.
  pose proof (sort_sorted_latest_first l s Hp Hv Hs) as Hsorted.
  destruct s as [|f others].
  - destruct Hsorted as (P & _). now apply Permutation_sym, Permutation_nil in P.
  - now apply (sorted_latest_first_head l f others).
Qed.

(** The latest feature of a list is unique. *)
Lemma latest_of_unique (l : list value) (f f' : value) :
  latest_of l f -> latest_of l f' -> f = f'.
Proof.
  intros (b & a & Hl & Hb & Ha) (b' & a' & Hl' & Hb' & Ha').
  assert (Hno : forall x y, earlier x y -> not_later y x -> False).
  { intros x y (tx & ty & Tx & Ty & Hlt) (ty' & tx' & Ty' & Tx' & Hle).
    rewrite Tx in Tx'. rewrite Ty in Ty'. inversion Tx'; inversion Ty'; subst. lia. }
  rewrite Hl in Hl'. clear Hl. revert b' Hl' Hb'.
  induction b as [|x b IH]; intros b' Hl' Hb'.
  - destruct b' as [|x' b']; simpl in Hl'.
    + now inversion Hl'.
    + inversion Hl'; subst x'. exfalso.
      apply (Hno f f'); [apply Hb'; now left |].
      apply Ha. rewrite H1. apply in_or_app. right. now left.
  - destruct b' as [|x' b']; simpl in Hl'.
    + inversion Hl'; subst x. exfalso.
      apply (Hno f' f); [apply Hb; now left |].
      apply Ha'. rewrite <- H1. apply in_or_app. right. now left.
    + inversion Hl'; subst x'. apply (IH (fun g Hg => Hb g (or_intror Hg)) b' H1).
      intros g Hg. apply Hb'. now right.
Qed.

(** The time of the latest feature does not depend on the order of the list. *)
Lemma latest_of_time (l : list value) (f : value) :
  Forall (fun g => capture_time g <> None) l ->
  latest_of l f ->
  exists t, capture_time f = Some t
    /\ forall g, In g l -> exists tg, capture_time g = Some tg /\ (tg <= t)%Z.
Proof.
  intros Hv (before & after & Hl & Hb & Ha).
  rewrite Forall_forall in Hv.
  assert (Hf : In f l) by (rewrite Hl; apply in_or_app; right; now left).
  destruct (capture_time f) as [t|] eqn:Tf; [|now destruct (Hv f Hf)].
  exists t. split; [reflexivity |].
  intros g Hg. rewrite Hl in Hg. apply in_app_or in Hg.
  destruct Hg as [Hg | [<- | Hg]].
  - destruct (Hb g Hg) as (tg & t' & Hg' & Ht' & Hlt).
    rewrite Tf in Ht'. inversion Ht'; subst. exists tg. split; [assumption | lia].
  - exists t. split; [assumption | lia].
  - destruct (Ha g Hg) as (tg & t' & Hg' & Ht' & Hlt).
    rewrite Tf in Ht'. inversion Ht'; subst. exists tg. split; [assumption | lia].
Qed.

Lemma latest_of_permutation (l l' : list value) (f f' : value) :
  Forall (fun g => capture_time g <> None) l ->
  Permutation l l' ->
  latest_of l f -> latest_of l' f' ->
  capture_time f' = capture_time f.
Proof.
  intros Hv P Hf Hf'.
  assert (Hv' : Forall (fun g => capture_time g <> None) l').
  { apply Forall_forall. intros g Hg. rewrite Forall_forall in Hv. apply Hv.
    apply Permutation_in with l'; [now apply Permutation_sym | assumption]. }
  destruct (latest_of_time l f Hv Hf) as (t & Tf & Hmax).
  destruct (latest_of_time l' f' Hv' Hf') as (t' & Tf' & Hmax').
  assert (In f l) as Hin.
  { destruct Hf as (b & a & -> & _). apply in_or_app. right. now left. }
  assert (In f' l') as Hin'.
  { destruct Hf' as (b & a & -> & _). apply in_or_app. right. now left. }
  destruct (Hmax' f (Permutation_in f P Hin)) as (x & Hx & Hle).
  destruct (Hmax f' (Permutation_in f' (Permutation_sym P) Hin')) as (y & Hy & Hle').
  rewrite Tf in Hx. rewrite Tf' in Hy. inversion Hx; inversion Hy; subst.
  rewrite Tf, Tf'. f_equal. lia.
Qed.

End Selection.

(** ** The stages of the handler *)

(** Case analysis on a scrutinee of the goal that is not itself a case
    analysis. *)
Ltac case_step :=
  match goal with
  | |- context [match ?x with _ => _ end] =>
      lazymatch x with
      | match _ with _ => _ end => fail
      | _ => destruct x eqn:?
      end
  end.

Section Stages.
Context {RT : Runtime}.

Lemma field_falsy_undefined (v : value) (k : string) :
  truthy v = false -> k <> "length" -> field v k = Undefined.
Proof.
  unfold field. intros Hv Hk.
  destruct v; simpl in *; try reflexivity; try discriminate;
    apply String.eqb_neq in Hk; now rewrite Hk.
Qed.

Lemma field0_falsy_undefined (v : value) : truthy v = false -> field0 v = Undefined.
Proof.
  unfold field0. destruct v as [| |b|n|s|xs|fs]; simpl; try reflexivity; try discriminate.
  intros H. apply negb_false_iff, String.eqb_eq in H. now subst.
Qed.

(** *** Printing *)

Lemma printable_to_string (v : value) :
  printable v = true -> to_string v = Ok (text_of v).
Proof. unfold printable, text_of. now destruct (to_string v). Qed.

Lemma unprintable_to_string (v : value) : printable v = false -> to_string v = Throw.
Proof. unfold printable. now destruct (to_string v). Qed.

Lemma encodable_printable (v : value) : encodable v = true -> printable v = true.
Proof.
  unfold encodable, printable, encodeURIComponent. cbn [bind Monad_exc].
  now destruct (to_string v).
Qed.

Lemma encodable_url (v : value) :
  encodable v = true ->
  (exists u, imaggaColorsUrl v = Ok u) /\ (exists u, imaggaApiUrl v = Ok u).
Proof.
  unfold encodable, imaggaColorsUrl, imaggaApiUrl. cbn [bind Monad_exc].
  destruct (encodeURIComponent v); [|discriminate]. intros _. split; now eexists.
Qed.

Lemma not_encodable_url (v : value) :
  encodable v = false -> imaggaColorsUrl v = Throw /\ imaggaApiUrl v = Throw.
Proof.
  unfold encodable, imaggaColorsUrl, imaggaApiUrl. cbn [bind Monad_exc].
  destruct (encodeURIComponent v); [discriminate |]. now split.
Qed.

(** The text of an array is the texts of its elements, joined. *)
Lemma to_string_array (xs : list value) :
  to_string (Arr xs) = (parts <- mapM element_string xs ;; Ok (join "," parts)).
Proof.
  cbn [to_string]. f_equal.
  induction xs as [|x xs IH]; [reflexivity |].
  cbn [mapM]. unfold element_string at 1. now rewrite IH.
Qed.

(** *** Colors *)

Lemma imageColors_run (u : value) (k s : string) (w : world) (tr : list call) :
  imageColors u k s w tr
  = (Ok (colors_of w u k s),
     (tr ++ if encodable u then [GetColors u k s] else [])%list).
Proof.
  unfold colors_of, imageColors, try_catch, imageColors_try. simpl.
  unfold axios, lift. simpl.
  destruct (encodable u) eqn:He.
  - destruct (encodable_url u He) as [[x Hx] _]. rewrite Hx.
    repeat (case_step; simpl); reflexivity.
  - destruct (not_encodable_url u He) as [Hx _]. rewrite Hx.
    now rewrite app_nil_r.
Qed.

Lemma colors_of_unencodable (w : world) (u : value) (k s : string) :
  encodable u = false -> colors_of w u k s = Arr [].
Proof.
  intros He. unfold colors_of, imageColors, try_catch, imageColors_try. simpl.
  unfold lift. destruct (not_encodable_url u He) as [Hx _]. now rewrite Hx.
Qed.

Lemma colors_found_absent (data : value) :
  colors_nesting_absent data = true ->
  exists v,
    and_then data (fun d =>
      result <- get d "result" ;;
      and_then result (fun r =>
        colors <- get r "colors" ;;
        and_then colors (fun c => get c "image_colors"))) = Ok v
    /\ truthy v = false.
Proof.
  unfold colors_nesting_absent, and_then. intros H. simpl.
  destruct (truthy data) eqn:T0; [|now eexists].
  rewrite (get_field data "result") by now apply truthy_not_nullish.
  destruct (truthy (field data "result")) eqn:T1; [|now eexists].
  rewrite (get_field _ "colors") by now apply truthy_not_nullish.
  destruct (truthy (field (field data "result") "colors")) eqn:T2; [|now eexists].
  rewrite (get_field _ "image_colors") by now apply truthy_not_nullish.
  simpl in H. apply negb_true_iff in H. now eexists.
Qed.

(** A failed colors call, or an answer without the nesting, leaves the empty
    list. *)
Lemma colors_of_failed (w : world) (u : value) (k s : string) :
  (w (GetColors u k s) = Throw
   \/ exists data, w (GetColors u k s) = Ok data /\ colors_nesting_absent data = true) ->
  colors_of w u k s = Arr [].
Proof.
  intros H. unfold colors_of, imageColors, try_catch, imageColors_try. simpl.
  unfold axios, lift. simpl.
  destruct (imaggaColorsUrl u); [|reflexivity].
  destruct H as [H | (data & H & Habs)]; rewrite H; [reflexivity |].
  destruct (colors_found_absent data Habs) as (v & Hv & Tv).
  simpl in Hv. rewrite Hv. simpl. now rewrite Tv.
Qed.

(** *** Tags *)

Lemma imageTags_run (u : value) (k s : string) (w : world) (tr : list call) :
  imageTags u k s w tr
  = (Ok (tags_of w u k s),
     (tr ++ if encodable u then [GetTags u k s] else [])%list).
Proof.
  unfold tags_of, imageTags, try_catch. simpl.
  unfold axios, lift. simpl.
  destruct (encodable u) eqn:He.
  - destruct (encodable_url u He) as [_ [x Hx]]. rewrite Hx.
    repeat (case_step; simpl); reflexivity.
  - destruct (not_encodable_url u He) as [_ Hx]. rewrite Hx.
    now rewrite app_nil_r.
Qed.

Lemma tags_of_unencodable (w : world) (u : value) (k s : string) :
  encodable u = false -> tags_of w u k s = [].
Proof.
  intros He. unfold tags_of, imageTags, try_catch. simpl.
  unfold lift. destruct (not_encodable_url u He) as [_ Hx]. now rewrite Hx.
Qed.

Lemma tags_of_throw (w : world) (u : value) (k s : string) :
  w (GetTags u k s) = Throw -> tags_of w u k s = [].
Proof.
  intros H. unfold tags_of, imageTags, try_catch. simpl.
  unfold axios, lift. simpl. destruct (imaggaApiUrl u); [|reflexivity]. now rewrite H.
Qed.

Lemma tags_of_answer (w : world) (u : value) (k s : string) (data : value) :
  encodable u = true ->
  w (GetTags u k s) = Ok data ->
  tags_of w u k s = match imageTags_of data with Ok ts => ts | Throw => [] end.
Proof.
  intros He H. unfold tags_of, imageTags, try_catch. simpl.
  unfold axios, lift. simpl.
  destruct (encodable_url u He) as [_ [x Hx]]. rewrite Hx. rewrite H.
  now destruct (imageTags_of data).
Qed.

(** What the comparison of a kept tag says. *)
Lemma confident_true (t : value) : confident t = Ok true -> over_15 t = true.
Proof.
  unfold confident, over_15. cbn [bind Monad_exc].
  destruct (get t "confidence") as [c|] eqn:Hc; [|discriminate].
  rewrite (get_Ok_field _ _ _ Hc). now intros ->.
Qed.

Lemma confident_typed (t : value) :
  tag_typed t = true -> confident t = Ok (over_15 t).
Proof.
  unfold tag_typed. intros H.
  apply andb_true_iff in H. destruct H as [H Hc].
  apply andb_true_iff in H. destruct H as [Hn _]. apply negb_true_iff in Hn.
  unfold confident, over_15. cbn [bind Monad_exc].
  rewrite (get_field t "confidence" Hn).
  destruct (js_gt_printable _ (Fin (inject_Z 15)) Hc) as [b Hb]. now rewrite Hb.
Qed.

Lemma tag_en_typed (t : value) : tag_typed t = true -> tag_en t = Ok (english_label t).
Proof.
  unfold tag_typed, tag_en, english_label. intros H.
  apply andb_true_iff in H. destruct H as [H _].
  apply andb_true_iff in H. destruct H as [H1 H2].
  apply negb_true_iff in H1, H2. simpl.
  rewrite (get_field t "tag" H1). now rewrite (get_field _ "en" H2).
Qed.

Lemma retained_tags_typed (ts : list value) :
  Forall (fun t => tag_typed t = true) ts ->
  retained_tags (Arr ts) = Ok (map english_label (firstn 5 (filter over_15 ts))).
Proof.
  intros H. rewrite Forall_forall in H. unfold retained_tags.
  cbn [as_array bind Monad_exc].
  rewrite (filterM_pure confident over_15).
  2:{ intros t Ht. apply confident_typed. now apply H. }
  apply mapM_pure. intros t Ht. apply tag_en_typed, H.
  apply In_firstn in Ht. apply filter_In in Ht. tauto.
Qed.

(** *** Explanation *)

Lemma explanation_of_spec (data : value) :
  explanation_of data
  = Ok (let choice := first_choice data in
        if truthy (message_content choice) then message_content choice
        else if truthy (legacy_text choice) then legacy_text choice
        else Str "").
Proof.
  assert (Hlen1 : "choices" <> "length") by discriminate.
  assert (Hlen2 : "message" <> "length") by discriminate.
  assert (Hlen3 : "text" <> "length") by discriminate.
  assert (Hundef : forall k, field Undefined k = Undefined) by reflexivity.
  unfold explanation_of, first_choice, message_content, legacy_text, and_then, or_else.
  simpl.
  destruct (truthy data) eqn:T0.
  2:{ rewrite (field_falsy_undefined data "choices" T0 Hlen1). simpl.
      now rewrite T0. }
  rewrite (get_field data "choices") by now apply truthy_not_nullish.
  destruct (truthy (field data "choices")) eqn:T1.
  2:{ rewrite (field0_falsy_undefined _ T1). simpl. now rewrite T1. }
  rewrite (get0_field0 (field data "choices")) by now apply truthy_not_nullish.
  set (choice := field0 (field data "choices")).
  destruct (truthy choice) eqn:T2.
  2:{ rewrite (field_falsy_undefined choice "message" T2 Hlen2).
      rewrite (field_falsy_undefined choice "text" T2 Hlen3). simpl. now rewrite T2. }
  rewrite (get_field choice "message") by now apply truthy_not_nullish.
  rewrite (get_field choice "text") by now apply truthy_not_nullish.
  destruct (nullish (field choice "message")) eqn:N.
  - assert (Hc : field (field choice "message") "content" = Undefined)
      by (destruct (field choice "message"); try discriminate; reflexivity).
    rewrite Hc. simpl.
    destruct (truthy (field choice "text")) eqn:T3; simpl; now rewrite ?T3.
  - rewrite (get_field _ "content" N).
    destruct (truthy (field (field choice "message") "content")) eqn:T4; simpl.
    + now rewrite T4.
    + destruct (truthy (field choice "text")) eqn:T3; simpl; now rewrite ?T3.
Qed.

Lemma get_length_truthy_or_empty (v : value) :
  truthy v = true \/ v = Str "" -> exists l, get v "length" = Ok l.
Proof.
  intros [H | ->]; [|now eexists].
  rewrite (get_field v "length") by now apply truthy_not_nullish. now eexists.
Qed.

Lemma explanation_run (p : string) (b : option string) (w : world) (tr : list call) :
  explanation p b w tr = (Ok (answer_of w p b), (tr ++ [PostLLM p b])%list).
Proof.
  unfold answer_of, explanation, try_catch. simpl.
  unfold axios, lift. simpl.
  repeat (case_step; simpl); reflexivity.
Qed.

Lemma answer_of_failed (w : world) (p : string) (b : option string) :
  w (PostLLM p b) = Throw -> answer_of w p b = Str service_error.
Proof.
  intros H. unfold answer_of, explanation, try_catch. simpl.
  unfold axios, lift. simpl. now rewrite H.
Qed.

Lemma answer_of_answer (w : world) (p : string) (b : option string) (data : value) :
  w (PostLLM p b) = Ok data ->
  answer_of w p b
  = let choice := first_choice data in
    if truthy (message_content choice) then message_content choice
    else if truthy (legacy_text choice) then legacy_text choice
    else Str "".
Proof.
  intros H. unfold answer_of, explanation, try_catch. simpl.
  unfold axios, lift. simpl. rewrite H. rewrite explanation_of_spec.
  cbv zeta. set (choice := first_choice data).
  set (text := if truthy (message_content choice) then message_content choice
               else if truthy (legacy_text choice) then legacy_text choice else Str "").
  assert (Hlen : exists l, get text "length" = Ok l).
  { apply get_length_truthy_or_empty. subst text.
    destruct (truthy (message_content choice)) eqn:T1; [now left |].
    destruct (truthy (legacy_text choice)) eqn:T2; [now left | now right]. }
  destruct Hlen as [l Hl]. now rewrite Hl.
Qed.

(** *** Metadata and prompt *)

Lemma metadataForAI_spec (properties latitude longitude : value) :
  nullish properties = false ->
  metadataForAI properties latitude longitude
  = Ok (metadata_of properties latitude longitude).
Proof.
  intros H. unfold metadataForAI, metadata_of. simpl.
  now rewrite !(get_field properties _ H).
Qed.

End Stages.

(** ** The handler *)

Section HandlerFacts.
Context {RT : Runtime}.

(** Unfolding of the monad operations, and nothing else. *)
Ltac step := cbn [bind ret Monad_M lift fst snd].

Lemma vision_calls_app (u : value) (k s : string) :
  ((if encodable u then [GetColors u k s] else [])
   ++ (if encodable u then [GetTags u k s] else []))%list
  = vision_calls u k s.
Proof. unfold vision_calls. now destruct (encodable u). Qed.

(** The handler from the selected feature on: the image URL is logged, the
    three stages run in sequence, and only the making of the prompt can
    throw. *)
Lemma interpret_run (env : Env) (key secret : string)
    (lat lon f props b url : value) (w : world) (tr : list call) :
  get f "properties" = Ok props ->
  get props "browse" = Ok b ->
  get0 b = Ok url ->
  printable url = true ->
  interpret env key secret lat lon f w tr
  = let cs := colors_of w url key secret in
    let tags := tags_of w url key secret in
    let md := metadata_of props lat lon in
    match prompt cs tags md with
    | Ok p =>
        (Ok (success url (answer_of w p (OPEN_ROUTER_API env))
               (field props "sceneName") tags cs md),
         (tr ++ vision_calls url key secret ++ [PostLLM p (OPEN_ROUTER_API env)])%list)
    | Throw =>
        (Throw, (tr ++ vision_calls url key secret)%list)
    end.
Proof.
  intros Hp Hb Hu Hprint. unfold interpret. step. rewrite Hp. step. rewrite Hb. step.
  rewrite Hu. step. unfold found_log. rewrite (printable_to_string url Hprint).
  cbn [bind Monad_exc]. step.
  rewrite imageColors_run. step. rewrite imageTags_run. step.
  assert (Np : nullish props = false) by (eapply get_Ok_not_nullish; eassumption).
  rewrite (metadataForAI_spec props lat lon Np). step.
  rewrite <- app_assoc, vision_calls_app.
  cbv zeta. destruct (prompt _ _ _) as [p|]; step.
  - rewrite explanation_run. step. rewrite (get_field props "sceneName" Np). step.
    unfold success. now rewrite <- !app_assoc.
  - reflexivity.
Qed.

(** An image URL that cannot be printed ends the request at the log line. *)
Lemma interpret_unprintable (env : Env) (key secret : string)
    (lat lon f props b url : value) (w : world) (tr : list call) :
  get f "properties" = Ok props ->
  get props "browse" = Ok b ->
  get0 b = Ok url ->
  printable url = false ->
  interpret env key secret lat lon f w tr = (Throw, tr).
Proof.
  intros Hp Hb Hu Hprint. unfold interpret. step. rewrite Hp. step. rewrite Hb. step.
  rewrite Hu. step. unfold found_log. now rewrite (unprintable_to_string url Hprint).
Qed.

Lemma has_coordinates_get (req_body : value) :
  has_coordinates req_body ->
  get req_body "latitude" = Ok (field req_body "latitude")
  /\ get req_body "longitude" = Ok (field req_body "longitude")
  /\ is_undefined (field req_body "latitude") = false
  /\ is_undefined (field req_body "longitude") = false.
Proof.
  intros [Hlat Hlon].
  assert (Nb : nullish req_body = false).
  { destruct req_body; try reflexivity; now destruct Hlat. }
  repeat split; try now apply get_field.
  - destruct (field req_body "latitude"); try reflexivity. now destruct Hlat.
  - destruct (field req_body "longitude"); try reflexivity. now destruct Hlon.
Qed.

Lemma is_undefined_true (v : value) : is_undefined v = true -> v = Undefined.
Proof. destruct v; simpl; congruence. Qed.

Lemma is_undefined_false (v : value) : is_undefined v = false -> v <> Undefined.
Proof. destruct v; simpl; congruence. Qed.

(** The two texts made of the coordinates. *)
Lemma printable_logs (lat lon : value) :
  printable lat = true -> printable lon = true ->
  (exists text, received_log lat lon = Ok text) /\ (exists url, asfApiUrl lat lon = Ok url).
Proof.
  intros Hlat Hlon. unfold received_log, asfApiUrl.
  rewrite (printable_to_string lat Hlat), (printable_to_string lon Hlon).
  split; now eexists.
Qed.

(** The handler after the first log line. *)
Lemma handler_logged (env : Env) (req_body : value) (w : world) :
  nullish req_body = false ->
  printable_coordinates req_body ->
  run (handler env req_body) w
  = if is_undefined (field req_body "latitude") || is_undefined (field req_body "longitude")
    then (Ok validation_error, [])
    else if env_missing (IMAGGA_API_KEY env) || env_missing (IMAGGA_API_SECRET env)
    then (Ok config_error, [])
    else try_catch
           (lookup_image env (env_string (IMAGGA_API_KEY env))
              (env_string (IMAGGA_API_SECRET env))
              (field req_body "latitude") (field req_body "longitude"))
           (ret processing_error) w [].
Proof.
  intros Nb [Hlat Hlon].
  destruct (printable_logs _ _ Hlat Hlon) as [[text Hlog] [url Hurl]].
  unfold run, handler. step. rewrite !(get_field req_body _ Nb). step.
  rewrite Hlog. step.
  destruct (_ || _); [reflexivity |].
  destruct (_ || _); [reflexivity |].
  step. now rewrite Hurl.
Qed.

(** A coordinate that cannot be printed makes the handler throw at the first
    log line, before the validation. *)
Lemma handler_unprintable (env : Env) (req_body : value) (w : world) :
  printable (field req_body "latitude") = false
  \/ printable (field req_body "longitude") = false ->
  run (handler env req_body) w = (Throw, []).
Proof.
  intros H. destruct (nullish req_body) eqn:Nb.
  { destruct req_body; try discriminate; reflexivity. }
  unfold run, handler. step. rewrite !(get_field req_body _ Nb). step.
  unfold received_log.
  destruct H as [H | H].
  - now rewrite (unprintable_to_string _ H).
  - rewrite (unprintable_to_string _ H). now destruct (to_string _).
Qed.

(** A request with coordinates that can be printed, on a configured server,
    reaches the catalog stage. *)
Lemma handler_accepted (env : Env) (req_body : value) (w : world) :
  has_coordinates req_body -> printable_coordinates req_body -> configured env ->
  run (handler env req_body) w
  = try_catch
      (lookup_image env (env_string (IMAGGA_API_KEY env))
         (env_string (IMAGGA_API_SECRET env))
         (field req_body "latitude") (field req_body "longitude"))
      (ret processing_error) w [].
Proof.
  intros Hc Hp [Hk Hs]. destruct (has_coordinates_get req_body Hc) as (_ & _ & Ulat & Ulon).
  assert (Nb : nullish req_body = false).
  { destruct Hc as [H _]. destruct req_body; try reflexivity; now destruct H. }
  rewrite (handler_logged env req_body w Nb Hp). now rewrite Ulat, Ulon, Hk, Hs.
Qed.

(** What the catalog stage does with the features of the answer. *)
Lemma lookup_image_features (env : Env) (key secret : string)
    (lat lon data features : value) (w : world) :
  w (GetCatalog lon lat) = Ok data ->
  get data "features" = Ok features ->
  lookup_image env key secret lat lon w []
  = if negb (truthy features) || strict_eq_zero (field features "length")
    then (Ok no_data, [GetCatalog lon lat])
    else match sortedFeatures features with
         | Ok [] => (Ok no_previews, [GetCatalog lon lat])
         | Ok (latestFeature :: _) =>
             interpret env key secret lat lon latestFeature w [GetCatalog lon lat]
         | Throw => (Throw, [GetCatalog lon lat])
         end.
Proof.
  intros Hcat Hf. unfold lookup_image. step. unfold axios. rewrite Hcat. step.
  rewrite Hf. step. cbn [app].
  destruct (truthy features) eqn:Tf; [|reflexivity].
  cbn [negb orb]. step.
  rewrite (get_field features "length") by now apply truthy_not_nullish. step.
  destruct (strict_eq_zero _); [reflexivity |].
  step. destruct (sortedFeatures features) as [[|f rest]|]; reflexivity.
Qed.

(** Every request with a body and coordinates that can be printed is
    answered, in one of seven ways. *)
Lemma handler_handled (env : Env) (req_body : value) (w : world) :
  nullish req_body = false ->
  printable_coordinates req_body ->
  exists resp tr,
    run (handler env req_body) w = (Ok resp, tr) /\ handled env req_body w resp tr.
Proof.
  intros Nb Hprint. rewrite (handler_logged env req_body w Nb Hprint).
  destruct (is_undefined (field req_body "latitude")) eqn:Ulat.
  { exists validation_error, []. split; [reflexivity |].
    apply handled_invalid. left. now apply is_undefined_true. }
  destruct (is_undefined (field req_body "longitude")) eqn:Ulon.
  { exists validation_error, []. split; [reflexivity |].
    apply handled_invalid. right. now apply is_undefined_true. }
  cbn [orb].
  assert (Hc : has_coordinates req_body)
    by (split; now apply is_undefined_false).
  destruct (env_missing (IMAGGA_API_KEY env)) eqn:Hk.
  { exists config_error, []. split; [reflexivity |].
    apply handled_unconfigured; [assumption | now left]. }
  destruct (env_missing (IMAGGA_API_SECRET env)) eqn:Hs.
  { exists config_error, []. split; [reflexivity |].
    apply handled_unconfigured; [assumption | now right]. }
  cbn [orb].
  assert (Hcfg : configured env) by now split.
  unfold try_catch.
  set (lat := field req_body "latitude"). set (lon := field req_body "longitude").
  set (key := env_string (IMAGGA_API_KEY env)).
  set (secret := env_string (IMAGGA_API_SECRET env)).
  assert (Hfail : exists resp tr,
             (Ok processing_error, [GetCatalog lon lat]) = (Ok resp, tr)
             /\ handled env req_body w resp tr).
  { do 2 eexists. split; [reflexivity |]. now apply handled_catalog_failed. }
  destruct (w (GetCatalog lon lat)) as [data|] eqn:Hcat.
  2:{ unfold lookup_image. step. unfold axios. rewrite Hcat. exact Hfail. }
  destruct (get data "features") as [features|] eqn:Hf.
  2:{ unfold lookup_image. step. unfold axios. rewrite Hcat. step. rewrite Hf. exact Hfail. }
  rewrite (lookup_image_features env key secret lat lon data features w Hcat Hf).
  destruct (negb (truthy features) || strict_eq_zero (field features "length")).
  { do 2 eexists. split; [reflexivity |]. now apply handled_no_data. }
  destruct (sortedFeatures features) as [[|f rest]|]; [| |exact Hfail].
  { do 2 eexists. split; [reflexivity |]. now apply handled_no_previews. }
  destruct (get f "properties") as [props|] eqn:Hp.
  2:{ unfold interpret. step. rewrite Hp. exact Hfail. }
  destruct (get props "browse") as [b|] eqn:Hb.
  2:{ unfold interpret. step. rewrite Hp. step. rewrite Hb. exact Hfail. }
  destruct (get0 b) as [url|] eqn:Hu.
  2:{ unfold interpret. step. rewrite Hp. step. rewrite Hb. step. rewrite Hu. exact Hfail. }
  destruct (printable url) eqn:Hurl.
  2:{ rewrite (interpret_unprintable env key secret lat lon f props b url w _ Hp Hb Hu Hurl).
      exact Hfail. }
  rewrite (interpret_run env key secret lat lon f props b url w _ Hp Hb Hu Hurl).
  cbv zeta. destruct (prompt _ _ _) as [p|] eqn:Hprompt.
  - do 2 eexists. split; [reflexivity |].
    now apply (handled_success env req_body w url props p).
  - do 2 eexists. split; [reflexivity |].
    now apply (handled_rendering_failed env req_body w url).
Qed.

(** The answer of a run is the one the relation gives. *)
Lemma handler_inv (env : Env) (req_body : value) (w : world)
    (resp : response) (tr : list call) :
  run (handler env req_body) w = (Ok resp, tr) -> handled env req_body w resp tr.
Proof.
  intros H.
  assert (Nb : nullish req_body = false).
  { destruct req_body; try reflexivity; discriminate. }
  assert (Hprint : printable_coordinates req_body).
  { split.
    - destruct (printable (field req_body "latitude")) eqn:E; [reflexivity |].
      rewrite (handler_unprintable env req_body w (or_introl E)) in H. discriminate.
    - destruct (printable (field req_body "longitude")) eqn:E; [reflexivity |].
      rewrite (handler_unprintable env req_body w (or_intror E)) in H. discriminate. }
  destruct (handler_handled env req_body w Nb Hprint) as (resp' & tr' & Hrun & Hh).
  rewrite Hrun in H. now inversion H; subst.
Qed.

(** On a configured server, a request with both coordinates reaches the
    catalog exactly when its coordinates can be printed. *)
Lemma catalog_called_iff_printable (env : Env) (req_body : value) (w : world) :
  has_coordinates req_body -> configured env ->
  (In (catalog_call req_body) (snd (run (handler env req_body) w))
   <-> printable_coordinates req_body).
Proof.
  intros Hc Hcfg. split.
  - intros Hin. split.
    + destruct (printable (field req_body "latitude")) eqn:E; [reflexivity |].
      rewrite (handler_unprintable env req_body w (or_introl E)) in Hin. destruct Hin.
    + destruct (printable (field req_body "longitude")) eqn:E; [reflexivity |].
      rewrite (handler_unprintable env req_body w (or_intror E)) in Hin. destruct Hin.
  - intros Hprint.
    assert (Nb : nullish req_body = false).
    { destruct Hc as [H _]. destruct req_body; try reflexivity; now destruct H. }
    destruct (handler_handled env req_body w Nb Hprint) as (resp & tr & Hrun & Hh).
    rewrite Hrun. cbn [snd]. destruct Hc as [Hlat Hlon]. destruct Hcfg as [Hk Hs].
    inversion Hh; subst; try (now left).
    + match goal with H : _ = Undefined \/ _ |- _ => destruct H; congruence end.
    + match goal with H : _ = true \/ _ |- _ => destruct H; congruence end.
Qed.

End HandlerFacts.

Section Route.
Context {RT : Runtime}.

(** What the filter and the sort leave: features that passed the filter. *)
Lemma sortedFeatures_inv (features : value) (sorted : list value) :
  sortedFeatures features = Ok sorted ->
  exists fs kept,
    features = Arr fs
    /\ filterM has_preview fs = Ok kept
    /\ Array_sort compareFn kept = Ok sorted
    /\ Permutation kept sorted
    /\ forall f, In f sorted -> In f fs /\ has_preview f = Ok true.
Proof.
  unfold sortedFeatures. intros H.
  destruct features as [| |b|n|s|fs|o]; try discriminate.
  cbn [as_array bind Monad_exc] in H.
  destruct (filterM has_preview fs) as [kept|] eqn:Hk; [|discriminate].
  pose proof (Array_sort_permutes compareFn kept sorted H) as Ps.
  exists fs, kept. repeat split; try assumption.
  - apply (filterM_In _ _ _ Hk).
    apply Permutation_in with sorted; [now apply Permutation_sym | assumption].
  - apply (filterM_In _ _ _ Hk f).
    apply Permutation_in with sorted; [now apply Permutation_sym | assumption].
Qed.

(** The reads that follow the selection succeed on a feature that passed the
    filter. *)
Lemma preview_reads (f : value) :
  has_preview f = Ok true ->
  get f "properties" = Ok (field f "properties")
  /\ get (field f "properties") "browse" = Ok (browse_of f)
  /\ get0 (browse_of f) = Ok (field0 (browse_of f))
  /\ truthy (browse_of f) = true
  /\ js_gt (field (browse_of f) "length") (Fin 0) = Ok true.
Proof.
  intros H. destruct (has_preview_true f H) as (p & b & Hp & Tp & Hb & Tb & Hl).
  unfold browse_of. rewrite (get_Ok_field _ _ _ Hp), (get_Ok_field _ _ _ Hb).
  repeat split; try assumption.
  apply get0_field0. now apply truthy_not_nullish.
Qed.

(** The filter and the sort on well-typed features. *)
Lemma filter_typed (l : list value) :
  Forall (fun f => feature_typed f = true) l ->
  filterM has_preview l = Ok (filter has_browse_list l)
  /\ Forall propertied (filter has_browse_list l).
Proof.
  intros Hl. rewrite Forall_forall in Hl. split.
  - apply filterM_pure. intros x Hx. apply has_preview_typed. now apply Hl.
  - apply Forall_forall. intros x Hx. apply has_preview_propertied.
    apply filter_In in Hx. destruct Hx as [Hx Hbx].
    rewrite (has_preview_typed x (Hl x Hx)). now rewrite Hbx.
Qed.

Lemma Forall_eligible (P : value -> Prop) (l : list value) :
  Forall (fun f => has_browse_list f = true -> P f) l ->
  Forall P (filter has_browse_list l).
Proof.
  intros Hl. apply Forall_forall. intros x Hx. apply filter_In in Hx.
  destruct Hx as [Hx Hbx]. rewrite Forall_forall in Hl. now apply Hl.
Qed.

Lemma sortedFeatures_typed (l : list value) :
  Forall (fun f => feature_typed f = true) l ->
  sortedFeatures (Arr l) = Array_sort compareFn (filter has_browse_list l).
Proof.
  intros Hl. unfold sortedFeatures. cbn [as_array bind Monad_exc].
  destruct (filter_typed l Hl) as [-> _]. reflexivity.
Qed.

(** The run of a request for which a feature was selected. *)
Lemma handler_selected (env : Env) (req_body : value) (w : world)
    (data features f : value) (others : list value) :
  has_coordinates req_body -> printable_coordinates req_body -> configured env ->
  w (catalog_call req_body) = Ok data ->
  get data "features" = Ok features ->
  sortedFeatures features = Ok (f :: others) ->
  let key := env_string (IMAGGA_API_KEY env) in
  let secret := env_string (IMAGGA_API_SECRET env) in
  let url := field0 (browse_of f) in
  let cs := colors_of w url key secret in
  let tags := tags_of w url key secret in
  let md := metadata_of (field f "properties") (field req_body "latitude")
              (field req_body "longitude") in
  printable url = true ->
  run (handler env req_body) w
  = match prompt cs tags md with
    | Ok p =>
        (Ok (success url (answer_of w p (OPEN_ROUTER_API env))
               (field (field f "properties") "sceneName") tags cs md),
         (catalog_call req_body
          :: vision_calls url key secret ++ [PostLLM p (OPEN_ROUTER_API env)])%list)
    | Throw =>
        (Ok processing_error, catalog_call req_body :: vision_calls url key secret)
    end.
Proof.
  intros Hc Hprint Hcfg Hcat Hf Hs. cbv zeta. intros Hurl.
  destruct (sortedFeatures_inv features _ Hs) as (fs & kept & -> & Hk & _ & Pk & Hin).
  destruct (Hin f (or_introl eq_refl)) as [Hfs Hprev].
  destruct (preview_reads f Hprev) as (Hp & Hb & Hu & _).
  rewrite (handler_accepted env req_body w Hc Hprint Hcfg). unfold try_catch.
  rewrite (lookup_image_features env _ _ _ _ data (Arr fs) w Hcat Hf).
  assert (Hne : negb (truthy (Arr fs)) || strict_eq_zero (field (Arr fs) "length") = false).
  { destruct fs; [destruct Hfs | reflexivity]. }
  rewrite Hne, Hs.
  rewrite (interpret_run env _ _ _ _ f _ _ _ w _ Hp Hb Hu Hurl). cbv zeta.
  now destruct (prompt _ _ _).
Qed.

(** The run of a request for which a feature was selected whose first preview
    URL cannot be printed: the log line that follows the selection throws. *)
Lemma handler_selected_unprintable (env : Env) (req_body : value) (w : world)
    (data features f : value) (others : list value) :
  has_coordinates req_body -> printable_coordinates req_body -> configured env ->
  w (catalog_call req_body) = Ok data ->
  get data "features" = Ok features ->
  sortedFeatures features = Ok (f :: others) ->
  printable (field0 (browse_of f)) = false ->
  run (handler env req_body) w = (Ok processing_error, [catalog_call req_body]).
Proof.
  intros Hc Hprint Hcfg Hcat Hf Hs Hurl.
  destruct (sortedFeatures_inv features _ Hs) as (fs & kept & -> & Hk & _ & Pk & Hin).
  destruct (Hin f (or_introl eq_refl)) as [Hfs Hprev].
  destruct (preview_reads f Hprev) as (Hp & Hb & Hu & _).
  rewrite (handler_accepted env req_body w Hc Hprint Hcfg). unfold try_catch.
  rewrite (lookup_image_features env _ _ _ _ data (Arr fs) w Hcat Hf).
  assert (Hne : negb (truthy (Arr fs)) || strict_eq_zero (field (Arr fs) "length") = false).
  { destruct fs; [destruct Hfs | reflexivity]. }
  rewrite Hne, Hs.
  now rewrite (interpret_unprintable env _ _ _ _ f _ _ _ w _ Hp Hb Hu Hurl).
Qed.

Lemma not_encodable_when_unprintable (v : value) :
  printable v = false -> encodable v = false.
Proof.
  intros H. destruct (encodable v) eqn:E; [|reflexivity].
  apply encodable_printable in E. congruence.
Qed.

Lemma vision_calls_encodable (url : value) (key secret : string) :
  encodable url = true ->
  vision_calls url key secret = [GetColors url key secret; GetTags url key secret].
Proof. unfold vision_calls. now intros ->. Qed.

(** C1: when the catalog answers a request (whose coordinates can be printed,
    or the catalog is not called at all) with well-typed features of which at
    least one has a non-empty browse list, and those have valid capture
    times, the feature selected is the latest of the features with a
    non-empty browse list, the first in catalog order among equally late
    ones; its first browse URL is the image URL of the colors call and of the
    tags call, which follow the catalog call when that URL can be encoded
    (and are both left out when it cannot), and of the final answer;
    reordering the catalog does not change the capture time of the selected
    feature; and every stable sort of the eligible features, latest first,
    has the selected feature at its head. *)
Theorem latest_preview_selected (env : Env) (req_body : value) (w : world)
    (data : value) (fs : list value) :
  has_coordinates req_body -> printable_coordinates req_body -> configured env ->
  w (catalog_call req_body) = Ok data ->
  get data "features" = Ok (Arr fs) ->
  Forall (fun f => feature_typed f = true) fs ->
  Forall (fun f => has_browse_list f = true -> capture_time f <> None) fs ->
  Exists (fun f => has_browse_list f = true) fs ->
  exists f url more,
    latest_of (filter has_browse_list fs) f
    /\ browse_of f = Arr (url :: more)
    /\ (exists rest,
          snd (run (handler env req_body) w)
          = (catalog_call req_body
             :: (if encodable url
                 then [GetColors url (env_string (IMAGGA_API_KEY env))
                         (env_string (IMAGGA_API_SECRET env));
                       GetTags url (env_string (IMAGGA_API_KEY env))
                         (env_string (IMAGGA_API_SECRET env))]
                 else [])
             ++ rest)%list
          /\ (rest = [] \/ exists p, rest = [PostLLM p (OPEN_ROUTER_API env)]))
    /\ (forall resp,
          fst (run (handler env req_body) w) = Ok resp ->
          status resp = 200%Z -> field (body resp) "imageUrl" = url)
    /\ (forall fs' sorted',
          Permutation fs fs' ->
          sortedFeatures (Arr fs') = Ok sorted' ->
          exists f', hd_error sorted' = Some f' /\ capture_time f' = capture_time f)
    /\ (forall sorted,
          sorted_latest_first (filter has_browse_list fs) sorted ->
          hd_error sorted = Some f).
Proof.
  intros Hc Hprint Hcfg Hcat Hf Htyped Hvalid Hex.
  destruct (filter_typed fs Htyped) as [Hfilter Hprop].
  pose proof (Forall_eligible _ fs Hvalid) as Hval.
  (* the sort *)
  destruct (sort_returns (filter has_browse_list fs) Hprop) as (sorted & Hsort & Psort).
  { eapply Forall_impl; [|exact Hval]. intros x. apply valid_time_dated. }
  pose proof (sort_head _ _ Hprop Hval Hsort) as Hhead.
  destruct sorted as [|f others].
  { exfalso. apply Exists_exists in Hex. destruct Hex as (x & Hx & Hbx).
    assert (Hin : In x (filter has_browse_list fs)) by (apply filter_In; now split).
    rewrite Hhead in Hin. destruct Hin. }
  assert (Hsorted : sortedFeatures (Arr fs) = Ok (f :: others)).
  { now rewrite (sortedFeatures_typed fs Htyped). }
  assert (Hfin : In f (filter has_browse_list fs)).
  { apply Permutation_in with (f :: others); [now apply Permutation_sym | now left]. }
  apply filter_In in Hfin. destruct Hfin as [Hfin Hbf].
  assert (Hbrowse : exists url more, browse_of f = Arr (url :: more)).
  { unfold has_browse_list in Hbf. destruct (browse_of f) as [| | | | |[|u m]|];
      try discriminate. now exists u, m. }
  destruct Hbrowse as (url & more & Hbrowse).
  exists f, url, more. split; [exact Hhead |]. split; [exact Hbrowse |].
  assert (Hrun :
            (exists rest,
               snd (run (handler env req_body) w)
               = (catalog_call req_body
                  :: vision_calls url (env_string (IMAGGA_API_KEY env))
                       (env_string (IMAGGA_API_SECRET env)) ++ rest)%list
               /\ (rest = [] \/ exists p, rest = [PostLLM p (OPEN_ROUTER_API env)]))
            /\ (forall resp,
                  fst (run (handler env req_body) w) = Ok resp ->
                  status resp = 200%Z -> field (body resp) "imageUrl" = url)).
  { destruct (printable url) eqn:Hurl.
    - pose proof (handler_selected env req_body w data (Arr fs) f others
                    Hc Hprint Hcfg Hcat Hf Hsorted) as Hrun.
      cbv zeta in Hrun. rewrite Hbrowse in Hrun. cbn [field0 get0] in Hrun.
      rewrite (Hrun Hurl). destruct (prompt _ _ _); cbn [fst snd]; split.
      + eexists. split; [reflexivity |]. right. now eexists.
      + intros resp Hresp _. now inversion Hresp.
      + exists []. rewrite app_nil_r. split; [reflexivity | now left].
      + intros resp Hresp Hstatus. inversion Hresp; subst resp. discriminate.
    - pose proof (handler_selected_unprintable env req_body w data (Arr fs) f others
                    Hc Hprint Hcfg Hcat Hf Hsorted) as Hrun.
      rewrite Hbrowse in Hrun. cbn [field0 get0] in Hrun.
      rewrite (Hrun Hurl). cbn [fst snd]. split.
      + exists []. unfold vision_calls.
        rewrite (not_encodable_when_unprintable url Hurl).
        split; [reflexivity | now left].
      + intros resp Hresp Hstatus. inversion Hresp; subst resp. discriminate. }
  destruct Hrun as [Htrace Hurl].
  split; [exact Htrace |]. split; [exact Hurl |]. split.
  - intros fs' sorted' Pfs Hsorted'.
    assert (Htyped' : Forall (fun f => feature_typed f = true) fs').
    { apply Forall_forall. intros x Hx. rewrite Forall_forall in Htyped.
      apply Htyped. apply Permutation_in with fs'; [now apply Permutation_sym | assumption]. }
    assert (Hvalid' : Forall (fun f => has_browse_list f = true -> capture_time f <> None) fs').
    { apply Forall_forall. intros x Hx. rewrite Forall_forall in Hvalid.
      apply Hvalid. apply Permutation_in with fs'; [now apply Permutation_sym | assumption]. }
    rewrite (sortedFeatures_typed fs' Htyped') in Hsorted'.
    destruct (filter_typed fs' Htyped') as [_ Hprop'].
    pose proof (sort_head _ _ Hprop' (Forall_eligible _ fs' Hvalid') Hsorted') as Hhead'.
    assert (Pfilter : Permutation (filter has_browse_list fs) (filter has_browse_list fs')).
    { clear -Pfs. induction Pfs; simpl.
      - constructor.
      - destruct (has_browse_list x); [now constructor | assumption].
      - destruct (has_browse_list x), (has_browse_list y);
          try apply perm_swap; try apply Permutation_refl.
      - eapply perm_trans; eassumption. }
    destruct sorted' as [|f' others'].
    { exfalso.
      assert (Hin : In f (filter has_browse_list fs')).
      { apply Permutation_in with (filter has_browse_list fs); [assumption |].
        apply filter_In. now split. }
      rewrite Hhead' in Hin. destruct Hin. }
    exists f'. split; [reflexivity |].
    exact (latest_of_permutation _ _ f f' Hval Pfilter Hhead Hhead').
  - intros s Hs. destruct s as [|g s].
    + exfalso. destruct Hs as (P & _).
      apply Permutation_sym, Permutation_nil in P.
      assert (Hin : In f (filter has_browse_list fs)) by (apply filter_In; now split).
      rewrite P in Hin. destruct Hin.
    + pose proof (sorted_latest_first_head _ g s Hval Hs) as Hg.
      simpl. f_equal. exact (latest_of_unique _ g f Hg Hhead).
Qed.


(** C2: for a tags answer whose tags are well typed (objects with a tag object
    and a numeric confidence), asked for an image URL that can be encoded, the
    retained tags are the tags with a confidence above 15, cut to the first
    five in the order of the answer, each replaced by its English label; on a
    numeric confidence the test is the strict comparison with 15, so a
    confidence of exactly 15 is dropped. *)
Theorem retained_tags_spec (w : world) (imageUrl : value) (key secret : string)
    (data : value) (ts : list value) (tr : list call) :
  encodable imageUrl = true ->
  w (GetTags imageUrl key secret) = Ok data ->
  field (field data "result") "tags" = Arr ts ->
  Forall (fun t => tag_typed t = true) ts ->
  imageTags imageUrl key secret w tr
  = (Ok (map english_label (firstn 5 (filter over_15 ts))),
     (tr ++ [GetTags imageUrl key secret])%list)
  /\ (forall t q, field t "confidence" = Num (Fin q) ->
        (over_15 t = true <-> (inject_Z 15 < q)%Q))
  /\ (forall t q, field t "confidence" = Num (Fin q) ->
        (q == inject_Z 15)%Q -> over_15 t = false).
Proof.
  intros Henc Hw Htags Htyped.
  assert (Hover : forall t q, field t "confidence" = Num (Fin q) ->
            (over_15 t = true <-> (inject_Z 15 < q)%Q)).
  { intros t q Hq. unfold over_15, js_gt. rewrite Hq.
    cbn [to_number bind Monad_exc num_gt].
    rewrite negb_true_iff. split; intros H.
    - apply Qnot_le_lt. intros Hle. apply Qle_bool_iff in Hle. congruence.
    - destruct (Qle_bool q (inject_Z 15)) eqn:E; [|reflexivity].
      apply Qle_bool_iff in E. exfalso. exact (Qlt_not_le _ _ H E). }
  split; [|split].
  - rewrite imageTags_run, Henc. f_equal. f_equal.
    rewrite (tags_of_answer w imageUrl key secret data Henc Hw).
    assert (Hres : truthy (field data "result") = true).
    { destruct (field data "result") as [| |b|n|s|xs|fs]; try reflexivity;
        cbn in Htags; discriminate. }
    assert (Hdata : truthy data = true).
    { destruct (truthy data) eqn:T; [reflexivity |].
      assert ("result" <> "length") as Hn by discriminate.
      rewrite (field_falsy_undefined data "result" T Hn) in Hres. discriminate. }
    unfold imageTags_of, and_then. cbn [bind Monad_exc]. rewrite Hdata.
    rewrite (get_field data "result") by now apply truthy_not_nullish.
    cbn [bind Monad_exc]. rewrite Hres.
    rewrite (get_field _ "tags") by now apply truthy_not_nullish.
    rewrite Htags. cbn [truthy]. now rewrite (retained_tags_typed ts Htyped).
  - exact Hover.
  - intros t q Hq Heq. destruct (over_15 t) eqn:E; [|reflexivity].
    apply (Hover t q Hq) in E. rewrite Heq in E. exfalso. exact (Qlt_irrefl _ E).
Qed.

(** C4: once the prompt is built (for a request whose coordinates and image
    URL can be printed; without that no prompt is built), a failing call to
    the language model leaves exactly the placeholder as explanation, in a 200
    answer with every other field as usual; when the call succeeds the
    explanation is the message content of the first choice if it is there,
    else its [text], else the empty string. *)
Theorem llm_failure_placeholder (env : Env) (req_body : value) (w : world)
    (data features f : value) (others : list value) (p : string) :
  has_coordinates req_body -> printable_coordinates req_body -> configured env ->
  w (catalog_call req_body) = Ok data ->
  get data "features" = Ok features ->
  sortedFeatures features = Ok (f :: others) ->
  let key := env_string (IMAGGA_API_KEY env) in
  let secret := env_string (IMAGGA_API_SECRET env) in
  let url := field0 (browse_of f) in
  let cs := colors_of w url key secret in
  let tags := tags_of w url key secret in
  let md := metadata_of (field f "properties") (field req_body "latitude")
              (field req_body "longitude") in
  let calls := (catalog_call req_body
                :: vision_calls url key secret ++ [PostLLM p (OPEN_ROUTER_API env)])%list in
  let answer explanation :=
    {| status := 200;
       body := Obj [("imageUrl", url);
                    ("explanation", explanation);
                    ("sceneName", field (field f "properties") "sceneName");
                    ("imageTags", Arr tags);
                    ("imageColors", cs);
                    ("metadata", md)] |} in
  printable url = true ->
  prompt cs tags md = Ok p ->
  (w (PostLLM p (OPEN_ROUTER_API env)) = Throw ->
   run (handler env req_body) w
   = (Ok (answer (Str "AI interpretation unavailable due to service error.")), calls))
  /\ (forall reply,
        w (PostLLM p (OPEN_ROUTER_API env)) = Ok reply ->
        let choice := first_choice reply in
        run (handler env req_body) w
        = (Ok (answer (if truthy (message_content choice) then message_content choice
                       else if truthy (legacy_text choice) then legacy_text choice
                       else Str "")), calls)).
Proof.
  intros Hc Hprint Hcfg Hcat Hf Hs key secret url cs tags md calls answer Hurl Hp.
  pose proof (handler_selected env req_body w data features f others
                Hc Hprint Hcfg Hcat Hf Hs Hurl) as Hrun.
  cbv zeta in Hrun. fold key secret url cs tags md in Hrun. rewrite Hp in Hrun.
  split.
  - intros Hw. rewrite Hrun. now rewrite (answer_of_failed w p _ Hw).
  - intros reply Hw choice. rewrite Hrun.
    now rewrite (answer_of_answer w p _ reply Hw).
Qed.

(** C6: when the catalog answers a request (whose coordinates can be printed,
    or the catalog is not called at all) without features (absent or empty),
    the answer is the 404 "No SAR data found for this location."; when it
    answers with well-typed features none of which has a non-empty browse
    list, the answer is the 404 "SAR data found, but no preview images are
    available."; in both cases the catalog call is the only outbound call. *)
Theorem not_found_answers (env : Env) (req_body : value) (w : world)
    (data features : value) :
  has_coordinates req_body -> printable_coordinates req_body -> configured env ->
  w (catalog_call req_body) = Ok data ->
  get data "features" = Ok features ->
  ((features = Undefined \/ features = Null \/ features = Arr []) ->
   run (handler env req_body) w
   = (Ok {| status := 404;
            body := Obj [("error", Str "No SAR data found for this location.")] |},
      [catalog_call req_body]))
  /\ (forall fs,
        features = Arr fs -> fs <> [] ->
        Forall (fun f => feature_typed f = true) fs ->
        (forall f, In f fs -> has_browse_list f = false) ->
        run (handler env req_body) w
        = (Ok {| status := 404;
                 body := Obj [("error",
                               Str "SAR data found, but no preview images are available.")] |},
           [catalog_call req_body])).
Proof.
  intros Hc Hprint Hcfg Hcat Hf.
  rewrite (handler_accepted env req_body w Hc Hprint Hcfg). unfold try_catch.
  rewrite (lookup_image_features env _ _ _ _ data features w Hcat Hf).
  split.
  - intros [-> | [-> | ->]]; reflexivity.
  - intros fs -> Hne Htyped Hnone.
    assert (Hl : negb (truthy (Arr fs)) || strict_eq_zero (field (Arr fs) "length") = false).
    { destruct fs; [now destruct Hne | reflexivity]. }
    rewrite Hl. rewrite (sortedFeatures_typed fs Htyped).
    assert (Hnil : filter has_browse_list fs = []).
    { clear -Hnone. induction fs as [|x fs IH]; [reflexivity |]. simpl.
      rewrite (Hnone x) by now left. apply IH. intros y Hy. apply Hnone. now right. }
    rewrite Hnil.
    destruct (Array_sort compareFn []) as [s|] eqn:Hs.
    + apply Array_sort_permutes, Permutation_nil in Hs. now subst s.
    + exfalso. apply (Array_sort_returns compareFn []); [intros a b [] | exact Hs].
Qed.

(** The text of the prompt around its first two interpolations. *)
Lemma prompt_shape (cs : value) (tags : list value) (md : value) (p : string) :
  prompt cs tags md = Ok p ->
  exists text tagtext,
    colorText cs = Ok text
    /\ tagsText tags = Ok tagtext
    /\ contains p ("Detected color percentages:" ++ newline ++ text ++ newline
                   ++ newline ++ "Also detected visual tags: " ++ tagtext ++ ".").
Proof.
  unfold prompt. cbn [bind Monad_exc].
  destruct (colorText cs) as [text|]; [|discriminate].
  destruct (tagsText tags) as [tt|]; [|discriminate].
  intros H. inversion H as [Hp]. clear H. exists text, tt.
  split; [reflexivity |]. split; [reflexivity |].
  unfold trim, prompt_template.
  set (js := JSON_stringify md).
  set (pre := substring 1 (String.length prompt_intro - 29) prompt_intro).
  set (rest := substring 1 (String.length prompt_chart - 1) prompt_chart).
  set (body := "Detected color percentages:" ++ newline ++ text ++ newline
               ++ newline ++ "Also detected visual tags: " ++ tt).
  assert (Hstart :
            trimStart (prompt_intro ++ text ++ prompt_tags_label ++ tt ++ prompt_chart
                       ++ js ++ prompt_end)
            = (pre ++ body) ++ String "." (rest ++ js ++ prompt_end)).
  { transitivity ((pre ++ "Detected color percentages:" ++ newline)
                  ++ text ++ prompt_tags_label ++ tt ++ prompt_chart ++ js ++ prompt_end).
    - reflexivity.
    - subst body. rewrite !string_app_assoc. reflexivity. }
  rewrite Hstart.
  destruct (trimEnd_keeps (pre ++ body) (rest ++ js ++ prompt_end) "."%char eq_refl)
    as [q Hq].
  rewrite Hq. exists pre, q. subst body.
  rewrite !string_app_assoc. reflexivity.
Qed.

Lemma colorText_empty : colorText (Arr []) = Ok "No color data available".
Proof. reflexivity. Qed.

(** The prompt is built exactly when the colors and the tags can be
    rendered. *)
Lemma prompt_built (cs : value) (tags : list value) (md : value) (text tagtext : string) :
  colorText cs = Ok text -> tagsText tags = Ok tagtext ->
  exists p, prompt cs tags md = Ok p.
Proof. intros Hc Ht. unfold prompt. rewrite Hc, Ht. now eexists. Qed.

(** C7: the prompt sent to the language model is the function [prompt] of the
    colors, the tags and the metadata of the answer, so two runs that agree on
    these three send the same bytes; the prompt has no leading or trailing
    white space; with no colors it reads "No color data available" (whenever
    the tags can be joined, so that there is a prompt) and with no tags "None"
    at the places of the lists. *)
Theorem prompt_deterministic_and_trimmed :
  (forall env req_body w resp tr,
     run (handler env req_body) w = (Ok resp, tr) -> status resp = 200%Z ->
     exists p,
       prompt (field (body resp) "imageColors")
         (elements (field (body resp) "imageTags"))
         (field (body resp) "metadata") = Ok p
       /\ prompts_sent tr = [p])
  /\ (forall env1 body1 w1 resp1 tr1 env2 body2 w2 resp2 tr2,
        run (handler env1 body1) w1 = (Ok resp1, tr1) -> status resp1 = 200%Z ->
        run (handler env2 body2) w2 = (Ok resp2, tr2) -> status resp2 = 200%Z ->
        field (body resp1) "imageColors" = field (body resp2) "imageColors" ->
        field (body resp1) "imageTags" = field (body resp2) "imageTags" ->
        field (body resp1) "metadata" = field (body resp2) "metadata" ->
        prompts_sent tr1 = prompts_sent tr2)
  /\ (forall cs tags md p,
        prompt cs tags md = Ok p -> starts_ws p = false /\ ends_ws p = false)
  /\ (forall tags md tagtext,
        tagsText tags = Ok tagtext ->
        exists p,
          prompt (Arr []) tags md = Ok p
          /\ contains p ("Detected color percentages:" ++ newline
                         ++ "No color data available" ++ newline))
  /\ (forall cs md p,
        prompt cs [] md = Ok p -> contains p "Also detected visual tags: None.").
Proof.
  assert (Hsent : forall env req_body w resp tr,
            run (handler env req_body) w = (Ok resp, tr) -> status resp = 200%Z ->
            exists p,
              prompt (field (body resp) "imageColors")
                (elements (field (body resp) "imageTags"))
                (field (body resp) "metadata") = Ok p
              /\ prompts_sent tr = [p]).
  { intros env req_body w resp tr Hrun Hstatus. apply handler_inv in Hrun.
    inversion Hrun; subst; try discriminate.
    exists p. split; [assumption |].
    unfold vision_calls. now destruct (encodable imageUrl). }
  split; [exact Hsent |]. split; [|split; [|split]].
  - intros env1 body1 w1 resp1 tr1 env2 body2 w2 resp2 tr2 H1 S1 H2 S2 Ec Et Em.
    destruct (Hsent _ _ _ _ _ H1 S1) as (p1 & Hp1 & ->).
    destruct (Hsent _ _ _ _ _ H2 S2) as (p2 & Hp2 & ->).
    rewrite Ec, Et, Em in Hp1. rewrite Hp1 in Hp2. now inversion Hp2.
  - intros cs tags md p. unfold prompt. cbn [bind Monad_exc].
    destruct (colorText cs); [|discriminate].
    destruct (tagsText tags); [|discriminate].
    intros H. inversion H. split; [apply trim_no_leading_ws | apply trim_no_trailing_ws].
  - intros tags md tagtext Htags.
    destruct (prompt_built (Arr []) tags md _ _ colorText_empty Htags) as [p Hp].
    exists p. split; [exact Hp |].
    destruct (prompt_shape _ _ _ _ Hp) as (text & tt & Ht & _ & pre & post & Hc).
    rewrite colorText_empty in Ht. inversion Ht; subst text.
    exists pre, (newline ++ "Also detected visual tags: " ++ tt ++ "." ++ post).
    rewrite Hc. rewrite !string_app_assoc. reflexivity.
  - intros cs md p Hp.
    destruct (prompt_shape _ _ _ _ Hp) as (text & tt & Ht & Htt & pre & post & Hc).
    cbn [tagsText] in Htt. inversion Htt; subst tt.
    exists (pre ++ "Detected color percentages:" ++ newline ++ text ++ newline ++ newline), post.
    rewrite Hc. rewrite !string_app_assoc. reflexivity.
Qed.


(** C10: on features that are objects and whose [browse.length] and start
    time can be converted (a conversion that fails is the only other way the
    filter and the sort end), the filter and the sort do not throw: no read
    hits a missing [properties] or [browse]; what they keep has [properties]
    and a truthy [browse] of positive length, so the reads that follow the
    selection succeed; a feature without [properties], or without [browse], or
    with an empty one, is not kept; and a kept feature whose [browse] is a
    list has a non-empty one. *)
Theorem filter_guards_property_reads (fs : list value) :
  Forall (fun f => nullish f = false) fs ->
  Forall (fun f => printable (field (browse_of f) "length") = true) fs ->
  Forall (fun f => printable (start_time f) = true) fs ->
  exists sorted,
    sortedFeatures (Arr fs) = Ok sorted
    /\ (forall f, In f sorted ->
          In f fs
          /\ exists properties browse url,
               get f "properties" = Ok properties
               /\ get properties "browse" = Ok browse
               /\ truthy browse = true
               /\ js_gt (field browse "length") (Fin 0) = Ok true
               /\ get0 browse = Ok url)
    /\ (forall f, In f fs ->
          (nullish (field f "properties") = true
           \/ nullish (browse_of f) = true
           \/ browse_of f = Arr []) ->
          ~ In f sorted)
    /\ (forall f, In f sorted -> feature_typed f = true -> has_browse_list f = true).
Proof.
  intros Hobj Hlen Hdated. rewrite Forall_forall in Hobj, Hlen, Hdated.
  destruct (filterM_total has_preview fs) as [kept Hk].
  { intros x Hx. apply has_preview_total; auto. }
  assert (Hp : Forall propertied kept).
  { apply Forall_forall. intros f Hf. apply has_preview_propertied.
    now apply (filterM_In _ _ _ Hk). }
  destruct (sort_returns kept Hp) as (sorted & Hs & Ps).
  { apply Forall_forall. intros f Hf. apply Date_new_printable, Hdated.
    now apply (filterM_In _ _ _ Hk). }
  assert (Hsorted : sortedFeatures (Arr fs) = Ok sorted).
  { unfold sortedFeatures. cbn [as_array bind Monad_exc]. now rewrite Hk. }
  assert (Hkept : forall f, In f sorted -> In f fs /\ has_preview f = Ok true).
  { intros f Hf. apply (filterM_In _ _ _ Hk).
    apply Permutation_in with sorted; [now apply Permutation_sym | assumption]. }
  exists sorted. split; [exact Hsorted |]. split; [|split].
  - intros f Hf. destruct (Hkept f Hf) as [Hin Hprev]. split; [exact Hin |].
    destruct (preview_reads f Hprev) as (H1 & H2 & H3 & H4 & H5).
    now exists (field f "properties"), (browse_of f), (field0 (browse_of f)).
  - intros f Hin Habsent Hf. destruct (Hkept f Hf) as [_ Hprev].
    destruct (has_preview_true f Hprev) as (p & b & Hgp & Tp & Hgb & Tb & Hl).
    unfold browse_of in Habsent.
    rewrite (get_Ok_field _ _ _ Hgp), (get_Ok_field _ _ _ Hgb) in Habsent.
    destruct Habsent as [Hn | [Hn | Hn]].
    + apply truthy_not_nullish in Tp. congruence.
    + apply truthy_not_nullish in Tb. congruence.
    + subst b. discriminate.
  - intros f Hf Htyped. destruct (Hkept f Hf) as [_ Hprev].
    rewrite (has_preview_typed f Htyped) in Hprev. now inversion Hprev.
Qed.

End Route.

(** C9 (amended): every call to the health route is answered 200 with the
    status "ok" and the reading of the clock as timestamp, so the timestamps
    of successive calls increase strictly exactly when the readings of the
    clock do. *)
Theorem health_reports_clock (clock : list Z) :
  Forall (fun r => status r = 200%Z /\ field (body r) "status" = Str "ok")
    (health_calls clock)
  /\ map timestamp_ms (health_calls clock) = map Some clock
  /\ (strictly_increasing (map timestamp_ms (health_calls clock))
      <-> strictly_increasing (map Some clock)).
Proof.
  assert (H : map timestamp_ms (health_calls clock) = map Some clock).
  { unfold health_calls. rewrite map_map. apply map_ext. intros now. reflexivity. }
  split; [|split].
  - unfold health_calls. apply Forall_forall. intros r Hr.
    apply in_map_iff in Hr. destruct Hr as (now & <- & _). now split.
  - exact H.
  - now rewrite H.
Qed.

(** ** The properties on the sample data *)

Lemma sample_has_coordinates : has_coordinates Sample.request.
Proof. split; intros H; vm_compute in H; discriminate. Defined.

Lemma sample_printable : printable_coordinates Sample.request.
Proof. split; reflexivity. Defined.

Lemma sample_configured : configured Sample.env.
Proof. split; reflexivity. Defined.

Lemma sample_sorted :
  sortedFeatures (Arr Sample.features)
  = Ok [Sample.scene_b; Sample.scene_c; Sample.scene_a].
Proof. vm_compute. reflexivity. Defined.

(** The sample features in the order of the sort, which is the stable order,
    latest first. *)
Lemma sample_stable_order :
  sortedFeatures (Arr Sample.features)
  = Ok [Sample.scene_b; Sample.scene_c; Sample.scene_a]
  /\ sorted_latest_first (filter has_browse_list Sample.features)
       [Sample.scene_b; Sample.scene_c; Sample.scene_a].
Proof.
  split; [exact sample_sorted |].
  apply sort_sorted_latest_first.
  - repeat constructor; eexists; (split; [reflexivity | reflexivity]).
  - repeat constructor; vm_compute; discriminate.
  - vm_compute. reflexivity.
Defined.

(** The tags of the eighth property of the specification: six confidences, of
    which five are above 15. *)
Example tags_of_six :
  retained_tags
    (Arr [Sample.tag "a" 10; Sample.tag "b" 16; Sample.tag "c" 50;
          Sample.tag "d" 20; Sample.tag "e" 99; Sample.tag "f" 30])
  = Ok [Str "b"; Str "c"; Str "d"; Str "e"; Str "f"].
Proof. vm_compute. reflexivity. Qed.

(** A feature that is [null] makes the filter throw: the answer is the 500 of
    the outer [catch]. *)
Example null_feature_fails :
  run (handler Sample.env Sample.request)
      (fun c => match c with
                | GetCatalog _ _ => Ok (Obj [("features", Arr [Null])])
                | _ => Throw
                end)
  = (Ok processing_error, [catalog_call Sample.request]).
Proof. vm_compute. reflexivity. Qed.

(** A preview URL that cannot be printed ends the request at the log line
    that follows the selection: the answer is the 500 of the outer [catch],
    after the catalog call alone. *)
Example unprintable_url_fails :
  run (handler Sample.env Sample.request)
      (Sample.world_browse (Arr [Obj [("toString", Sample.num 1)]]))
  = (Ok processing_error, [catalog_call Sample.request]).
Proof. vm_compute. reflexivity. Qed.

(** A preview URL with a lone surrogate cannot be encoded: neither vision call
    is made, and the answer is a 200 without colors and tags. *)
Example unencodable_url_skips_vision_calls :
  let w := Sample.world_browse (Arr [Str Sample.lone_surrogate_text]) in
  exists resp p,
    run (handler Sample.env Sample.request) w
    = (Ok resp, [catalog_call Sample.request; PostLLM p (Some "token")])
    /\ status resp = 200%Z
    /\ field (body resp) "imageColors" = Arr []
    /\ field (body resp) "imageTags" = Arr [].
Proof. vm_compute. do 2 eexists. repeat split. Qed.

(** C3 (a defect of the code): a colors answer whose body has the nesting but
    a malformed entry (a percentage that is a string) is not absorbed.  The
    inner [try] keeps the list as it is, the rendering of the colors is
    outside that [try], and the request ends with the 500 of the outer [catch],
    after the colors and the tags calls, instead of a 200 with an empty color
    list. *)
Theorem malformed_colors_abort_the_request :
  let answer :=
    Obj [("result",
          Obj [("colors",
                Obj [("image_colors",
                      Arr [Obj [("color_name", Str "grey");
                                ("percent", Str "37.7")]])])])] in
  let w := fun c => match c with
                    | GetColors _ _ _ => Ok answer
                    | _ => Sample.world_ok c
                    end in
  colors_nesting_absent answer = false
  /\ colors_of w Sample.image_url "key" "secret"
     = Arr [Obj [("color_name", Str "grey"); ("percent", Str "37.7")]]
  /\ run (handler Sample.env Sample.request) w
     = (Ok {| status := 500;
              body := Obj [("error", Str "Failed to process SAR data.")] |},
        [catalog_call Sample.request;
         GetColors Sample.image_url "key" "secret";
         GetTags Sample.image_url "key" "secret"]).
Proof. vm_compute. repeat split. Qed.

(** C5 (a defect of the code): on a body that lacks the longitude and whose
    latitude is an object with a [toString] property, the log line that
    precedes the validation throws, so the handler sends no 400, and no other
    answer, whatever the configuration and the services are. *)
Theorem log_line_throws_before_validation :
  let req_body := Obj [("latitude", Obj [("toString", Sample.num 1)])] in
  field req_body "longitude" = Undefined
  /\ forall (env : Env) (w : world), run (handler env req_body) w = (Throw, []).
Proof. split; [reflexivity |]. intros env w. reflexivity. Qed.

Lemma latest_preview_selected_witness :
  exists f url more,
    latest_of (filter has_browse_list Sample.features) f
    /\ browse_of f = Arr (url :: more)
    /\ (exists p,
          snd (run (handler Sample.env Sample.request) Sample.world_ok)
          = [catalog_call Sample.request; GetColors url "key" "secret";
             GetTags url "key" "secret"; PostLLM p (Some "token")])
    /\ (forall resp,
          fst (run (handler Sample.env Sample.request) Sample.world_ok) = Ok resp ->
          status resp = 200%Z -> field (body resp) "imageUrl" = url)
    /\ (forall fs' sorted',
          Permutation Sample.features fs' ->
          sortedFeatures (Arr fs') = Ok sorted' ->
          exists f', hd_error sorted' = Some f' /\ capture_time f' = capture_time f)
    /\ (forall sorted,
          sorted_latest_first (filter has_browse_list Sample.features) sorted ->
          hd_error sorted = Some f).
Proof.
  destruct (latest_preview_selected Sample.env Sample.request Sample.world_ok
              Sample.catalog_data Sample.features)
    as (f & url & more & Hlatest & Hbrowse & (rest & Htrace & Hrest) & Hurl & Hperm & Hhead).
  - exact sample_has_coordinates.
  - exact sample_printable.
  - exact sample_configured.
  - reflexivity.
  - reflexivity.
  - repeat constructor.
  - repeat constructor; intros H;
      first [vm_compute in H; discriminate H | vm_compute; discriminate].
  - apply Exists_cons_hd. reflexivity.
  - exists f, url, more. repeat split; try assumption.
    assert (Hf : f = Sample.scene_b).
    { specialize (Hhead [Sample.scene_b; Sample.scene_c; Sample.scene_a]).
      cbn [hd_error] in Hhead.
      assert (Hs : Some Sample.scene_b = Some f); [|now inversion Hs].
      apply Hhead.
      destruct (sample_stable_order) as [Hsorted Hok].
      exact Hok. }
    subst f. vm_compute in Hbrowse. inversion Hbrowse; subst url more.
    destruct Hrest as [-> | [p ->]].
    + vm_compute in Htrace. discriminate Htrace.
    + exists p. rewrite Htrace. reflexivity.
Defined.

Lemma retained_tags_spec_witness :
  imageTags (Str "https://img/b.jpg") "key" "secret" Sample.world_ok []
  = (Ok [Str "ice"; Str "coast"; Str "city"; Str "port"; Str "river"],
     [GetTags (Str "https://img/b.jpg") "key" "secret"]).
Proof.
  destruct (retained_tags_spec Sample.world_ok (Str "https://img/b.jpg") "key" "secret"
              Sample.tags_data Sample.tags []) as [H _].
  - reflexivity.
  - reflexivity.
  - reflexivity.
  - repeat constructor.
  - rewrite H. reflexivity.
Defined.

Lemma llm_failure_placeholder_witness :
  exists resp,
    run (handler Sample.env Sample.request) Sample.world_no_llm
    = (Ok resp,
       [catalog_call Sample.request;
        GetColors Sample.image_url "key" "secret";
        GetTags Sample.image_url "key" "secret";
        PostLLM (Sample.prompt_text Sample.world_no_llm) (Some "token")])
    /\ status resp = 200%Z
    /\ field (body resp) "explanation"
       = Str "AI interpretation unavailable due to service error."
    /\ field (body resp) "imageUrl" = Sample.image_url.
Proof.
  destruct (llm_failure_placeholder Sample.env Sample.request Sample.world_no_llm
              Sample.catalog_data (Arr Sample.features) Sample.scene_b
              [Sample.scene_c; Sample.scene_a]
              (Sample.prompt_text Sample.world_no_llm))
    as [Hfail _].
  - exact sample_has_coordinates.
  - exact sample_printable.
  - exact sample_configured.
  - reflexivity.
  - reflexivity.
  - exact sample_sorted.
  - reflexivity.
  - vm_compute. reflexivity.
  - eexists. split; [apply Hfail; reflexivity |]. repeat split.
Defined.

Lemma not_found_answers_witness :
  run (handler Sample.env Sample.request) Sample.world_empty
  = (Ok {| status := 404;
           body := Obj [("error", Str "No SAR data found for this location.")] |},
     [catalog_call Sample.request])
  /\ run (handler Sample.env Sample.request) Sample.world_no_previews
     = (Ok {| status := 404;
              body := Obj [("error",
                            Str "SAR data found, but no preview images are available.")] |},
        [catalog_call Sample.request]).
Proof.
  split.
  - destruct (not_found_answers Sample.env Sample.request Sample.world_empty
                (Obj [("features", Arr [])]) (Arr []))
      as [Hempty _].
    + exact sample_has_coordinates.
    + exact sample_printable.
    + exact sample_configured.
    + reflexivity.
    + reflexivity.
    + apply Hempty. right. right. reflexivity.
  - destruct (not_found_answers Sample.env Sample.request Sample.world_no_previews
                (Obj [("features", Arr [Sample.scene_d; Sample.scene_e])])
                (Arr [Sample.scene_d; Sample.scene_e]))
      as [_ Hnone].
    + exact sample_has_coordinates.
    + exact sample_printable.
    + exact sample_configured.
    + reflexivity.
    + reflexivity.
    + apply (Hnone [Sample.scene_d; Sample.scene_e]).
      * reflexivity.
      * discriminate.
      * repeat constructor.
      * intros f [<- | [<- | []]]; reflexivity.
Defined.

Lemma prompt_deterministic_and_trimmed_witness :
  prompts_sent (snd (run (handler Sample.env Sample.request) Sample.world_ok))
  = [Sample.prompt_text Sample.world_ok]
  /\ starts_ws (Sample.prompt_text Sample.world_ok) = false
  /\ ends_ws (Sample.prompt_text Sample.world_ok) = false
  /\ contains (Sample.prompt_text Sample.world_no_colors)
       ("Detected color percentages:" ++ newline ++ "No color data available" ++ newline).
Proof.
  destruct prompt_deterministic_and_trimmed as (Hsent & _ & Htrim & Hcolors & _).
  split; [|split; [|split]].
  - destruct (Hsent Sample.env Sample.request Sample.world_ok
                (match fst (run (handler Sample.env Sample.request) Sample.world_ok) with
                 | Ok resp => resp
                 | Throw => processing_error
                 end)
                (snd (run (handler Sample.env Sample.request) Sample.world_ok)))
      as (p & Hp & Hs).
    + vm_compute. reflexivity.
    + reflexivity.
    + rewrite Hs. f_equal. vm_compute in Hp. vm_compute. now inversion Hp.
  - apply (Htrim (colors_of Sample.world_ok Sample.image_url "key" "secret")
             (tags_of Sample.world_ok Sample.image_url "key" "secret")
             (metadata_of (field Sample.scene_b "properties")
                (field Sample.request "latitude") (field Sample.request "longitude"))).
    vm_compute. reflexivity.
  - apply (Htrim (colors_of Sample.world_ok Sample.image_url "key" "secret")
             (tags_of Sample.world_ok Sample.image_url "key" "secret")
             (metadata_of (field Sample.scene_b "properties")
                (field Sample.request "latitude") (field Sample.request "longitude"))).
    vm_compute. reflexivity.
  - destruct (Hcolors (tags_of Sample.world_no_colors Sample.image_url "key" "secret")
                (metadata_of (field Sample.scene_b "properties")
                   (field Sample.request "latitude") (field Sample.request "longitude"))
                "ice, coast, city, port, river")
      as (p & Hp & Hc).
    { vm_compute. reflexivity. }
    replace (Sample.prompt_text Sample.world_no_colors) with p; [exact Hc |].
    vm_compute in Hp. vm_compute. now inversion Hp.
Defined.



(** With the key of the language-model provider unset and a provider that
    rejects the call, the answer is still 200, with the placeholder. *)
Example missing_llm_key_degrades :
  let r := fst (run (handler Sample.env_no_llm Sample.request) Sample.world_no_llm) in
  exists resp,
    r = Ok resp /\ status resp = 200%Z
    /\ field (body resp) "explanation" = Str service_error.
Proof. vm_compute. eexists. repeat split. Qed.

(** C9, as stated, fails: two calls within the same millisecond carry the same
    timestamp. *)
Lemma health_timestamps_can_repeat :
  map timestamp_ms (health_calls [1700000000000; 1700000000000]%Z)
  = [Some 1700000000000; Some 1700000000000]%Z
  /\ ~ strictly_increasing
         (map timestamp_ms (health_calls [1700000000000; 1700000000000]%Z)).
Proof.
  split; [reflexivity |]. vm_compute. intros [H _]. discriminate H.
Qed.

Lemma filter_guards_property_reads_witness :
  exists sorted,
    sortedFeatures (Arr Sample.features) = Ok sorted
    /\ (forall f, In f sorted ->
          In f Sample.features
          /\ exists properties browse url,
               get f "properties" = Ok properties
               /\ get properties "browse" = Ok browse
               /\ truthy browse = true
               /\ js_gt (field browse "length") (Fin 0) = Ok true
               /\ get0 browse = Ok url)
    /\ ~ In Sample.scene_d sorted
    /\ ~ In Sample.scene_e sorted.
Proof.
  destruct (filter_guards_property_reads Sample.features)
    as (sorted & Hsorted & Hreads & Hexcluded & _).
  - repeat constructor.
  - repeat constructor.
  - repeat constructor.
  - exists sorted. split; [exact Hsorted |]. split; [exact Hreads |]. split.
    + apply Hexcluded.
      * right. left. reflexivity.
      * right. right. reflexivity.
    + apply Hexcluded.
      * right. right. right. left. reflexivity.
      * left. reflexivity.
Defined.

(** ** Further properties of the route *)

(** Unfolding of the monad operations of the handler. *)
Ltac run_step := cbn [bind ret Monad_M lift fst snd].

Lemma filterM_throw (p : value -> exc bool) (xs : list value) :
  Exists (fun x => p x = Throw) xs -> filterM p xs = Throw.
Proof.
  induction 1 as [x xs Hx | x xs _ IH]; simpl.
  - now rewrite Hx.
  - rewrite IH. simpl. now destruct (p x).
Qed.

Lemma mapM_throw {A : Type} (f : value -> exc A) (xs : list value) :
  Exists (fun x => f x = Throw) xs -> mapM f xs = Throw.
Proof.
  induction 1 as [x xs Hx | x xs _ IH]; simpl.
  - now rewrite Hx.
  - rewrite IH. simpl. now destruct (f x).
Qed.

Lemma mapM_inv {A : Type} (f : value -> exc A) (xs : list value) (ys : list A) :
  mapM f xs = Ok ys ->
  List.length ys = List.length xs
  /\ forall y, In y ys -> exists x, In x xs /\ f x = Ok y.
Proof.
  revert ys. induction xs as [|x xs IH]; simpl; intros ys H.
  - inversion H; subst. split; [reflexivity | intros y []].
  - destruct (f x) as [y0|] eqn:Ef; simpl in H; [|discriminate].
    destruct (mapM f xs) as [ys0|] eqn:Em; simpl in H; [|discriminate].
    inversion H; subst. destruct (IH ys0 eq_refl) as [Hlen Hin]. split.
    + simpl. now rewrite Hlen.
    + intros y [<- | Hy].
      * exists x. split; [now left | assumption].
      * destruct (Hin y Hy) as (x' & Hx' & Hf). exists x'. split; [now right | assumption].
Qed.

Lemma filterM_Ok (p : value -> exc bool) (xs kept : list value) :
  filterM p xs = Ok kept ->
  kept = filter (fun x => match p x with Ok b => b | Throw => false end) xs.
Proof.
  revert kept. induction xs as [|x xs IH]; simpl; intros kept H.
  - now inversion H.
  - destruct (p x) as [b|]; simpl in H; [|discriminate].
    destruct (filterM p xs) as [kept'|]; simpl in H; [|discriminate].
    inversion H; subst kept. rewrite <- (IH kept' eq_refl). reflexivity.
Qed.

Section MoreStages.
Context {RT : Runtime}.

(** *** The first log line and the validation *)

(** X13: for a request with a body, a missing latitude or longitude is
    answered 400 with the validation message and no outbound call, provided
    the other coordinate can be printed by the log line that precedes the
    check; no other request is answered 400; and a coordinate that cannot be
    printed makes the handler throw at that log line, before the check and
    before any call. *)
Theorem validation_rejects_missing_coordinates (env : Env) (req_body : value)
    (w : world) :
  nullish req_body = false ->
  ((field req_body "latitude" = Undefined \/ field req_body "longitude" = Undefined) ->
   printable_coordinates req_body ->
   run (handler env req_body) w
   = (Ok {| status := 400;
            body := Obj [("error", Str "Latitude and Longitude are required.")] |},
      []))
  /\ (forall resp tr,
        run (handler env req_body) w = (Ok resp, tr) ->
        status resp = 400%Z ->
        field req_body "latitude" = Undefined \/ field req_body "longitude" = Undefined)
  /\ ((printable (field req_body "latitude") = false
       \/ printable (field req_body "longitude") = false) ->
      run (handler env req_body) w = (Throw, [])).
Proof.
  intros Nb. split; [|split].
  - intros Hmiss Hprint.
    destruct (handler_handled env req_body w Nb Hprint) as (resp & tr & Hrun & Hh).
    rewrite Hrun.
    inversion Hh; subst; try reflexivity;
      match goal with H : has_coordinates _ |- _ => destruct H end;
      destruct Hmiss; congruence.
  - intros resp tr Hrun Hstatus. apply handler_inv in Hrun.
    inversion Hrun; subst; try discriminate. assumption.
  - apply handler_unprintable.
Qed.

(** *** The outer catch *)

(** X1: for an accepted request, a catalog call that fails, an answer that is
    [null], a [features] value that is not an array, and a feature that is
    [null] are all answered by the 500 of the outer [catch], with the catalog
    call as only outbound call. *)
Theorem catalog_failure_answered_500 (env : Env) (req_body : value) (w : world) :
  has_coordinates req_body -> printable_coordinates req_body -> configured env ->
  (w (catalog_call req_body) = Throw
   \/ (exists data, w (catalog_call req_body) = Ok data /\ nullish data = true)
   \/ (exists data features,
         w (catalog_call req_body) = Ok data
         /\ get data "features" = Ok features
         /\ truthy features = true
         /\ strict_eq_zero (field features "length") = false
         /\ forall fs, features <> Arr fs)
   \/ (exists data fs,
         w (catalog_call req_body) = Ok data
         /\ get data "features" = Ok (Arr fs)
         /\ Exists (fun f => nullish f = true) fs)) ->
  run (handler env req_body) w
  = (Ok {| status := 500;
           body := Obj [("error", Str "Failed to process SAR data.")] |},
     [catalog_call req_body]).
Proof.
  intros Hc Hprint Hcfg Hfail.
  rewrite (handler_accepted env req_body w Hc Hprint Hcfg). unfold try_catch.
  destruct Hfail as [Hw | [(data & Hw & Hn) | [(data & features & Hw & Hf & Ht & Hl & Ha)
                                              | (data & fs & Hw & Hf & Hex)]]].
  - unfold lookup_image. run_step. unfold axios. unfold catalog_call in Hw.
    now rewrite Hw.
  - unfold lookup_image. run_step. unfold axios. unfold catalog_call in Hw.
    rewrite Hw. run_step.
    destruct data; try discriminate; reflexivity.
  - rewrite (lookup_image_features env _ _ _ _ data features w Hw Hf).
    rewrite Ht, Hl. cbn [negb orb].
    assert (Hs : sortedFeatures features = Throw).
    { unfold sortedFeatures. destruct features; try reflexivity. now destruct (Ha xs). }
    now rewrite Hs.
  - rewrite (lookup_image_features env _ _ _ _ data (Arr fs) w Hw Hf).
    assert (Hne : negb (truthy (Arr fs)) || strict_eq_zero (field (Arr fs) "length") = false).
    { destruct fs; [inversion Hex | reflexivity]. }
    rewrite Hne.
    assert (Hs : sortedFeatures (Arr fs) = Throw).
    { unfold sortedFeatures. cbn [as_array bind Monad_exc].
      rewrite filterM_throw; [reflexivity |].
      apply Exists_exists in Hex. destruct Hex as (f & Hin & Hf').
      apply Exists_exists. exists f. split; [assumption |].
      destruct f; try discriminate; reflexivity. }
    now rewrite Hs.
Qed.

(** *** The outbound calls *)

(** X2: whatever the services answer, the outbound calls of a request are, in
    this order, the catalog call, then both vision calls (colors, then tags,
    with one image URL and the configured credentials) or neither of them,
    then at most one call to the language model; the answer is a 200 exactly
    when the language model was called; and a handler that throws has made no
    call. *)
Theorem outbound_calls_in_order (env : Env) (req_body : value) (w : world) :
  let tr := snd (run (handler env req_body) w) in
  let key := env_string (IMAGGA_API_KEY env) in
  let secret := env_string (IMAGGA_API_SECRET env) in
  (tr = []
   \/ exists vision llm,
        tr = (catalog_call req_body :: vision ++ llm)%list
        /\ (vision = []
            \/ exists url, vision = [GetColors url key secret; GetTags url key secret])
        /\ (llm = [] \/ exists p, llm = [PostLLM p (OPEN_ROUTER_API env)]))
  /\ (forall resp,
        fst (run (handler env req_body) w) = Ok resp ->
        (status resp = 200%Z <-> exists p, prompts_sent tr = [p]))
  /\ (fst (run (handler env req_body) w) = Throw -> tr = []).
Proof.
  cbv zeta.
  assert (Hvision : forall url,
            vision_calls url (env_string (IMAGGA_API_KEY env))
              (env_string (IMAGGA_API_SECRET env)) = []
            \/ exists u,
                 vision_calls url (env_string (IMAGGA_API_KEY env))
                   (env_string (IMAGGA_API_SECRET env))
                 = [GetColors u (env_string (IMAGGA_API_KEY env))
                      (env_string (IMAGGA_API_SECRET env));
                    GetTags u (env_string (IMAGGA_API_KEY env))
                      (env_string (IMAGGA_API_SECRET env))]).
  { intros url. unfold vision_calls. destruct (encodable url); [right | left]; eauto. }
  assert (Hsent : forall url p,
            prompts_sent
              (catalog_call req_body
               :: vision_calls url (env_string (IMAGGA_API_KEY env))
                    (env_string (IMAGGA_API_SECRET env))
                  ++ [PostLLM p (OPEN_ROUTER_API env)])%list = [p]).
  { intros url p. unfold vision_calls. now destruct (encodable url). }
  assert (Hnone : forall url,
            prompts_sent
              (catalog_call req_body
               :: vision_calls url (env_string (IMAGGA_API_KEY env))
                    (env_string (IMAGGA_API_SECRET env))) = []).
  { intros url. unfold vision_calls. now destruct (encodable url). }
  destruct (run (handler env req_body) w) as [[resp|] tr] eqn:Hrun; cbn [fst snd].
  2:{ assert (Htr : tr = []).
      { destruct (nullish req_body) eqn:Nb.
        - destruct req_body; try discriminate; cbn in Hrun; now inversion Hrun.
        - destruct (printable (field req_body "latitude")) eqn:P1.
          + destruct (printable (field req_body "longitude")) eqn:P2.
            * destruct (handler_handled env req_body w Nb (conj P1 P2))
                as (r & tr' & Hr & _). rewrite Hr in Hrun. discriminate.
            * rewrite (handler_unprintable env req_body w (or_intror P2)) in Hrun.
              now inversion Hrun.
          + rewrite (handler_unprintable env req_body w (or_introl P1)) in Hrun.
            now inversion Hrun. }
      subst tr. split; [now left |]. split; [discriminate | reflexivity]. }
  apply handler_inv in Hrun.
  inversion Hrun; subst;
    (split; [|split; [|discriminate]]);
    try (intros r Hr; inversion Hr; subst r; cbn [status json status_json];
         split; [discriminate | intros [q Hq]; try discriminate Hq]).
  - now left.
  - now left.
  - right. exists [], []. repeat split; now left.
  - right. exists [], []. repeat split; now left.
  - right. exists [], []. repeat split; now left.
  - right. eexists _, []. rewrite app_nil_r. split; [reflexivity |].
    split; [apply Hvision | now left].
  - rewrite Hnone in Hq. discriminate Hq.
  - right. eexists _, _. split; [reflexivity |].
    split; [apply Hvision | right; now eexists].
  - intros r Hr. inversion Hr; subst r. split; [intros _ | reflexivity].
    exists p. apply Hsent.
Qed.

(** X3: a request with a body whose coordinates can be printed is always
    answered, with status 200, 400, 404 or 500, and an answer other than 200
    carries one of the five error messages; a request whose body is
    [undefined] or [null], or one of whose coordinates cannot be printed,
    makes the handler throw before any answer and any call. *)
Theorem every_request_answered (env : Env) (req_body : value) (w : world) :
  (nullish req_body = true -> run (handler env req_body) w = (Throw, []))
  /\ ((printable (field req_body "latitude") = false
       \/ printable (field req_body "longitude") = false) ->
      run (handler env req_body) w = (Throw, []))
  /\ (nullish req_body = false -> printable_coordinates req_body ->
      exists resp tr,
        run (handler env req_body) w = (Ok resp, tr)
        /\ (status resp = 200%Z
            \/ exists msg,
                 body resp = Obj [("error", Str msg)]
                 /\ ((status resp = 400%Z /\ msg = "Latitude and Longitude are required.")
                     \/ (status resp = 500%Z
                         /\ msg = "Server configuration error: Imagga credentials missing.")
                     \/ (status resp = 404%Z /\ msg = "No SAR data found for this location.")
                     \/ (status resp = 404%Z
                         /\ msg = "SAR data found, but no preview images are available.")
                     \/ (status resp = 500%Z /\ msg = "Failed to process SAR data.")))).
Proof.
  split; [|split].
  - intros Nb. destruct req_body; try discriminate; reflexivity.
  - apply handler_unprintable.
  - intros Nb Hprint.
    destruct (handler_handled env req_body w Nb Hprint) as (resp & tr & Hrun & Hh).
    exists resp, tr. split; [exact Hrun |].
    inversion Hh; subst.
    + right. eexists. split; [reflexivity |]. left. now split.
    + right. eexists. split; [reflexivity |]. right. left. now split.
    + right. eexists. split; [reflexivity |]. right. right. left. now split.
    + right. eexists. split; [reflexivity |]. right. right. right. left. now split.
    + right. eexists. split; [reflexivity |]. right. right. right. right. now split.
    + right. eexists. split; [reflexivity |]. right. right. right. right. now split.
    + now left.
Qed.


(** *** The colors stage *)

Lemma colors_found_present (data : value) :
  colors_nesting_absent data = false ->
  and_then data (fun d =>
    result <- get d "result" ;;
    and_then result (fun r =>
      colors <- get r "colors" ;;
      and_then colors (fun c => get c "image_colors"))) = Ok (image_colors_of data)
  /\ truthy (image_colors_of data) = true.
Proof.
  unfold colors_nesting_absent, image_colors_of, and_then. intros H.
  apply orb_false_iff in H. destruct H as [H T3].
  apply orb_false_iff in H. destruct H as [H T2].
  apply orb_false_iff in H. destruct H as [T0 T1].
  apply negb_false_iff in T0, T1, T2, T3.
  cbn [bind Monad_exc]. rewrite T0.
  rewrite (get_field data "result") by now apply truthy_not_nullish.
  rewrite T1.
  rewrite (get_field _ "colors") by now apply truthy_not_nullish.
  rewrite T2.
  rewrite (get_field _ "image_colors") by now apply truthy_not_nullish.
  now split.
Qed.

Lemma colors_of_answer (w : world) (imageUrl : value) (key secret : string)
    (data : value) :
  encodable imageUrl = true ->
  w (GetColors imageUrl key secret) = Ok data ->
  colors_of w imageUrl key secret
  = if colors_nesting_absent data then Arr []
    else match image_colors_of data with
         | Arr cs => Arr cs
         | Str s => Str s
         | _ => Arr []
         end.
Proof.
  intros Henc Hw. unfold colors_of, imageColors, try_catch, imageColors_try.
  run_step. unfold axios, lift.
  destruct (encodable_url imageUrl Henc) as [[u Hu] _]. rewrite Hu.
  rewrite Hw. run_step.
  destruct (colors_nesting_absent data) eqn:Habs.
  - destruct (colors_found_absent data Habs) as (v & Hv & Tv).
    rewrite Hv. run_step. now rewrite Tv.
  - destruct (colors_found_present data Habs) as [Hv Tv].
    rewrite Hv. run_step. rewrite Tv.
    now destruct (image_colors_of data).
Qed.

(** The colors kept are an array or a non-empty string, whatever happened. *)
Lemma colors_of_shape (w : world) (imageUrl : value) (key secret : string) :
  (exists cs, colors_of w imageUrl key secret = Arr cs)
  \/ (exists s, colors_of w imageUrl key secret = Str s /\ s <> "").
Proof.
  destruct (encodable imageUrl) eqn:Henc.
  2:{ left. exists []. now apply colors_of_unencodable. }
  destruct (w (GetColors imageUrl key secret)) as [data|] eqn:Hw.
  - rewrite (colors_of_answer w imageUrl key secret data Henc Hw).
    destruct (colors_nesting_absent data) eqn:Habs; [left; now eexists |].
    destruct (colors_found_present data Habs) as [_ Tv].
    destruct (image_colors_of data) as [| |b|n|s|cs|o]; try (left; now eexists).
    right. exists s. split; [reflexivity |].
    intros ->. discriminate.
  - left. exists []. apply colors_of_failed. now left.
Qed.

(** X4: the colors stage never throws, and makes the colors call exactly when
    the image URL can be encoded.  With a URL that cannot be encoded, or a
    failed call, it leaves the empty list; when the service answers, the
    colors kept are the value at [result.colors.image_colors] if it is there
    and is an array or a string, and the empty list otherwise (no such value,
    or a number, a boolean or an object in its place); so the colors are
    always an array or a non-empty string. *)
Theorem colors_kept_or_emptied (w : world) (imageUrl : value) (key secret : string) :
  (forall tr,
     imageColors imageUrl key secret w tr
     = (Ok (colors_of w imageUrl key secret),
        (tr ++ if encodable imageUrl then [GetColors imageUrl key secret] else [])%list))
  /\ (encodable imageUrl = false -> colors_of w imageUrl key secret = Arr [])
  /\ (w (GetColors imageUrl key secret) = Throw ->
      colors_of w imageUrl key secret = Arr [])
  /\ (forall data,
        encodable imageUrl = true ->
        w (GetColors imageUrl key secret) = Ok data ->
        colors_of w imageUrl key secret
        = if colors_nesting_absent data then Arr []
          else match image_colors_of data with
               | Arr cs => Arr cs
               | Str s => Str s
               | _ => Arr []
               end)
  /\ ((exists cs, colors_of w imageUrl key secret = Arr cs)
      \/ (exists s, colors_of w imageUrl key secret = Str s /\ s <> "")).
Proof.
  split; [|split; [|split; [|split]]].
  - intros tr. apply imageColors_run.
  - apply colors_of_unencodable.
  - intros Hw. apply colors_of_failed. now left.
  - intros data Henc Hw. now apply colors_of_answer.
  - apply colors_of_shape.
Qed.

(** *** The rendering of the colors *)

Lemma color_name_read (c : value) :
  nullish c = false ->
  (color_name <- get c "color_name" ;;
   or_else color_name (
     closest <- get c "closest_palette_color" ;;
     or_else closest (
       html_code <- get c "html_code" ;;
       or_else html_code (Ok (Str "unknown"))))) = Ok (color_label c).
Proof.
  intros Nc. unfold color_label, or_else. cbn [bind Monad_exc].
  rewrite !(get_field c _ Nc).
  destruct (truthy (field c "color_name")); [reflexivity |].
  destruct (truthy (field c "closest_palette_color")); [reflexivity |].
  now destruct (truthy (field c "html_code")).
Qed.

Lemma color_line_read (c : value) :
  nullish c = false ->
  color_line c
  = (label <- to_string (color_label c) ;;
     pct <- percent_text c ;;
     Ok (label ++ ": " ++ pct ++ "%")).
Proof.
  intros Nc. pose proof (color_name_read c Nc) as H.
  unfold color_line. cbn [bind Monad_exc] in *.
  destruct (get c "color_name") as [name|]; [|discriminate].
  now rewrite H.
Qed.

Lemma percent_text_read (c : value) :
  nullish c = false ->
  percent_text c
  = if negb (truthy (field c "percent"))
       || match field c "percent" with
          | Num _ => true
          | _ => false
          end
    then Ok (toFixed1 (color_percent c))
    else Throw.
Proof.
  intros Nc. unfold percent_text, color_percent. cbn [bind Monad_exc].
  rewrite (get_field c "percent" Nc).
  destruct (truthy (field c "percent")) eqn:Tp; cbn [negb orb].
  - destruct (field c "percent"); try reflexivity. now rewrite Tp.
  - destruct (field c "percent"); try reflexivity. now rewrite Tp.
Qed.

Lemma color_line_renderable (c : value) :
  renderable c = true -> color_line c = Ok (color_line_text c).
Proof.
  unfold renderable. intros H. apply andb_true_iff in H. destruct H as [H Hp].
  apply andb_true_iff in H. destruct H as [Nc Hl].
  apply negb_true_iff in Nc.
  rewrite (color_line_read c Nc), (printable_to_string _ Hl), (percent_text_read c Nc), Hp.
  reflexivity.
Qed.

Lemma color_line_unrenderable (c : value) :
  renderable c = false -> color_line c = Throw.
Proof.
  unfold renderable. intros H.
  destruct (nullish c) eqn:Nc; [destruct c; try discriminate; reflexivity |].
  rewrite (color_line_read c Nc), (percent_text_read c Nc).
  cbn [negb andb] in H.
  destruct (printable (color_label c)) eqn:Hl.
  - rewrite (printable_to_string _ Hl). cbn [andb] in H. now rewrite H.
  - now rewrite (unprintable_to_string _ Hl).
Qed.

Lemma string_app_not_empty_r (a b : string) : b <> "" -> a ++ b <> "".
Proof. destruct a; simpl; [trivial | discriminate]. Qed.

Lemma join_not_empty (sep : string) (l : string) (rest : list string) :
  l <> "" -> join sep (l :: rest) <> "".
Proof.
  intros Hl. destruct rest as [|r rest]; simpl; [assumption |].
  destruct l; [now destruct Hl | discriminate].
Qed.

Lemma colorText_renderable (cs : list value) :
  Forall (fun c => renderable c = true) cs ->
  colorText (Arr cs)
  = Ok (match cs with
        | [] => "No color data available"
        | _ => join ", " (map color_line_text cs)
        end).
Proof.
  intros Hr. destruct cs as [|c cs]; [reflexivity |].
  unfold colorText. cbn [get bind Monad_exc String.eqb Ascii.eqb Bool.eqb].
  replace (truthy (Num (num_of_nat (List.length (c :: cs))))) with true by reflexivity.
  cbn [as_array bind Monad_exc].
  rewrite (mapM_pure color_line color_line_text).
  - reflexivity.
  - intros x Hx. apply color_line_renderable. rewrite Forall_forall in Hr. now apply Hr.
Qed.

Lemma colorText_unrenderable (cs : list value) :
  Exists (fun c => renderable c = false) cs -> colorText (Arr cs) = Throw.
Proof.
  intros Hex. destruct cs as [|c cs]; [inversion Hex |].
  unfold colorText. cbn [get bind Monad_exc String.eqb Ascii.eqb Bool.eqb].
  replace (truthy (Num (num_of_nat (List.length (c :: cs))))) with true by reflexivity.
  cbn [as_array bind Monad_exc].
  rewrite mapM_throw; [reflexivity |].
  apply Exists_exists in Hex. destruct Hex as (x & Hin & Hx).
  apply Exists_exists. exists x. split; [assumption | now apply color_line_unrenderable].
Qed.

Lemma colorText_not_empty (v : value) (text : string) :
  colorText v = Ok text -> text <> "".
Proof.
  unfold colorText. cbn [bind Monad_exc].
  destruct (get v "length") as [len|] eqn:Hg; [|discriminate].
  destruct (truthy len) eqn:Tl.
  - destruct (as_array v) as [cs|] eqn:Ha; [|discriminate]. cbn [bind Monad_exc].
    destruct (mapM color_line cs) as [lines|] eqn:Hm; [|discriminate].
    intros H. inversion H; subst text. clear H.
    destruct (mapM_inv _ _ _ Hm) as [Hlen Hin].
    destruct lines as [|l lines].
    + destruct cs; [|discriminate Hlen]. destruct v; try discriminate Ha.
      inversion Ha; subst. cbn in Hg. inversion Hg; subst len. discriminate Tl.
    + apply join_not_empty.
      destruct (Hin l (or_introl eq_refl)) as (c & _ & Hc).
      unfold color_line in Hc. cbn [bind Monad_exc] in Hc.
      destruct (get c "color_name"); [|discriminate].
      destruct (or_else _ _); [|discriminate].
      destruct (to_string _); [|discriminate].
      destruct (percent_text c); [|discriminate].
      inversion Hc. apply string_app_not_empty_r. discriminate.
  - intros H. inversion H. discriminate.
Qed.

(** X5: the color text is the placeholder for an empty list and, for a list of
    entries that can be rendered, the entries joined by a comma and a space,
    each as its name (the first of [color_name], [closest_palette_color] and
    [html_code] that is truthy, else "unknown"), a colon and its percentage
    with one decimal (zero when it has none); one entry that is [null], or
    whose name cannot be converted to a string, or whose percentage is not a
    number, makes the rendering throw; and a rendered text is never empty. *)
Theorem color_text_rendering :
  (forall cs,
     Forall (fun c => renderable c = true) cs ->
     colorText (Arr cs)
     = Ok (match cs with
           | [] => "No color data available"
           | _ => join ", " (map color_line_text cs)
           end))
  /\ (forall cs,
        Exists (fun c => renderable c = false) cs -> colorText (Arr cs) = Throw)
  /\ (forall c,
        nullish c = false ->
        field c "color_name" = Undefined -> field c "closest_palette_color" = Undefined ->
        field c "html_code" = Undefined -> field c "percent" = Undefined ->
        colorText (Arr [c]) = Ok ("unknown: " ++ toFixed1 (Fin 0) ++ "%"))
  /\ (forall c fields,
        nullish c = false ->
        color_label c = Obj fields -> has_own "toString" fields = true ->
        colorText (Arr [c]) = Throw)
  /\ (forall v text, colorText v = Ok text -> text <> "").
Proof.
  split; [exact colorText_renderable |].
  split; [exact colorText_unrenderable |].
  split; [|split; [|exact colorText_not_empty]].
  - intros c Nc H1 H2 H3 H4.
    assert (Hr : renderable c = true).
    { unfold renderable, color_label. now rewrite Nc, H1, H2, H3, H4. }
    rewrite (colorText_renderable [c]) by now constructor.
    cbn [map join]. unfold color_line_text, color_label, color_percent.
    now rewrite H1, H2, H3, H4.
  - intros c fields Nc Hl Hown.
    apply colorText_unrenderable. constructor.
    unfold renderable, printable. rewrite Nc, Hl. cbn [to_string]. now rewrite Hown.
Qed.

Lemma colorText_string (s : string) : s <> "" -> colorText (Str s) = Throw.
Proof.
  intros Hs. unfold colorText. cbn [get bind Monad_exc String.eqb Ascii.eqb Bool.eqb].
  assert (Hlen : exists n, utf16_length s = S n).
  { destruct s as [|a s]; [now destruct Hs |]. cbn [utf16_length].
    repeat (match goal with
            | |- context [if ?b then _ else _] => destruct b
            | |- context [match ?x with EmptyString => _ | String _ _ => _ end] =>
                destruct x
            end; try (now eexists)). }
  destruct Hlen as [n ->].
  replace (truthy (Num (num_of_nat (S n)))) with true by reflexivity.
  reflexivity.
Qed.

(** X6: once a feature is selected (for a request whose coordinates can be
    printed and an image URL that can be encoded), an answer of the colors
    service whose [image_colors] is a list with an entry that cannot be
    rendered, or is a string, is not absorbed: the request is answered by the
    500 of the outer [catch], after the colors and the tags calls and without
    a call to the language model. *)
Theorem unrenderable_colors_answered_500 (env : Env) (req_body : value) (w : world)
    (data features f : value) (others : list value) (answer : value) :
  has_coordinates req_body -> printable_coordinates req_body -> configured env ->
  w (catalog_call req_body) = Ok data ->
  get data "features" = Ok features ->
  sortedFeatures features = Ok (f :: others) ->
  let key := env_string (IMAGGA_API_KEY env) in
  let secret := env_string (IMAGGA_API_SECRET env) in
  let url := field0 (browse_of f) in
  encodable url = true ->
  w (GetColors url key secret) = Ok answer ->
  colors_nesting_absent answer = false ->
  ((exists cs, image_colors_of answer = Arr cs
               /\ Exists (fun c => renderable c = false) cs)
   \/ exists s, image_colors_of answer = Str s) ->
  run (handler env req_body) w
  = (Ok {| status := 500;
           body := Obj [("error", Str "Failed to process SAR data.")] |},
     [catalog_call req_body; GetColors url key secret; GetTags url key secret]).
Proof.
  intros Hc Hprint Hcfg Hcat Hf Hs key secret url Henc Hw Habs Hbad.
  pose proof (handler_selected env req_body w data features f others
                Hc Hprint Hcfg Hcat Hf Hs (encodable_printable _ Henc)) as Hrun.
  cbv zeta in Hrun. fold key secret url in Hrun.
  rewrite (vision_calls_encodable _ _ _ Henc) in Hrun.
  rewrite (colors_of_answer w url key secret answer Henc Hw), Habs in Hrun.
  assert (Hthrow : forall tags md,
            prompt (match image_colors_of answer with
                    | Arr cs => Arr cs
                    | Str s => Str s
                    | _ => Arr []
                    end) tags md = Throw).
  { intros tags md. unfold prompt.
    destruct Hbad as [(cs & -> & Hex) | (s & Hstr)].
    - now rewrite (colorText_unrenderable cs Hex).
    - destruct (colors_found_present answer Habs) as [_ Tv]. rewrite Hstr in *.
      rewrite colorText_string; [reflexivity |]. intros ->. discriminate. }
  rewrite Hthrow in Hrun. exact Hrun.
Qed.

(** X12: once a feature is selected (for a request whose coordinates and
    image URL can be printed), a colors call that fails (the call throws, or
    the answer lacks a level of [result.colors.image_colors], as a body that
    is not JSON does) leaves the empty color list, and when the tags can be
    joined the answer is still 200 with the image URL, the explanation, the
    scene name, the tags and the metadata of the selected feature. *)
Theorem colors_failure_absorbed (env : Env) (req_body : value) (w : world)
    (data features f : value) (others : list value) (tagtext : string) :
  has_coordinates req_body -> printable_coordinates req_body -> configured env ->
  w (catalog_call req_body) = Ok data ->
  get data "features" = Ok features ->
  sortedFeatures features = Ok (f :: others) ->
  let key := env_string (IMAGGA_API_KEY env) in
  let secret := env_string (IMAGGA_API_SECRET env) in
  let url := field0 (browse_of f) in
  printable url = true ->
  (w (GetColors url key secret) = Throw
   \/ exists answer,
        w (GetColors url key secret) = Ok answer
        /\ colors_nesting_absent answer = true) ->
  tagsText (tags_of w url key secret) = Ok tagtext ->
  exists p resp,
    run (handler env req_body) w
    = (Ok resp,
       (catalog_call req_body
        :: vision_calls url key secret ++ [PostLLM p (OPEN_ROUTER_API env)])%list)
    /\ status resp = 200%Z
    /\ body resp
       = Obj [("imageUrl", url);
              ("explanation", answer_of w p (OPEN_ROUTER_API env));
              ("sceneName", field (field f "properties") "sceneName");
              ("imageTags", Arr (tags_of w url key secret));
              ("imageColors", Arr []);
              ("metadata", metadata_of (field f "properties")
                             (field req_body "latitude")
                             (field req_body "longitude"))]
    /\ prompt (Arr []) (tags_of w url key secret)
         (metadata_of (field f "properties") (field req_body "latitude")
            (field req_body "longitude")) = Ok p.
Proof.
  intros Hc Hprint Hcfg Hcat Hf Hs key secret url Hurl Hfail Htags.
  pose proof (handler_selected env req_body w data features f others
                Hc Hprint Hcfg Hcat Hf Hs Hurl) as Hrun.
  cbv zeta in Hrun. fold key secret url in Hrun.
  rewrite (colors_of_failed w url key secret Hfail) in Hrun.
  destruct (prompt_built (Arr []) (tags_of w url key secret)
              (metadata_of (field f "properties") (field req_body "latitude")
                 (field req_body "longitude")) _ _ colorText_empty Htags) as [p Hp].
  rewrite Hp in Hrun.
  exists p. eexists. split; [exact Hrun |]. repeat split. exact Hp.
Qed.

(** X14: once a feature is selected (for a request whose coordinates can be
    printed), a first preview URL that cannot be converted to a string ends
    the request at the log line that follows the selection, with the 500 of
    the outer [catch] and the catalog call as only outbound call; a URL that
    can be printed but not encoded (it holds a lone surrogate) makes both
    vision stages fail before their calls, and the answer is a 200 with no
    colors and no tags, after the catalog call and the call to the language
    model only. *)
Theorem image_url_conversion_failures (env : Env) (req_body : value) (w : world)
    (data features f : value) (others : list value) :
  has_coordinates req_body -> printable_coordinates req_body -> configured env ->
  w (catalog_call req_body) = Ok data ->
  get data "features" = Ok features ->
  sortedFeatures features = Ok (f :: others) ->
  let url := field0 (browse_of f) in
  let md := metadata_of (field f "properties") (field req_body "latitude")
              (field req_body "longitude") in
  (printable url = false ->
   run (handler env req_body) w
   = (Ok {| status := 500;
            body := Obj [("error", Str "Failed to process SAR data.")] |},
      [catalog_call req_body]))
  /\ (printable url = true -> encodable url = false ->
      exists p,
        prompt (Arr []) [] md = Ok p
        /\ run (handler env req_body) w
           = (Ok {| status := 200;
                    body := Obj [("imageUrl", url);
                                 ("explanation", answer_of w p (OPEN_ROUTER_API env));
                                 ("sceneName", field (field f "properties") "sceneName");
                                 ("imageTags", Arr []);
                                 ("imageColors", Arr []);
                                 ("metadata", md)] |},
              [catalog_call req_body; PostLLM p (OPEN_ROUTER_API env)])).
Proof.
  intros Hc Hprint Hcfg Hcat Hf Hs url md. split.
  - intros Hurl.
    exact (handler_selected_unprintable env req_body w data features f others
             Hc Hprint Hcfg Hcat Hf Hs Hurl).
  - intros Hurl Henc.
    pose proof (handler_selected env req_body w data features f others
                  Hc Hprint Hcfg Hcat Hf Hs Hurl) as Hrun.
    cbv zeta in Hrun. fold url md in Hrun.
    rewrite (colors_of_unencodable w url _ _ Henc) in Hrun.
    rewrite (tags_of_unencodable w url _ _ Henc) in Hrun.
    unfold vision_calls in Hrun. rewrite Henc in Hrun.
    destruct (prompt_built (Arr []) [] md _ _ colorText_empty eq_refl) as [p Hp].
    rewrite Hp in Hrun. exists p. split; [exact Hp | exact Hrun].
Qed.

(** *** The tags stage *)

Lemma imageTags_of_spec (data : value) :
  imageTags_of data
  = if tags_nesting_absent data then Ok []
    else retained_tags (field (field data "result") "tags").
Proof.
  unfold imageTags_of, tags_nesting_absent, and_then. cbn [bind Monad_exc].
  destruct (truthy data) eqn:T0; cbn [negb orb]; [|now rewrite T0].
  rewrite (get_field data "result") by now apply truthy_not_nullish.
  destruct (truthy (field data "result")) eqn:T1; cbn [negb orb]; [|now rewrite T1].
  rewrite (get_field _ "tags") by now apply truthy_not_nullish.
  now destruct (truthy (field (field data "result") "tags")).
Qed.

Lemma tags_present (data : value) (ts : list value) :
  field (field data "result") "tags" = Arr ts -> tags_nesting_absent data = false.
Proof.
  intros Htags. unfold tags_nesting_absent.
  assert (Hres : truthy (field data "result") = true).
  { destruct (field data "result") as [| |b|n|s|xs|fs]; try reflexivity;
      cbn in Htags; discriminate. }
  assert (Hdata : truthy data = true).
  { destruct (truthy data) eqn:T; [reflexivity |].
    assert ("result" <> "length") as Hn by discriminate.
    rewrite (field_falsy_undefined data "result" T Hn) in Hres. discriminate. }
  now rewrite Hdata, Hres, Htags.
Qed.

Lemma retained_tags_inv (tags : value) (labels : list value) :
  retained_tags tags = Ok labels ->
  (List.length labels <= 5)%nat
  /\ forall label, In label labels ->
       exists t, In t (elements tags) /\ over_15 t = true /\ english_label t = label.
Proof.
  unfold retained_tags. destruct tags as [| |b|n|s|ts|o]; try discriminate.
  cbn [as_array bind Monad_exc elements].
  destruct (filterM confident ts) as [kept|] eqn:Hk; [|discriminate].
  intros Hm. destruct (mapM_inv _ _ _ Hm) as [Hlen Hin]. split.
  - rewrite Hlen. apply firstn_le_length.
  - intros label Hl. destruct (Hin label Hl) as (t & Ht & Hen).
    apply In_firstn in Ht. destruct (filterM_In _ _ _ Hk t Ht) as [Hts Hconf].
    exists t. split; [exact Hts |].
    split; [now apply confident_true |].
    unfold tag_en in Hen. cbn [bind Monad_exc] in Hen. unfold english_label.
    destruct (get t "tag") as [tg|] eqn:Hg; [|discriminate].
    rewrite (get_Ok_field _ _ _ Hg). now apply get_Ok_field.
Qed.

(** What the tags stage leaves, in every case. *)
Lemma tags_of_cases (w : world) (imageUrl : value) (key secret : string) :
  tags_of w imageUrl key secret = []
  \/ exists data,
       encodable imageUrl = true
       /\ w (GetTags imageUrl key secret) = Ok data
       /\ tags_nesting_absent data = false
       /\ retained_tags (field (field data "result") "tags")
          = Ok (tags_of w imageUrl key secret).
Proof.
  destruct (encodable imageUrl) eqn:Henc; [|left; now apply tags_of_unencodable].
  destruct (w (GetTags imageUrl key secret)) as [data|] eqn:Hw;
    [|left; now apply tags_of_throw].
  rewrite (tags_of_answer w imageUrl key secret data Henc Hw), imageTags_of_spec.
  destruct (tags_nesting_absent data) eqn:Habs; [now left |].
  destruct (retained_tags _) as [labels|] eqn:Hr; [|now left].
  right. now exists data.
Qed.

Lemma tags_of_length (w : world) (imageUrl : value) (key secret : string) :
  (List.length (tags_of w imageUrl key secret) <= 5)%nat.
Proof.
  destruct (tags_of_cases w imageUrl key secret) as [-> | (data & _ & _ & _ & Hr)].
  - simpl. lia.
  - now destruct (retained_tags_inv _ _ Hr).
Qed.

(** X7: whatever the tags service answers, at most five tags are kept, and
    each of them is the English label of a tag of the answer whose confidence
    is above 15. *)
Theorem at_most_five_tags (w : world) (imageUrl : value) (key secret : string) :
  (List.length (tags_of w imageUrl key secret) <= 5)%nat
  /\ forall label,
       In label (tags_of w imageUrl key secret) ->
       exists data t,
         w (GetTags imageUrl key secret) = Ok data
         /\ In t (elements (field (field data "result") "tags"))
         /\ over_15 t = true
         /\ english_label t = label.
Proof.
  destruct (tags_of_cases w imageUrl key secret) as [-> | (data & _ & Hw & _ & Hr)].
  - split; [simpl; lia | intros l []].
  - destruct (retained_tags_inv _ _ Hr) as [Hlen Hin]. split; [exact Hlen |].
    intros label Hl. destruct (Hin label Hl) as (t & Ht & Ho & He).
    now exists data, t.
Qed.

Lemma confident_read (t : value) :
  nullish t = false ->
  match confident t with Ok b => b | Throw => false end = over_15 t.
Proof.
  intros Nt. unfold confident, over_15. cbn [bind Monad_exc].
  now rewrite (get_field t "confidence" Nt).
Qed.

(** The ways the tags stage ends with the empty list. *)
Lemma tags_of_failed (w : world) (imageUrl : value) (key secret : string) :
  (w (GetTags imageUrl key secret) = Throw
   \/ exists data,
        w (GetTags imageUrl key secret) = Ok data
        /\ (tags_nesting_absent data = true
            \/ (forall ts, field (field data "result") "tags" <> Arr ts)
            \/ (exists ts,
                  field (field data "result") "tags" = Arr ts
                  /\ Exists (fun t => nullish t = true) ts)
            \/ (exists ts,
                  field (field data "result") "tags" = Arr ts
                  /\ Forall (fun t => nullish t = false) ts
                  /\ Exists (fun t => nullish (field t "tag") = true)
                       (firstn 5 (filter over_15 ts))))) ->
  tags_of w imageUrl key secret = [].
Proof.
  intros Hfail.
  destruct (tags_of_cases w imageUrl key secret) as [H | (data & _ & Hw & Habs & Hr)];
    [exact H |].
  exfalso. destruct Hfail as [Hw' | (data' & Hw' & Hbad)]; [congruence |].
  rewrite Hw in Hw'. inversion Hw'; subst data'. clear Hw'.
  destruct Hbad as [H | [Hna | [(ts & Hts & Hex) | (ts & Hts & Hall & Hex)]]].
  - congruence.
  - destruct (field (field data "result") "tags") as [| |b|n|s|ts|o]; try discriminate Hr.
    now destruct (Hna ts).
  - rewrite Hts in Hr. unfold retained_tags in Hr. cbn [as_array bind Monad_exc] in Hr.
    rewrite filterM_throw in Hr; [discriminate Hr |].
    apply Exists_exists in Hex. destruct Hex as (t & Hin & Hn).
    apply Exists_exists. exists t. split; [assumption |].
    destruct t; try discriminate; reflexivity.
  - rewrite Hts in Hr. unfold retained_tags in Hr. cbn [as_array bind Monad_exc] in Hr.
    destruct (filterM confident ts) as [kept|] eqn:Hk; [|discriminate Hr].
    cbn [bind Monad_exc] in Hr.
    assert (Hkept : kept = filter over_15 ts).
    { rewrite (filterM_Ok _ _ _ Hk). apply filter_ext_in. intros t Ht.
      apply confident_read. rewrite Forall_forall in Hall. now apply Hall. }
    subst kept. rewrite mapM_throw in Hr; [discriminate Hr |].
    apply Exists_exists in Hex. destruct Hex as (t & Hin & Hn).
    apply Exists_exists. exists t. split; [assumption |].
    unfold tag_en. cbn [bind Monad_exc].
    destruct (get t "tag") as [tg|] eqn:Hg; [|reflexivity].
    rewrite (get_Ok_field _ _ _ Hg) in Hn. destruct tg; try discriminate; reflexivity.
Qed.

(** X8: once a feature is selected (for a request whose coordinates and image
    URL can be printed), a tags call that fails, an answer without
    [result.tags], a [tags] value that is not a list, a tag that is [null],
    and a retained tag without a [tag] object all leave the empty tag list;
    when the colors can be rendered the answer is then still a 200, with the
    colors of the colors stage, and the prompt reads "None" for the tags. *)
Theorem tags_failure_absorbed (env : Env) (req_body : value) (w : world)
    (data features f : value) (others : list value) :
  has_coordinates req_body -> printable_coordinates req_body -> configured env ->
  w (catalog_call req_body) = Ok data ->
  get data "features" = Ok features ->
  sortedFeatures features = Ok (f :: others) ->
  let key := env_string (IMAGGA_API_KEY env) in
  let secret := env_string (IMAGGA_API_SECRET env) in
  let url := field0 (browse_of f) in
  let cs := colors_of w url key secret in
  let md := metadata_of (field f "properties") (field req_body "latitude")
              (field req_body "longitude") in
  printable url = true ->
  (w (GetTags url key secret) = Throw
   \/ exists answer,
        w (GetTags url key secret) = Ok answer
        /\ (tags_nesting_absent answer = true
            \/ (forall ts, field (field answer "result") "tags" <> Arr ts)
            \/ (exists ts,
                  field (field answer "result") "tags" = Arr ts
                  /\ Exists (fun t => nullish t = true) ts)
            \/ (exists ts,
                  field (field answer "result") "tags" = Arr ts
                  /\ Forall (fun t => nullish t = false) ts
                  /\ Exists (fun t => nullish (field t "tag") = true)
                       (firstn 5 (filter over_15 ts))))) ->
  tags_of w url key secret = []
  /\ forall text,
       colorText cs = Ok text ->
       exists p,
         run (handler env req_body) w
         = (Ok {| status := 200;
                  body := Obj [("imageUrl", url);
                               ("explanation", answer_of w p (OPEN_ROUTER_API env));
                               ("sceneName", field (field f "properties") "sceneName");
                               ("imageTags", Arr []);
                               ("imageColors", cs);
                               ("metadata", md)] |},
            (catalog_call req_body
             :: vision_calls url key secret ++ [PostLLM p (OPEN_ROUTER_API env)])%list)
         /\ contains p "Also detected visual tags: None.".
Proof.
  intros Hc Hprint Hcfg Hcat Hf Hs key secret url cs md Hurl Hfail.
  pose proof (tags_of_failed w url key secret Hfail) as Htags.
  split; [exact Htags |].
  intros text Htext.
  pose proof (handler_selected env req_body w data features f others
                Hc Hprint Hcfg Hcat Hf Hs Hurl) as Hrun.
  cbv zeta in Hrun. fold key secret url cs md in Hrun. rewrite Htags in Hrun.
  destruct (prompt_built cs [] md text "None" Htext eq_refl) as [p Hp].
  rewrite Hp in Hrun.
  exists p. split; [exact Hrun |].
  destruct (prompt_shape _ _ _ _ Hp) as (text' & tt & Ht & Htt & pre & post & Hcont).
  cbn [tagsText] in Htt. inversion Htt; subst tt.
  exists (pre ++ "Detected color percentages:" ++ newline ++ text' ++ newline ++ newline),
    post.
  rewrite Hcont. rewrite !string_app_assoc. reflexivity.
Qed.

(** *** The answer *)

Lemma answer_of_truthy_or_empty (w : world) (p : string) (b : option string) :
  truthy (answer_of w p b) = true \/ answer_of w p b = Str "".
Proof.
  destruct (w (PostLLM p b)) as [data|] eqn:Hw.
  - rewrite (answer_of_answer w p b data Hw). cbv zeta.
    destruct (truthy (message_content (first_choice data))) eqn:T1; [now left |].
    destruct (truthy (legacy_text (first_choice data))) eqn:T2; [now left | now right].
  - rewrite (answer_of_failed w p b Hw). now left.
Qed.

(** X9: every 200 answer has the six fields in the order of the source; its
    colors are an array, its tags an array of at most five elements, its
    explanation a truthy value or the empty string; its scene name is the one
    of the metadata, and the coordinates of the metadata are the latitude and
    longitude of the request as they were received. *)
Theorem answer_200_shape (env : Env) (req_body : value) (w : world)
    (resp : response) (tr : list call) :
  run (handler env req_body) w = (Ok resp, tr) ->
  status resp = 200%Z ->
  exists url explanation scene tags cs md properties,
    body resp = Obj [("imageUrl", url);
                     ("explanation", explanation);
                     ("sceneName", scene);
                     ("imageTags", Arr tags);
                     ("imageColors", Arr cs);
                     ("metadata", md)]
    /\ (List.length tags <= 5)%nat
    /\ (truthy explanation = true \/ explanation = Str "")
    /\ md = metadata_of properties (field req_body "latitude") (field req_body "longitude")
    /\ field md "sceneName" = scene
    /\ field (field md "coordinates") "latitude" = field req_body "latitude"
    /\ field (field md "coordinates") "longitude" = field req_body "longitude".
Proof.
  intros Hrun Hstatus. apply handler_inv in Hrun.
  inversion Hrun; subst; try discriminate.
  match goal with H : prompt _ _ _ = Ok _ |- _ => rename H into Hp end.
  destruct (colors_of_shape w imageUrl key secret) as [(xs & Hcs) | (s & Hcs & Hne)].
  - exists imageUrl, (answer_of w p (OPEN_ROUTER_API env)), (field properties "sceneName"),
      tags, xs, md, properties.
    split; [unfold success, json; subst cs; now rewrite Hcs |].
    split; [apply tags_of_length |].
    split; [apply answer_of_truthy_or_empty |].
    repeat split.
  - exfalso. unfold prompt in Hp. subst cs. rewrite Hcs in Hp.
    rewrite (colorText_string s Hne) in Hp. discriminate.
Qed.

(** *** The layout of the prompt *)

Lemma trimStart_rev_plain (c : ascii) (r : string) :
  plain c = true -> trimStart_rev (String c r) = String c r.
Proof.
  intros Hc. simpl. rewrite (plain_ws1 c Hc).
  destruct r as [|b r]; [reflexivity |].
  rewrite (plain_ws2_r c b Hc).
  destruct r as [|a r]; [reflexivity |].
  now rewrite (plain_ws3_3 c a b Hc).
Qed.

Lemma trimEnd_plain_newline (a : string) (c : ascii) :
  plain c = true -> trimEnd (a ++ String c newline) = a ++ String c "".
Proof.
  intros Hc. unfold trimEnd. rewrite rev_string_app.
  change (rev_string (String c newline)) with (newline ++ String c "").
  change ((newline ++ String c "") ++ rev_string a)
    with (String (ascii_of_nat 10) (String c (rev_string a))).
  change (trimStart_rev (String (ascii_of_nat 10) (String c (rev_string a))))
    with (trimStart_rev (String c (rev_string a))).
  rewrite (trimStart_rev_plain c _ Hc).
  simpl. now rewrite rev_string_involutive.
Qed.

(** X10: when the printed metadata end with a byte that is not white space
    (as the closing brace of a printed object is), the prompt is the template
    literal with its interpolations filled in, without its first and its last
    line feed and otherwise byte for byte. *)
Theorem prompt_is_template_without_outer_newlines (cs : value) (tags : list value)
    (md : value) (p : string) (j : string) (c : ascii) :
  JSON_stringify md = j ++ String c "" ->
  plain c = true ->
  prompt cs tags md = Ok p ->
  exists text tagtext,
    colorText cs = Ok text
    /\ tagsText tags = Ok tagtext
    /\ newline ++ p ++ newline
       = prompt_template text tagtext (JSON_stringify md).
Proof.
  intros Hj Hc. unfold prompt. cbn [bind Monad_exc].
  destruct (colorText cs) as [text|]; [|discriminate].
  destruct (tagsText tags) as [tt|]; [|discriminate].
  intros H. inversion H as [Hp]. clear H. exists text, tt.
  split; [reflexivity |]. split; [reflexivity |].
  unfold trim, prompt_template. rewrite Hj.
  set (intro := substring 1 (String.length prompt_intro - 1) prompt_intro).
  assert (Hstart :
            trimStart (prompt_intro ++ text ++ prompt_tags_label ++ tt ++ prompt_chart
                       ++ (j ++ String c "") ++ prompt_end)
            = (intro ++ text ++ prompt_tags_label ++ tt ++ prompt_chart ++ j)
              ++ String c newline).
  { transitivity (intro ++ text ++ prompt_tags_label ++ tt ++ prompt_chart
                  ++ (j ++ String c "") ++ prompt_end).
    - reflexivity.
    - rewrite !string_app_assoc. reflexivity. }
  rewrite Hstart, (trimEnd_plain_newline _ c Hc).
  change prompt_intro with (newline ++ intro).
  rewrite !string_app_assoc. reflexivity.
Qed.

(** *** The order of the sorted features *)

(** X11: on well-typed features whose eligible ones have valid capture times,
    the filter and the sort never throw and return exactly the features with a
    non-empty browse list, latest first, features of equal capture time in
    catalog order. *)
Theorem sorted_features_latest_first (fs : list value) :
  Forall (fun f => feature_typed f = true) fs ->
  Forall (fun f => has_browse_list f = true -> capture_time f <> None) fs ->
  exists sorted,
    sortedFeatures (Arr fs) = Ok sorted
    /\ sorted_latest_first (filter has_browse_list fs) sorted.
Proof.
  intros Htyped Hvalid.
  destruct (filter_typed fs Htyped) as [_ Hprop].
  pose proof (Forall_eligible _ fs Hvalid) as Hval.
  destruct (sort_returns (filter has_browse_list fs) Hprop) as (sorted & Hsort & _).
  { eapply Forall_impl; [|exact Hval]. intros x. apply valid_time_dated. }
  exists sorted. split.
  - now rewrite (sortedFeatures_typed fs Htyped).
  - now apply sort_sorted_latest_first.
Qed.

End MoreStages.

(** ** The further properties on the sample data *)

Lemma catalog_failure_answered_500_witness :
  run (handler Sample.env Sample.request) Sample.world_catalog_down
  = (Ok {| status := 500;
           body := Obj [("error", Str "Failed to process SAR data.")] |},
     [catalog_call Sample.request]).
Proof.
  apply (catalog_failure_answered_500 Sample.env Sample.request Sample.world_catalog_down).
  - exact sample_has_coordinates.
  - exact sample_printable.
  - exact sample_configured.
  - left. reflexivity.
Defined.

Lemma colors_kept_or_emptied_witness :
  colors_of Sample.world_no_colors Sample.image_url "key" "secret" = Arr []
  /\ colors_of Sample.world_ok Sample.image_url "key" "secret"
     = Arr [Sample.color "black" 623; Sample.color "grey" 377]
  /\ imageColors (Str Sample.lone_surrogate_text) "key" "secret" Sample.world_ok []
     = (Ok (Arr []), []).
Proof.
  split; [|split].
  - destruct (colors_kept_or_emptied Sample.world_no_colors Sample.image_url "key" "secret")
      as (_ & _ & Hfail & _).
    apply Hfail. reflexivity.
  - destruct (colors_kept_or_emptied Sample.world_ok Sample.image_url "key" "secret")
      as (_ & _ & _ & Hanswer & _).
    rewrite (Hanswer Sample.colors_data eq_refl eq_refl). reflexivity.
  - destruct (colors_kept_or_emptied Sample.world_ok (Str Sample.lone_surrogate_text)
                "key" "secret") as (Hrun & Hnone & _).
    rewrite Hrun, Hnone; reflexivity.
Defined.

Lemma color_text_rendering_witness :
  colorText (Arr [Sample.color "black" 623; Obj [("html_code", Str "#888888")]])
  = Ok "black: 62.3%, #888888: 0.0%"
  /\ colorText (Arr [Sample.color "black" 623; Null]) = Throw
  /\ colorText (Arr [Obj [("color_name", Obj [("toString", Sample.num 1)]);
                          ("percent", Sample.num 5)]]) = Throw.
Proof.
  destruct color_text_rendering as (Hok & Hthrow & _ & Hname & _).
  split; [|split].
  - rewrite Hok; [reflexivity | repeat constructor].
  - apply Hthrow. apply Exists_cons_tl, Exists_cons_hd. reflexivity.
  - apply (Hname _ [("toString", Sample.num 1)]); reflexivity.
Defined.

Lemma unrenderable_colors_answered_500_witness :
  run (handler Sample.env Sample.request) Sample.world_bad_color
  = (Ok {| status := 500;
           body := Obj [("error", Str "Failed to process SAR data.")] |},
     [catalog_call Sample.request;
      GetColors Sample.image_url "key" "secret";
      GetTags Sample.image_url "key" "secret"]).
Proof.
  apply (unrenderable_colors_answered_500 Sample.env Sample.request Sample.world_bad_color
           Sample.catalog_data (Arr Sample.features) Sample.scene_b
           [Sample.scene_c; Sample.scene_a] Sample.bad_colors_data).
  - exact sample_has_coordinates.
  - exact sample_printable.
  - exact sample_configured.
  - reflexivity.
  - reflexivity.
  - exact sample_sorted.
  - reflexivity.
  - reflexivity.
  - reflexivity.
  - left. eexists. split; [reflexivity |].
    apply Exists_cons_tl, Exists_cons_hd. reflexivity.
Defined.

Lemma tags_failure_absorbed_witness :
  tags_of Sample.world_no_tags Sample.image_url "key" "secret" = []
  /\ exists p resp,
       run (handler Sample.env Sample.request) Sample.world_no_tags
       = (Ok resp,
          [catalog_call Sample.request;
           GetColors Sample.image_url "key" "secret";
           GetTags Sample.image_url "key" "secret";
           PostLLM p (Some "token")])
       /\ status resp = 200%Z
       /\ field (body resp) "imageTags" = Arr []
       /\ contains p "Also detected visual tags: None.".
Proof.
  destruct (tags_failure_absorbed Sample.env Sample.request Sample.world_no_tags
              Sample.catalog_data (Arr Sample.features) Sample.scene_b
              [Sample.scene_c; Sample.scene_a]) as [Hempty Hrun].
  - exact sample_has_coordinates.
  - exact sample_printable.
  - exact sample_configured.
  - reflexivity.
  - reflexivity.
  - exact sample_sorted.
  - reflexivity.
  - left. reflexivity.
  - split; [exact Hempty |].
    destruct (Hrun "black: 62.3%, grey: 37.7%") as (p & Hp & Hnone).
    + vm_compute. reflexivity.
    + exists p. eexists. split; [exact Hp |]. repeat split. exact Hnone.
Defined.

Lemma answer_200_shape_witness :
  exists url explanation scene tags cs md,
    body (match fst (run (handler Sample.env Sample.request) Sample.world_ok) with
          | Ok resp => resp
          | Throw => processing_error
          end)
    = Obj [("imageUrl", url);
           ("explanation", explanation);
           ("sceneName", scene);
           ("imageTags", Arr tags);
           ("imageColors", Arr cs);
           ("metadata", md)]
    /\ (List.length tags <= 5)%nat
    /\ field md "sceneName" = scene
    /\ field (field md "coordinates") "latitude" = Sample.num 61.
Proof.
  destruct (answer_200_shape Sample.env Sample.request Sample.world_ok
              (match fst (run (handler Sample.env Sample.request) Sample.world_ok) with
               | Ok resp => resp
               | Throw => processing_error
               end)
              (snd (run (handler Sample.env Sample.request) Sample.world_ok)))
    as (url & e & scene & tags & cs & md & props & Hbody & Hlen & _ & _ & Hscene & Hlat & _).
  - vm_compute. reflexivity.
  - reflexivity.
  - exists url, e, scene, tags, cs, md. repeat split; assumption.
Defined.

Lemma prompt_is_template_without_outer_newlines_witness :
  exists text tagtext,
    colorText (colors_of Sample.world_ok Sample.image_url "key" "secret") = Ok text
    /\ tagsText (tags_of Sample.world_ok Sample.image_url "key" "secret") = Ok tagtext
    /\ newline ++ Sample.prompt_text Sample.world_ok ++ newline
       = prompt_template text tagtext
           (JSON_stringify
              (metadata_of (field Sample.scene_b "properties")
                 (field Sample.request "latitude") (field Sample.request "longitude"))).
Proof.
  apply (prompt_is_template_without_outer_newlines
           (colors_of Sample.world_ok Sample.image_url "key" "secret")
           (tags_of Sample.world_ok Sample.image_url "key" "secret")
           (metadata_of (field Sample.scene_b "properties")
              (field Sample.request "latitude") (field Sample.request "longitude"))
           (Sample.prompt_text Sample.world_ok)
           (substring 0
              (String.length
                 (JSON_stringify
                    (metadata_of (field Sample.scene_b "properties")
                       (field Sample.request "latitude")
                       (field Sample.request "longitude"))) - 1)
              (JSON_stringify
                 (metadata_of (field Sample.scene_b "properties")
                    (field Sample.request "latitude")
                    (field Sample.request "longitude"))))
           "}"%char).
  - vm_compute. reflexivity.
  - reflexivity.
  - vm_compute. reflexivity.
Defined.

Lemma sorted_features_latest_first_witness :
  exists sorted,
    sortedFeatures (Arr Sample.features) = Ok sorted
    /\ sorted_latest_first (filter has_browse_list Sample.features) sorted.
Proof.
  apply (sorted_features_latest_first Sample.features).
  - repeat constructor.
  - repeat constructor; intros H;
      first [vm_compute in H; discriminate H | vm_compute; discriminate].
Defined.

Lemma colors_failure_absorbed_witness :
  exists p resp,
    run (handler Sample.env Sample.request) Sample.world_no_colors
    = (Ok resp,
       [catalog_call Sample.request;
        GetColors (Str "https://img/b.jpg") "key" "secret";
        GetTags (Str "https://img/b.jpg") "key" "secret";
        PostLLM p (Some "token")])
    /\ status resp = 200%Z
    /\ field (body resp) "imageColors" = Arr []
    /\ field (body resp) "explanation" = Str "Mostly calm water.".
Proof.
  destruct (colors_failure_absorbed Sample.env Sample.request Sample.world_no_colors
              Sample.catalog_data (Arr Sample.features) Sample.scene_b
              [Sample.scene_c; Sample.scene_a] "ice, coast, city, port, river")
    as (p & resp & Hrun & Hstatus & Hbody & Hp).
  - exact sample_has_coordinates.
  - exact sample_printable.
  - exact sample_configured.
  - reflexivity.
  - reflexivity.
  - exact sample_sorted.
  - reflexivity.
  - left. reflexivity.
  - reflexivity.
  - exists p, resp. split; [exact Hrun |]. split; [exact Hstatus |].
    rewrite Hbody. split; [reflexivity |].
    cbn [field get lookup String.eqb Ascii.eqb Bool.eqb].
    unfold answer_of, explanation, try_catch. reflexivity.
Defined.

Lemma validation_rejects_missing_coordinates_witness :
  run (handler Sample.env (Obj [("latitude", Sample.num 61)])) Sample.world_ok
  = (Ok {| status := 400;
           body := Obj [("error", Str "Latitude and Longitude are required.")] |},
     [])
  /\ run (handler Sample.env
            (Obj [("latitude", Sample.num 61);
                  ("longitude", Arr [Obj [("toString", Null)]])])) Sample.world_ok
     = (Throw, []).
Proof.
  split.
  - destruct (validation_rejects_missing_coordinates Sample.env
                (Obj [("latitude", Sample.num 61)]) Sample.world_ok)
      as [Hreject _].
    + reflexivity.
    + apply Hreject; [right; reflexivity | split; reflexivity].
  - destruct (validation_rejects_missing_coordinates Sample.env
                (Obj [("latitude", Sample.num 61);
                      ("longitude", Arr [Obj [("toString", Null)]])]) Sample.world_ok)
      as (_ & _ & Hthrow).
    + reflexivity.
    + apply Hthrow. right. reflexivity.
Defined.

Lemma image_url_conversion_failures_witness :
  run (handler Sample.env Sample.request)
      (Sample.world_browse (Arr [Obj [("toString", Sample.num 1)]]))
  = (Ok {| status := 500;
           body := Obj [("error", Str "Failed to process SAR data.")] |},
     [catalog_call Sample.request])
  /\ exists p resp,
       run (handler Sample.env Sample.request)
           (Sample.world_browse (Arr [Str Sample.lone_surrogate_text]))
       = (Ok resp, [catalog_call Sample.request; PostLLM p (Some "token")])
       /\ status resp = 200%Z
       /\ field (body resp) "imageColors" = Arr []
       /\ field (body resp) "imageTags" = Arr [].
Proof.
  split.
  - destruct (image_url_conversion_failures Sample.env Sample.request
                (Sample.world_browse (Arr [Obj [("toString", Sample.num 1)]]))
                (Obj [("features",
                       Arr [Sample.feature "S1A_A" "2024-01-05T03:10:00Z"
                              (Arr [Obj [("toString", Sample.num 1)]])])])
                (Arr [Sample.feature "S1A_A" "2024-01-05T03:10:00Z"
                        (Arr [Obj [("toString", Sample.num 1)]])])
                (Sample.feature "S1A_A" "2024-01-05T03:10:00Z"
                   (Arr [Obj [("toString", Sample.num 1)]])) [])
      as [Hfail _].
    + exact sample_has_coordinates.
    + exact sample_printable.
    + exact sample_configured.
    + reflexivity.
    + reflexivity.
    + vm_compute. reflexivity.
    + apply Hfail. reflexivity.
  - destruct (image_url_conversion_failures Sample.env Sample.request
                (Sample.world_browse (Arr [Str Sample.lone_surrogate_text]))
                (Obj [("features",
                       Arr [Sample.feature "S1A_A" "2024-01-05T03:10:00Z"
                              (Arr [Str Sample.lone_surrogate_text])])])
                (Arr [Sample.feature "S1A_A" "2024-01-05T03:10:00Z"
                        (Arr [Str Sample.lone_surrogate_text])])
                (Sample.feature "S1A_A" "2024-01-05T03:10:00Z"
                   (Arr [Str Sample.lone_surrogate_text])) [])
      as [_ Hskip].
    + exact sample_has_coordinates.
    + exact sample_printable.
    + exact sample_configured.
    + reflexivity.
    + reflexivity.
    + vm_compute. reflexivity.
    + destruct (Hskip eq_refl eq_refl) as (p & _ & Hrun).
      exists p. eexists. split; [exact Hrun |]. repeat split.
Defined.

(** A tag without a [tag] object among the retained ones loses all the tags. *)
Example one_bad_tag_loses_all :
  tags_of (fun c => match c with
                    | GetTags _ _ _ =>
                        Ok (Obj [("result",
                                  Obj [("tags",
                                        Arr [Sample.tag "ice" 90;
                                             Obj [("confidence", Sample.num 80)]])])])
                    | _ => Throw
                    end)
    Sample.image_url "key" "secret"
  = [].
Proof. vm_compute. reflexivity. Qed.
